(** * Generative Stochastic Network (opendeep/models/gsn.py,
    opendeep/models/model.py): graph construction, costs, momentum updates,
    sampling and parameter loading.

    The Python code works at two levels, and both are embedded here.

    - Graph building.  [build_gsn] and its helpers assemble symbolic Theano
      graphs ([expr]).  They mutate the Python lists [hiddens] and
      [p_X_chain] in place; here they take the lists and return the new
      ones, inside a state-and-exception monad whose state is the random
      stream generator [MRG] and the log.  A list index out of range, an
      [append] on [None] and the like raise as in Python.
    - Running.  [GSN.__init__] compiles graphs into functions; [call] runs
      one on arrays, over a store of shared variables.  The numeric library
      is a parameter ([backend]): every theorem about a run holds for any
      choice of arrays and operations.

    Not embedded: logging set-up, files, timing, image output, and
    Theano's own checks on graphs (types, unused or disconnected inputs). *)

From Stdlib Require Import ZArith Lia.
From stdpp Require Import base list strings pretty.
From stdpp Require gmap.

Local Open Scope Z_scope.
Local Open Scope nat_scope.

(** ** Python exceptions and results *)

Inductive exn : Type :=
| IndexError
| AttributeError
| TypeError
| ZeroDivisionError
| NotImplementedError.

Inductive result (A : Type) : Type :=
| Ok (a : A)
| Raise (e : exn).
Arguments Ok {A} a.
Arguments Raise {A} e.

Definition is_Ok {A} (r : result A) : bool :=
  match r with Ok _ => true | Raise _ => false end.

(** ** Symbolic graphs *)

(** Theano shared variables are compared by object identity; each
    constructor is one object of [GSN.__init__]. *)
Inductive shared : Type :=
| W_ (layer : nat)                 (* get_shared_weights(..., name="W_l_l+1") *)
| b_ (layer : nat)                 (* get_shared_bias(..., name='b_l') *)
| gradient_buffer_ (k : nat)       (* theano.shared(numpy.zeros(...)) *)
| learning_rate_
| momentum_
| hidden_add_noise_sigma_
| input_salt_and_pepper_.

Global Instance shared_eq_dec : EqDecision shared.
Proof. solve_decision. Defined.

(** Graph nodes.  The random nodes carry the index of the stream that
    [MRG] (an [MRG_RandomStreams] object) hands out for them: every call
    takes a fresh stream. *)
Inductive expr : Type :=
| Input (name : string)                       (* T.fmatrix(name), T.tensor3(name) *)
| Shared (v : shared)
| Const (c : Z)                               (* cast32(c) *)
| Dot (a b : expr)                            (* T.dot(a, b) *)
| Transpose (a : expr)                        (* a.T *)
| Add (a b : expr)                            (* a + b *)
| Sub (a b : expr)                            (* a - b *)
| Mul (a b : expr)                            (* a * b *)
| ZerosLike (a : expr)                        (* T.zeros_like(a) *)
| Apply (f : string) (a : expr)               (* a named elementwise function *)
| Apply2 (f : string) (a b : expr)            (* a named cost function *)
| Subtensor (a : expr) (i : nat)              (* a[i] *)
| Grad (cost wrt : expr)                      (* T.grad(cost, wrt) *)
| GaussianNoise (stream : nat) (x sigma : expr)   (* add_gaussian_noise(x, sigma, MRG) *)
| SaltAndPepper (stream : nat) (x p : expr)       (* salt_and_pepper(x, p, MRG) *)
| Binomial (stream : nat) (p : expr).             (* MRG.binomial(p=p, size=p.shape) *)

Fixpoint size (e : expr) : nat :=
  match e with
  | Input _ | Shared _ | Const _ => 1
  | Transpose a | ZerosLike a | Apply _ a | Subtensor a _ | Binomial _ a => S (size a)
  | Dot a b | Add a b | Sub a b | Mul a b | Apply2 _ a b | Grad a b
  | GaussianNoise _ a b | SaltAndPepper _ a b => S (size a + size b)
  end.

(** ** Log records

    One constructor per message of the graph helpers of gsn.py. *)
Inductive msg : Type :=
| odd_layer_updates
| even_layer_updates
| done_full_update
| One_full_update_step_for_layers
| updating_layer (i : nat)
| using_T (w : expr)                       (* 'using '+str(weights_list[i])+'.T' *)
| using_W (w : expr)
| using_and_T (w_prev w : expr)
| NO_noise_in_first_hidden_layer
| Adding_pre_activation_gaussian_noise_for_layer (i : nat)
| Activation_for_visible_layer
| Hidden_units_activation_for_layer (i : nat)
| Adding_post_activation_gaussian_noise_for_layer (i : nat)
| Sampling_from_input
| NO_input_sampling
| Building_the_GSN_graph (walkbacks : nat)
| Building_the_GSN_graph_given_hiddens (walkbacks : nat)
| Building_the_GSN_graph_with (walkbacks : nat)
| Building_the_GSN_graph_for_PXH (walkbacks : nat)
| GSN_Walkback (i walkbacks : nat)
| GSN_prediction_Walkback (i walkbacks : nat)
| GSN_after_scan_Walkback (i walkbacks : nat).

(** The layer indices named by the ['updating layer'] records, in order. *)
Fixpoint updated_layers (l : list msg) : list nat :=
  match l with
  | [] => []
  | updating_layer i :: l => i :: updated_layers l
  | _ :: l => updated_layers l
  end.

(** ** The graph-building monad *)

Record builder : Type := mkBuilder {
  MRG : nat;              (* next fresh random stream *)
  logger : list msg       (* records written so far, oldest first *)
}.

(** State and exceptions: a computation runs from a state and either
    returns a value with the new state or raises. *)
Definition SE (S A : Type) : Type := S -> result (A * S).

Global Instance SE_ret {S} : MRet (SE S) := fun A a s => Ok (a, s).
Global Instance SE_bind {S} : MBind (SE S) := fun A B f m s =>
  match m s with
  | Ok (a, s') => f a s'
  | Raise e => Raise e
  end.

Definition raise {S A} (e : exn) : SE S A := fun _ => Raise e.

Abbreviation M := (SE builder).

Definition maybeLog (m : msg) : M unit :=
  fun s => Ok (tt, mkBuilder (MRG s) (logger s ++ [m])).

Definition fresh_stream : M nat :=
  fun s => Ok (MRG s, mkBuilder (S (MRG s)) (logger s)).

(** ** Python list primitives (non-negative indices) *)

Definition getitem {S A} (l : list A) (i : nat) : SE S A :=
  match l !! i with
  | Some x => mret x
  | None => raise IndexError
  end.

Definition setitem {S A} (l : list A) (i : nat) (x : A) : SE S (list A) :=
  if decide (i < length l) then mret (<[i := x]> l) else raise IndexError.

(** [l[-1]] *)
Definition getitem_last {S A} (l : list A) : SE S A :=
  match last l with
  | Some x => mret x
  | None => raise IndexError
  end.

(** A name bound either to a list or to [None]. *)
Definition append {S A} (l : option (list A)) (x : A) : SE S (option (list A)) :=
  match l with
  | Some l => mret (Some (l ++ [x]))
  | None => raise AttributeError
  end.

(** [for x in l] over a name bound either to a list or to [None]. *)
Definition iter {S A} (l : option (list A)) : SE S (list A) :=
  match l with
  | Some l => mret l
  | None => raise TypeError
  end.

(** [range(start, stop, step)] for a positive step. *)
Definition py_range (start stop step : nat) : list nat :=
  (fun k => start + step * k) <$> seq 0 ((stop - start + (step - 1)) / step).

(** [for x in l: s = body x s] *)
Fixpoint for_each {St A S} (l : list A) (body : A -> S -> SE St S) (s : S) : SE St S :=
  match l with
  | [] => mret s
  | x :: l => s' ← body x s; for_each l body s'
  end.

(** ** Noise helpers *)

(** Modelled from the spec: [salt_and_pepper] and [add_gaussian_noise] of
    opendeep.utils.utils, which is not among the sources (spec 4.1:
    sample-generating functions with no side effect beyond the advance of
    the random stream).  Each takes one fresh stream from [MRG] and yields
    one graph node, as does [MRG.binomial]. *)
Definition salt_and_pepper (x p : expr) : M expr :=
  n ← fresh_stream; mret (SaltAndPepper n x p).

Definition add_gaussian_noise (x sigma : expr) : M expr :=
  n ← fresh_stream; mret (GaussianNoise n x sigma).

Definition MRG_binomial (p : expr) : M expr :=
  n ← fresh_stream; mret (Binomial n p).

(** ** Keyword arguments shared by the graph helpers *)
Record config : Type := mkConfig {
  add_noise : bool;
  noiseless_h1 : bool;
  hidden_add_noise_sigma : expr;
  input_salt_and_pepper : expr;
  input_sampling : bool;
  visible_activation : expr -> expr;
  hidden_activation : expr -> expr
}.

Definition with_add_noise (c : config) (b : bool) : config :=
  mkConfig b (noiseless_h1 c) (hidden_add_noise_sigma c) (input_salt_and_pepper c)
           (input_sampling c) (visible_activation c) (hidden_activation c).

(** ** simple_update_layer (gsn.py 638-708) *)

Definition simple_update_layer (hiddens weights_list bias_list : list expr)
    (p_X_chain : option (list expr)) (i : nat) (c : config)
    : M (list expr * option (list expr)) :=
  (* Compute the dot product, whatever layer *)
  hiddens ←
    (if bool_decide (i = 0) then
       w ← getitem weights_list i;
       maybeLog (using_T w);;
       h_next ← getitem hiddens (i + 1);
       b ← getitem bias_list i;
       setitem hiddens i (Add (Dot h_next (Transpose w)) b)
     else if bool_decide (i = length hiddens - 1) then
       w ← getitem weights_list (i - 1);
       maybeLog (using_W w);;
       h_prev ← getitem hiddens (i - 1);
       b ← getitem bias_list i;
       setitem hiddens i (Add (Dot h_prev w) b)
     else
       w_prev ← getitem weights_list (i - 1);
       w ← getitem weights_list i;
       maybeLog (using_and_T w_prev w);;
       h_next ← getitem hiddens (i + 1);
       h_prev ← getitem hiddens (i - 1);
       b ← getitem bias_list i;
       setitem hiddens i (Add (Add (Dot h_next (Transpose w)) (Dot h_prev w_prev)) b));
  (* Add pre-activation noise if NOT input layer *)
  add_noise ←
    (if bool_decide (i = 1) && noiseless_h1 c then
       maybeLog NO_noise_in_first_hidden_layer;; mret false
     else mret (add_noise c));
  (* pre activation noise *)
  hiddens ←
    (if negb (bool_decide (i = 0)) && add_noise then
       maybeLog (Adding_pre_activation_gaussian_noise_for_layer i);;
       h ← getitem hiddens i;
       h ← add_gaussian_noise h (hidden_add_noise_sigma c);
       setitem hiddens i h
     else mret hiddens);
  (* ACTIVATION! *)
  hiddens ←
    (if bool_decide (i = 0) then
       maybeLog Activation_for_visible_layer;;
       h ← getitem hiddens i;
       setitem hiddens i (visible_activation c h)
     else
       maybeLog (Hidden_units_activation_for_layer i);;
       h ← getitem hiddens i;
       setitem hiddens i (hidden_activation c h));
  (* post activation noise *)
  hiddens ←
    (if negb (bool_decide (i = 0)) && add_noise then
       maybeLog (Adding_post_activation_gaussian_noise_for_layer i);;
       h ← getitem hiddens i;
       h ← add_gaussian_noise h (hidden_add_noise_sigma c);
       setitem hiddens i h
     else mret hiddens);
  (* build the reconstruction chain if updating the visible layer X *)
  if bool_decide (i = 0) then
    (* if input layer -> append p(X|H...) *)
    h ← getitem hiddens i;
    p_X_chain ← append p_X_chain h;
    (* sample from p(X|H...) *)
    sampled ←
      (if input_sampling c then
         maybeLog Sampling_from_input;;
         h ← getitem hiddens i;
         MRG_binomial h
       else
         maybeLog NO_input_sampling;;
         getitem hiddens i);
    (* add noise *)
    sampled ← salt_and_pepper sampled (input_salt_and_pepper c);
    (* set input layer *)
    hiddens ← setitem hiddens i sampled;
    mret (hiddens, p_X_chain)
  else mret (hiddens, p_X_chain).

(** ** The sweeps (gsn.py 517-625) *)

(** Odd layer update function: just a loop over the odd layers. *)
Definition update_odd_layers (hiddens weights_list bias_list : list expr)
    (c : config) : M (list expr) :=
  for_each (py_range 1 (length hiddens) 2)
    (fun i hiddens =>
       maybeLog (updating_layer i);;
       '(hiddens, _) ← simple_update_layer hiddens weights_list bias_list None i c;
       mret hiddens)
    hiddens.

(** Even layer update; [p_X_chain] is given to append the p(X|...) at each
    full update. *)
Definition update_even_layers (hiddens weights_list bias_list : list expr)
    (p_X_chain : option (list expr)) (c : config)
    : M (list expr * option (list expr)) :=
  for_each (py_range 0 (length hiddens) 2)
    (fun i '(hiddens, p_X_chain) =>
       maybeLog (updating_layer i);;
       simple_update_layer hiddens weights_list bias_list p_X_chain i c)
    (hiddens, p_X_chain).

(** One update over the odd layers + one update over the even layers. *)
Definition update_layers (hiddens weights_list bias_list : list expr)
    (p_X_chain : option (list expr)) (c : config)
    : M (list expr * option (list expr)) :=
  maybeLog odd_layer_updates;;
  hiddens ← update_odd_layers hiddens weights_list bias_list c;
  maybeLog even_layer_updates;;
  r ← update_even_layers hiddens weights_list bias_list p_X_chain c;
  maybeLog done_full_update;;
  mret r.

Definition update_layers_scan_step (hiddens_t weights_list bias_list : list expr)
    (c : config) : M (expr * list expr) :=
  let p_X_chain := Some [] in
  maybeLog One_full_update_step_for_layers;;
  maybeLog odd_layer_updates;;
  hiddens_t ← update_odd_layers hiddens_t weights_list bias_list c;
  maybeLog even_layer_updates;;
  '(hiddens_t, p_X_chain) ← update_even_layers hiddens_t weights_list bias_list p_X_chain c;
  maybeLog done_full_update;;
  p_X_chain ← iter p_X_chain;
  x ← getitem p_X_chain 0;
  mret (x, hiddens_t).

(** One update over the even layers + one update over the odd layers. *)
Definition update_layers_reverse (hiddens weights_list bias_list : list expr)
    (p_X_chain : option (list expr)) (c : config)
    : M (list expr * option (list expr)) :=
  maybeLog even_layer_updates;;
  '(hiddens, p_X_chain) ← update_even_layers hiddens weights_list bias_list p_X_chain c;
  maybeLog odd_layer_updates;;
  hiddens ← update_odd_layers hiddens weights_list bias_list c;
  maybeLog done_full_update;;
  mret (hiddens, p_X_chain).

(** ** The chain builders (gsn.py 715-886) *)

(** [hiddens = [X_init]; for w in weights_list:
      hiddens.append(T.zeros_like(T.dot(hiddens[-1], w)))] *)
Definition init_hiddens (X_init : expr) (weights_list : list expr) : M (list expr) :=
  for_each weights_list
    (fun w hiddens =>
       h ← getitem_last hiddens;
       mret (hiddens ++ [ZerosLike (Dot h w)]))
    [X_init].

(** Whether or not to corrupt the visible input X. *)
Definition corrupt_input (X : expr) (c : config) : M expr :=
  if add_noise c then salt_and_pepper X (input_salt_and_pepper c) else mret X.

Definition build_gsn (X : expr) (weights_list bias_list : list expr)
    (c : config) (walkbacks : nat) : M (option (list expr) * list expr) :=
  let p_X_chain := Some [] in
  X_init ← corrupt_input X c;
  (* init hiddens with zeros *)
  hiddens ← init_hiddens X_init weights_list;
  (* The layer update scheme *)
  maybeLog (Building_the_GSN_graph walkbacks);;
  '(hiddens, p_X_chain) ←
    for_each (py_range 0 walkbacks 1)
      (fun i '(hiddens, p_X_chain) =>
         maybeLog (GSN_Walkback (i + 1) walkbacks);;
         update_layers hiddens weights_list bias_list p_X_chain c)
      (hiddens, p_X_chain);
  mret (p_X_chain, hiddens).

(** [numpy.sum] of a Python list of graph nodes: the entries are added from
    the left; the sum of no entry is the number 0. *)
Definition numpy_sum (costs : list expr) : expr :=
  match costs with
  | [] => Const 0
  | c :: costs => foldl Add c costs
  end.

(** [[cost_function(rX, X) for rX in p_X_chain]] *)
Definition costs_of (cost_function : expr -> expr -> expr) (X : expr)
    (p_X_chain : option (list expr)) : M (list expr) :=
  p_X_chain ← iter p_X_chain;
  mret ((fun rX => cost_function rX X) <$> p_X_chain).

Definition build_gsn_given_hiddens (X : expr) (hiddens weights_list bias_list : list expr)
    (c : config) (walkbacks : nat) (cost_function : expr -> expr -> expr)
    : M (expr * expr * expr) :=
  maybeLog (Building_the_GSN_graph_given_hiddens walkbacks);;
  let p_X_chain := Some [] in
  '(hiddens, p_X_chain) ←
    for_each (py_range 0 walkbacks 1)
      (fun i '(hiddens, p_X_chain) =>
         maybeLog (GSN_prediction_Walkback (i + 1) walkbacks);;
         update_layers_reverse hiddens weights_list bias_list p_X_chain c)
      (hiddens, p_X_chain);
  chain ← iter p_X_chain;
  x_sample ← getitem_last chain;
  costs ← costs_of cost_function X p_X_chain;
  show_cost ← getitem_last costs; (* for logging to show progress *)
  let cost := numpy_sum costs in
  mret (x_sample, cost, show_cost).

Definition build_gsn_scan (X : expr) (weights_list bias_list : list expr)
    (c : config) (walkbacks : nat) (cost_function : expr -> expr -> expr)
    : M (expr * expr * expr) :=
  (* Whether or not to corrupt the visible input X *)
  X_init ← corrupt_input X c;
  (* init hiddens with zeros *)
  hiddens_0 ← init_hiddens X_init weights_list;
  maybeLog (Building_the_GSN_graph_with walkbacks);;
  let p_X_chain := Some [] in
  '(hiddens_0, p_X_chain) ←
    for_each (py_range 0 walkbacks 1)
      (fun i '(hiddens_0, p_X_chain) =>
         maybeLog (GSN_after_scan_Walkback (i + 1) walkbacks);;
         update_layers hiddens_0 weights_list bias_list p_X_chain c)
      (hiddens_0, p_X_chain);
  chain ← iter p_X_chain;
  x_sample ← getitem_last chain;
  costs ← costs_of cost_function X p_X_chain;
  show_cost ← getitem_last costs; (* for logging to show progress *)
  let cost := numpy_sum costs in
  mret (x_sample, cost, show_cost).

Definition build_gsn_pxh (hiddens weights_list bias_list : list expr)
    (c : config) (walkbacks : nat) : M expr :=
  maybeLog (Building_the_GSN_graph_for_PXH walkbacks);;
  let p_X_chain := Some [] in
  '(hiddens, p_X_chain) ←
    for_each (py_range 0 walkbacks 1)
      (fun i '(hiddens, p_X_chain) =>
         maybeLog (GSN_Walkback (i + 1) walkbacks);;
         update_layers hiddens weights_list bias_list p_X_chain c)
      (hiddens, p_X_chain);
  chain ← iter p_X_chain;
  getitem_last chain.

(** ** GSN.__init__ (gsn.py 126-331): parameters, graphs, costs, updates
    and the compiled functions

    [__init__] calls [self.cost_function] without having assigned it; the
    callable is taken from the arguments ([arg_cost_function]). *)

(** What a compiled function returns: one array for a single output
    variable, a list of arrays for a list of outputs. *)
Inductive outputs_of (A : Type) : Type :=
| One (x : A)
| Many (l : list A).
Arguments One {A} x.
Arguments Many {A} l.

(** [theano.function(inputs, outputs, updates)] *)
Record function : Type := mkFunction {
  inputs : list expr;
  outputs : outputs_of expr;
  fn_updates : list (shared * expr)        (* an OrderedDict, oldest key first *)
}.

(** The arguments read by [GSN.__init__]. *)
Record gsn_args : Type := mkArgs {
  arg_layers : nat;
  arg_walkbacks : nat;
  arg_hidden_size : nat;
  arg_noiseless_h1 : bool;
  arg_input_sampling : bool;
  arg_visible_activation : expr -> expr;
  arg_hidden_activation : expr -> expr;
  arg_cost_function : expr -> expr -> expr;   (* read as [self.cost_function] *)
  arg_weights_list : option (list shared);    (* config.get('weights_list') *)
  arg_bias_list : option (list shared)        (* config.get('bias_list') *)
}.

Record GSN : Type := mkGSN {
  layers : nat;
  walkbacks : nat;
  hidden_size : nat;
  weights_list : list shared;
  bias_list : list shared;
  params : list shared;
  p_X_chain : option (list expr);
  gsn_costs : list expr;
  show_gsn_cost : expr;
  gsn_cost : expr;
  gradient_buffer : list shared;
  updates : list (shared * expr);
  network_state_input : list expr;
  network_state_output : list expr;
  visible_pX_chain : option (list expr);
  f_learn : function;
  f_cost : function;
  f_recon : function;
  f_noise : function;
  f_sample : function;
  pxh : function
}.

Definition X : expr := Input "X".
Definition X_sample : expr := Input "X_sampling".
Definition H : expr := Input "H".
Definition H_sampling (i : nat) : expr := Input ("H_sampling_" +:+ pretty (i + 1)).

Definition learning_rate : expr := Shared learning_rate_.
Definition momentum : expr := Shared momentum_.

(** The keyword arguments [GSN.__init__] passes to the graph helpers. *)
Definition init_config (a : gsn_args) (add_noise : bool) : config :=
  mkConfig add_noise (arg_noiseless_h1 a) (Shared hidden_add_noise_sigma_)
           (Shared input_salt_and_pepper_) (arg_input_sampling a)
           (arg_visible_activation a) (arg_hidden_activation a).

(** Stochastic gradient descent (gsn.py 242-247).  [T.grad] is kept as a
    graph node per parameter; each parameter gets its own fresh buffer. *)
Definition init_gradient (gsn_cost : expr) (params : list shared) : list expr :=
  (fun param => Grad gsn_cost (Shared param)) <$> params.

Definition init_gradient_buffer (params : list shared) : list shared :=
  gradient_buffer_ <$> seq 0 (length params).

Definition init_m_gradient (gradient_buffer : list shared) (gradient : list expr)
    : list expr :=
  (fun '(gb, g) => Add (Mul momentum (Shared gb)) (Mul (Sub (Const 1) momentum) g))
    <$> zip gradient_buffer gradient.

Definition init_updates (gsn_cost : expr) (params : list shared)
    : list (shared * expr) :=
  let gradient := init_gradient gsn_cost params in
  let gradient_buffer := init_gradient_buffer params in
  let m_gradient := init_m_gradient gradient_buffer gradient in
  let param_updates :=
    (fun '(param, mg) => (param, Sub (Shared param) (Mul learning_rate mg)))
      <$> zip params m_gradient in
  let gradient_buffer_updates := zip gradient_buffer m_gradient in
  param_updates ++ gradient_buffer_updates.

Definition GSN_init (a : gsn_args) : M GSN :=
  let layers := arg_layers a in
  let walkbacks := arg_walkbacks a in
  (* Parameters! *)
  let weights_list :=
    match arg_weights_list a with
    | None => W_ <$> py_range 0 layers 1
    | Some l => l
    end in
  let bias_list :=
    match arg_bias_list a with
    | None => b_ <$> py_range 0 (layers + 1) 1
    | Some l => l
    end in
  let params := weights_list ++ bias_list in
  let W := Shared <$> weights_list in
  let b := Shared <$> bias_list in
  (* Build the GSN: for training, with noise *)
  '(p_X_chain, _) ← build_gsn X W b (init_config a true) walkbacks;
  (* for reconstruction checks along the way, no noise *)
  '(p_X_chain_recon, _) ← build_gsn X W b (init_config a false) walkbacks;
  (* Costs and gradients *)
  gsn_costs ← costs_of (arg_cost_function a) X p_X_chain;
  show_gsn_cost ← getitem_last gsn_costs; (* for logging to show progress *)
  let gsn_cost := numpy_sum gsn_costs in
  gsn_costs_recon ← costs_of (arg_cost_function a) X p_X_chain_recon;
  show_gsn_cost_recon ← getitem_last gsn_costs_recon;
  (* Stochastic gradient descent! *)
  let updates := init_updates gsn_cost params in
  (* Sampling: the input to the sampling function *)
  let network_state_input := X_sample :: (H_sampling <$> py_range 0 layers 1) in
  (* "Output" state of the network (noisy): initialized with input, then
     we apply updates *)
  let network_state_output := X_sample :: tail network_state_input in
  let visible_pX_chain := Some [] in
  (* ONE update *)
  '(network_state_output, visible_pX_chain) ←
    update_layers network_state_output W b visible_pX_chain (init_config a true);
  (* Create the functions *)
  let f_learn := mkFunction [X] (One show_gsn_cost) updates in
  let f_cost := mkFunction [X] (One show_gsn_cost) [] in
  chain_recon ← iter p_X_chain_recon;
  last_recon ← getitem_last chain_recon;
  let f_recon := mkFunction [X] (Many [show_gsn_cost_recon; last_recon]) [] in
  noisy ← salt_and_pepper X (Shared input_salt_and_pepper_);
  let f_noise := mkFunction [X] (One noisy) [] in
  f_sample ←
    (if bool_decide (layers = 1) then
       chain ← iter visible_pX_chain;
       last_pX ← getitem_last chain;
       mret (mkFunction [X_sample] (One last_pX) [])
     else
       chain ← iter visible_pX_chain;
       mret (mkFunction network_state_input (Many (network_state_output ++ chain)) []));
  x_init ← salt_and_pepper X (Shared input_salt_and_pepper_);
  let hiddens := x_init :: (Subtensor H <$> py_range 0 (length bias_list - 1) 1) in
  sample ← build_gsn_pxh hiddens W b (init_config a true) walkbacks;
  let pxh := mkFunction [X; H] (One sample) [] in
  mret (mkGSN layers walkbacks (arg_hidden_size a) weights_list bias_list params
          p_X_chain gsn_costs show_gsn_cost gsn_cost
          (init_gradient_buffer params) updates
          network_state_input network_state_output visible_pX_chain
          f_learn f_cost f_recon f_noise f_sample pxh).

(** ** Reading a cost graph as a sum *)

(** The value of a graph whose [+] nodes are read as [vadd]; every other
    node is valued by [atom]. *)
Fixpoint sum_value {V : Type} (vadd : V -> V -> V) (atom : expr -> V) (e : expr) : V :=
  match e with
  | Add a b => vadd (sum_value vadd atom a) (sum_value vadd atom b)
  | _ => atom e
  end.

(** The sum of a list of values, added from the left. *)
Definition sum_left {V : Type} (vadd : V -> V -> V) (zero : V) (l : list V) : V :=
  match l with
  | [] => zero
  | v :: l => foldl vadd v l
  end.

Definition example_args : gsn_args :=
  mkArgs 2 3 4 true true (Apply "sigmoid") (Apply "tanh")
         (Apply2 "binary_crossentropy") None None.

(** [returns m s Q]: run from [s], [m] returns normally, with a value and
    a final state that satisfy [Q]. *)
Definition returns {S A} (m : SE S A) (s : S) (Q : A -> S -> Prop) : Prop :=
  exists a s', m s = Ok (a, s') /\ Q a s'.

(** The odd indices below [n], in increasing order. *)
Definition odd_indices (n : nat) : list nat := filter (fun i => Nat.odd i = true) (seq 0 n).
(** The even indices below [n], in increasing order. *)
Definition even_indices (n : nat) : list nat := filter (fun i => Nat.even i = true) (seq 0 n).

(** ** What one layer update leaves behind *)

(** The pre-activation rule in the words of the specification (4.2, step 1):
    the visible layer reads its upper neighbour through the transposed
    weight, the top layer its lower neighbour through the plain weight, an
    interior layer both. *)
Definition topological_rule (hiddens weights_list bias_list : list expr) (i : nat)
    : option expr :=
  if bool_decide (i = 0) then
    h1 ← hiddens !! 1; W0 ← weights_list !! 0; b0 ← bias_list !! 0;
    Some (Add (Dot h1 (Transpose W0)) b0)
  else if bool_decide (i = length hiddens - 1) then
    h_prev ← hiddens !! (i - 1); W_prev ← weights_list !! (i - 1); bi ← bias_list !! i;
    Some (Add (Dot h_prev W_prev) bi)
  else
    h_next ← hiddens !! (i + 1); h_prev ← hiddens !! (i - 1);
    Wi ← weights_list !! i; W_prev ← weights_list !! (i - 1); bi ← bias_list !! i;
    Some (Add (Add (Dot h_next (Transpose Wi)) (Dot h_prev W_prev)) bi).

(** Whether Gaussian noise is added when layer [i] is updated. *)
Definition noise_on (c : config) (i : nat) : bool :=
  add_noise c && negb (bool_decide (i = 1) && noiseless_h1 c).

(** New state of a hidden layer with pre-activation [pre]; [n] is the next
    fresh stream of [MRG]. *)
Definition hidden_value (c : config) (i n : nat) (pre : expr) : expr :=
  if noise_on c i then
    GaussianNoise (S n)
      (hidden_activation c (GaussianNoise n pre (hidden_add_noise_sigma c)))
      (hidden_add_noise_sigma c)
  else hidden_activation c pre.

(** New state of the visible layer whose clean prediction is [p]. *)
Definition visible_value (c : config) (n : nat) (p : expr) : expr :=
  if input_sampling c then
    SaltAndPepper (S n) (Binomial n p) (input_salt_and_pepper c)
  else SaltAndPepper n p (input_salt_and_pepper c).

Definition layer_value (c : config) (i n : nat) (pre : expr) : expr :=
  if bool_decide (i = 0) then visible_value c n (visible_activation c pre)
  else hidden_value c i n pre.

(** Number of random streams taken by the update of layer [i]. *)
Definition layer_streams (c : config) (i : nat) : nat :=
  if bool_decide (i = 0) then (if input_sampling c then 2 else 1)
  else if noise_on c i then 2 else 0.

Definition new_chain (c : config) (i : nat) (pre : expr)
    (p_X_chain : option (list expr)) : option (list expr) :=
  if bool_decide (i = 0) then (fun l => l ++ [visible_activation c pre]) <$> p_X_chain
  else p_X_chain.

(** The lists a chain builder works on: at least one hidden layer, one
    weight between neighbours, one bias per layer. *)
Definition well_formed (hiddens weights_list bias_list : list expr) : Prop :=
  2 <= length hiddens /\ length hiddens <= S (length weights_list)
  /\ length hiddens <= length bias_list.

(** ** A small network used in the examples: two hidden layers *)

Definition example_config : config :=
  mkConfig true true (Shared hidden_add_noise_sigma_) (Shared input_salt_and_pepper_)
           true (Apply "sigmoid") (Apply "tanh").

Definition example_weights : list expr := [Shared (W_ 0); Shared (W_ 1)].
Definition example_biases : list expr := [Shared (b_ 0); Shared (b_ 1); Shared (b_ 2)].
Definition example_hiddens : list expr :=
  [Input "X"; Input "H_1"; Input "H_2"].
Definition builder0 : builder := mkBuilder 0 [].

(** ** Running compiled functions *)

(** The numeric library: arrays and the operations behind the graph
    nodes.  Random operations are told the call and the stream they draw
    for; [t_grad] values a gradient node in the environment of the call. *)
Record backend : Type := mkBackend {
  tensor : Type;
  t_const : Z -> tensor;
  t_dot : tensor -> tensor -> tensor;
  t_transpose : tensor -> tensor;
  t_add : tensor -> tensor -> tensor;
  t_sub : tensor -> tensor -> tensor;
  t_mul : tensor -> tensor -> tensor;
  t_zeros_like : tensor -> tensor;
  t_apply : string -> tensor -> tensor;
  t_apply2 : string -> tensor -> tensor -> tensor;
  t_subtensor : tensor -> nat -> tensor;
  t_gaussian : nat -> nat -> tensor -> tensor -> tensor;
  t_salt_and_pepper : nat -> nat -> tensor -> tensor -> tensor;
  t_binomial : nat -> nat -> tensor -> tensor;
  t_grad : expr -> expr -> (string -> tensor) -> (shared -> tensor) -> nat -> tensor;
  t_unbound : string -> tensor;
  np_binomial : nat -> tensor -> tensor;       (* rng.binomial(n=1, p=x, size=x.shape) *)
  np_zeros : nat -> nat -> tensor;             (* numpy.zeros((rows, columns)) *)
  np_vstack : list tensor -> tensor;           (* numpy.vstack *)
  T_stack : list tensor -> tensor;             (* T.stack *)
  shape : tensor -> list nat;
  accepts : tensor -> tensor -> bool           (* the type filter of set_value *)
}.

(** The state a run works on: the values of the shared variables and the
    positions of the two random generators. *)
Record world (B : backend) : Type := mkWorld {
  store : shared -> tensor B;
  theano_calls : nat;
  numpy_draws : nat
}.
Arguments mkWorld {B} _ _ _.
Arguments store {B} _ _.
Arguments theano_calls {B} _.
Arguments numpy_draws {B} _.

Fixpoint bind_inputs (B : backend) (inputs : list expr) (args : list (tensor B))
    (name : string) : tensor B :=
  match inputs, args with
  | Input n :: inputs, a :: args =>
      if decide (n = name) then a else bind_inputs B inputs args name
  | _ :: inputs, _ :: args => bind_inputs B inputs args name
  | _, _ => t_unbound B name
  end.

Fixpoint eval (B : backend) (env : string -> tensor B) (st : shared -> tensor B)
    (call : nat) (e : expr) : tensor B :=
  match e with
  | Input name => env name
  | Shared v => st v
  | Const c => t_const B c
  | Dot a b => t_dot B (eval B env st call a) (eval B env st call b)
  | Transpose a => t_transpose B (eval B env st call a)
  | Add a b => t_add B (eval B env st call a) (eval B env st call b)
  | Sub a b => t_sub B (eval B env st call a) (eval B env st call b)
  | Mul a b => t_mul B (eval B env st call a) (eval B env st call b)
  | ZerosLike a => t_zeros_like B (eval B env st call a)
  | Apply f a => t_apply B f (eval B env st call a)
  | Apply2 f a b => t_apply2 B f (eval B env st call a) (eval B env st call b)
  | Subtensor a i => t_subtensor B (eval B env st call a) i
  | Grad cost wrt => t_grad B cost wrt env st call
  | GaussianNoise n x sigma =>
      t_gaussian B call n (eval B env st call x) (eval B env st call sigma)
  | SaltAndPepper n x p =>
      t_salt_and_pepper B call n (eval B env st call x) (eval B env st call p)
  | Binomial n p => t_binomial B call n (eval B env st call p)
  end.

(** [d[k]] for the dictionary made from a list of pairs: the last pair of
    a key is the one that counts. *)
Fixpoint dict_get {V : Type} (k : shared) (d : list (shared * V)) : option V :=
  match d with
  | [] => None
  | (k', v) :: d =>
      match dict_get k d with
      | Some v' => Some v'
      | None => if decide (k' = k) then Some v else None
      end
  end.

(** Calling a compiled function: the outputs and the new values of the
    updated shared variables are all computed from the old values. *)
Definition call (B : backend) (f : function) (args : list (tensor B))
    : SE (world B) (outputs_of (tensor B)) :=
  fun w =>
    if decide (length args = length (inputs f)) then
      let ev := eval B (bind_inputs B (inputs f) args) (store w) (theano_calls w) in
      let out :=
        match outputs f with
        | One e => One (ev e)
        | Many l => Many (ev <$> l)
        end in
      let st' := fun v =>
        match dict_get v (fn_updates f) with
        | Some rhs => ev rhs
        | None => store w v
        end in
      Ok (out, mkWorld st' (S (theano_calls w)) (numpy_draws w))
    else Raise TypeError.

(** ** GSN.sample (gsn.py 382-443) *)

(** A compiled function with one output variable returns one array, one
    with a list of outputs returns a list. *)
Definition call_one (B : backend) (f : function) (args : list (tensor B))
    : SE (world B) (tensor B) :=
  out ← call B f args;
  match out with
  | One x => mret x
  | Many _ => raise TypeError
  end.

Definition call_many (B : backend) (f : function) (args : list (tensor B))
    : SE (world B) (list (tensor B)) :=
  out ← call B f args;
  match out with
  | Many l => mret l
  | One _ => raise TypeError
  end.

(** [rng.binomial(n=1, p=x, size=x.shape).astype('float32')] *)
Definition rng_binomial (B : backend) (x : tensor B) : SE (world B) (tensor B) :=
  fun w => Ok (np_binomial B (numpy_draws w) x,
               mkWorld (store w) (theano_calls w) (S (numpy_draws w))).

(** The list [samples] of [sample_some_numbers_single_layer] at its
    [return]. *)
Definition single_layer_samples (B : backend) (g : GSN) (initial : tensor B)
    (n_samples : nat) : SE (world B) (list (tensor B)) :=
  let x0 := initial in
  let samples := [x0] in
  x ← call_one B (f_noise g) [x0];
  '(samples, _) ←
    for_each (py_range 0 (n_samples - 1) 1)
      (fun _ '(samples, x) =>
         x ← call_one B (f_sample g) [x];
         let samples := samples ++ [x] in
         x ← rng_binomial B x;
         x ← call_one B (f_noise g) [x];
         mret (samples, x))
      (samples, x);
  mret samples.

Definition sample_some_numbers_single_layer (B : backend) (g : GSN)
    (initial : tensor B) (n_samples : nat)
    : SE (world B) (tensor B * option (list (tensor B))) :=
  samples ← single_layer_samples B g initial n_samples;
  mret (np_vstack B samples, None).

Definition sampling_wrapper (B : backend) (g : GSN) (NSI : list (tensor B))
    : SE (world B) (list (tensor B) * list (tensor B)) :=
  out ← call_many B (f_sample g) NSI;
  let NSO := take (length (network_state_output g)) out in
  let vis_pX_chain := drop (length (network_state_output g)) out in
  mret (NSO, vis_pX_chain).

(** The loop variables of [sample_some_numbers]; the timing list only
    feeds a log message and is left out. *)
Record sampling_state (B : backend) : Type := mkSampling {
  network_state : list (list (tensor B));
  visible_chain : list (tensor B);
  noisy_h0_chain : list (tensor B);
  sampled_h : list (tensor B)
}.
Arguments mkSampling {B} _ _ _ _.
Arguments network_state {B} _.
Arguments visible_chain {B} _.
Arguments noisy_h0_chain {B} _.
Arguments sampled_h {B} _.

(** The lists [visible_chain] and [sampled_h] of [sample_some_numbers] at
    its [return]. *)
Definition multi_layer_samples (B : backend) (g : GSN) (initial : tensor B)
    (n_samples k : nat) : SE (world B) (sampling_state B) :=
  (* The network's initial state *)
  let init_vis := initial in
  noisy_init_vis ← call_one B (f_noise g) [init_vis];
  zeros ←
    for_each (tail (bias_list g))
      (fun _ zeros =>
         rows ← getitem (shape B initial) 0;
         mret (zeros ++ [np_zeros B rows (hidden_size g)]))
      [];
  let st := mkSampling [noisy_init_vis :: zeros] [init_vis] [noisy_init_vis] [] in
  for_each (py_range 0 (n_samples - 1) 1)
    (fun i st =>
       (* feed the last state into the network, compute new state, and
          obtain visible units expectation chain *)
       last_state ← getitem_last (network_state st);
       '(net_state_out, vis_pX_chain) ← sampling_wrapper B g last_state;
       (* append to the visible chain *)
       let visible_chain := visible_chain st ++ vis_pX_chain in
       (* append state output to the network state chain *)
       let network_state := network_state st ++ [net_state_out] in
       h0 ← getitem net_state_out 0;
       let noisy_h0_chain := noisy_h0_chain st ++ [h0] in
       sampled_h ←
         (if bool_decide (k = 0) then raise ZeroDivisionError
          else if bool_decide (i mod k = 0) then
            mret (sampled_h st ++ [T_stack B (tail net_state_out)])
          else mret (sampled_h st));
       mret (mkSampling network_state visible_chain noisy_h0_chain sampled_h))
    st.

Definition sample_some_numbers (B : backend) (g : GSN) (initial : tensor B)
    (n_samples k : nat) : SE (world B) (tensor B * option (list (tensor B))) :=
  st ← multi_layer_samples B g initial n_samples k;
  mret (np_vstack B (visible_chain st), Some (sampled_h st)).

Definition sample (B : backend) (g : GSN) (initial : tensor B) (n_samples k : nat)
    : SE (world B) (tensor B * option (list (tensor B))) :=
  if bool_decide (layers g = 1) then
    sample_some_numbers_single_layer B g initial n_samples
  else sample_some_numbers B g initial n_samples k.

(** ** Loading parameters (gsn.py 475-483, model.py 333-366) *)

Definition store_set {B : backend} (st : shared -> tensor B) (p : shared)
    (v : tensor B) : shared -> tensor B :=
  fun q => if decide (q = p) then v else st q.

(** [p.set_value(v)]: the variable's type filter decides whether the
    value is taken; a refused value raises [TypeError]. *)
Definition set_value (B : backend) (p : shared) (v : tensor B) : SE (world B) unit :=
  fun w =>
    if accepts B (store w p) v then
      Ok (tt, mkWorld (store_set (store w) p v) (theano_calls w) (numpy_draws w))
    else Raise TypeError.

(** [[p.set_value(lp.get_value(borrow=False)) for lp, p in zip(loaded, params)]] *)
Definition set_values (B : backend) (pairs : list (tensor B * shared))
    : SE (world B) unit :=
  for_each pairs (fun '(lp, p) _ => set_value B p lp) tt.

(** [GSN.load_params]; [file] is the pickled parameter list found at
    [filename], or [None] when there is no such file. *)
Definition load_params (B : backend) (weights_list bias_list : list shared)
    (file : option (list (tensor B))) : SE (world B) unit :=
  match file with
  | Some loaded_params =>
      set_values B (zip (take (length weights_list) loaded_params) weights_list);;
      set_values B (zip (drop (length weights_list) loaded_params) bias_list)
  | None => mret tt
  end.

(** [Model.set_param_values]; [get_params] is what [self.get_params()]
    returns, [None] for a model that does not implement it. *)
Definition set_param_values (B : backend) (get_params : option (list shared))
    (param_values : list (tensor B)) : SE (world B) bool :=
  match get_params with
  | None => raise NotImplementedError
  | Some params =>
      (* make sure the input list of values is the same length as the
         params for the model *)
      if bool_decide (length param_values <> length params) then mret false
      else
        (* for each parameter and value in order, set the value! *)
        for_each (zip params param_values)
          (fun '(param, value) _ => set_value B param value) tt;;
        mret true
  end.

(** A checkpoint disagrees with the layer configuration: another number of
    entries, or an entry of another shape than the parameter it is for. *)
Definition checkpoint_mismatch (B : backend) (st : shared -> tensor B)
    (weights_list bias_list : list shared) (loaded_params : list (tensor B)) : Prop :=
  length loaded_params <> length weights_list + length bias_list \/
  exists i p v,
    (weights_list ++ bias_list) !! i = Some p /\ loaded_params !! i = Some v /\
    shape B v <> shape B (st p).

(** The store after the assignments of a list of pairs, in order. *)
Definition assigned {B : backend} (st : shared -> tensor B)
    (pairs : list (tensor B * shared)) : shared -> tensor B :=
  foldl (fun st '(lp, p) => store_set st p lp) st pairs.

(** A backend of shapes, to run the checkpoint examples: an array is its
    shape; a shared variable takes any value with its number of
    dimensions. *)
Definition shape_backend : backend :=
  mkBackend (list nat) (fun _ => []) (fun a _ => a) (fun a => a) (fun a _ => a)
            (fun a _ => a) (fun a _ => a) (fun a => a)
            (fun _ a => a) (fun _ a _ => a) (fun a _ => a)
            (fun _ _ x _ => x) (fun _ _ x _ => x) (fun _ _ p => p)
            (fun _ _ _ _ _ => []) (fun _ => [])
            (fun _ x => x) (fun r c => [r; c]) (fun l => concat l)
            (fun l => concat l) (fun a => a)
            (fun old new => bool_decide (length old = length new)).

(** One hidden layer: a 2 x 3 weight matrix and two bias vectors. *)
Definition shape_world : world shape_backend :=
  @mkWorld shape_backend
    (fun p => match p with W_ _ => [2; 3] | b_ 0 => [2] | b_ _ => [3] | _ => [] end)
    0 0.

(** A backend of integers, to run the examples: every array is a number,
    every random draw leaves its argument as it is. *)
Definition Z_backend : backend :=
  mkBackend Z (fun c => c) Z.mul (fun a => a) Z.add Z.sub Z.mul (fun _ => 0%Z)
            (fun _ a => a) (fun _ a b => (a - b)%Z) (fun a _ => a)
            (fun _ _ x _ => x) (fun _ _ x _ => x) (fun _ _ p => p)
            (fun _ _ _ _ _ => 1%Z) (fun _ => 0%Z)
            (fun _ x => x) (fun _ _ => 0%Z) (fun l => foldr Z.add 0%Z l)
            (fun l => foldr Z.add 0%Z l) (fun _ => [1; 1]) (fun _ _ => true).

Definition Z_world : world Z_backend :=
  @mkWorld Z_backend (fun _ => 2%Z) 0 0.

(** What [GSN.__init__] leaves in the object it builds from default
    parameter lists. *)
Record built (a : gsn_args) (g : GSN) : Prop := mkBuilt {
  built_layers : layers g = arg_layers a;
  built_hidden_size : hidden_size g = arg_hidden_size a;
  built_weights : weights_list g = W_ <$> seq 0 (arg_layers a);
  built_biases : bias_list g = b_ <$> seq 0 (arg_layers a + 1);
  built_params : params g = weights_list g ++ bias_list g;
  built_chain :
    exists chain rX,
      p_X_chain g = Some chain /\ length chain = arg_walkbacks a /\
      last chain = Some rX /\
      gsn_costs g = (fun rX => arg_cost_function a rX X) <$> chain /\
      show_gsn_cost g = arg_cost_function a rX X;
  built_cost : gsn_cost g = numpy_sum (gsn_costs g);
  built_gradient_buffer : gradient_buffer g = init_gradient_buffer (params g);
  built_updates : updates g = init_updates (gsn_cost g) (params g);
  built_f_learn : f_learn g = mkFunction [X] (One (show_gsn_cost g)) (updates g);
  built_f_noise : exists noisy, f_noise g = mkFunction [X] (One noisy) [];
  built_state : length (network_state_input g) = S (arg_layers a) /\
                length (network_state_output g) = S (arg_layers a);
  built_f_sample :
    exists pX,
      visible_pX_chain g = Some [pX] /\
      f_sample g =
        if bool_decide (arg_layers a = 1) then mkFunction [X_sample] (One pX) []
        else mkFunction (network_state_input g)
               (Many (network_state_output g ++ [pX])) []
}.
(** * Further definitions *)

(** A result that is either a value or [IndexError]. *)
Definition index_error_only {A} (r : result A) : Prop :=
  forall e, r = Raise e -> e = IndexError.

(** ** The walkback loop

    The loop that every chain builder runs on an empty chain (gsn.py
    786-788, 809-812, 850-853, 878-881): a log record, then one sweep,
    [walkbacks] times. *)
Definition walkback_loop
    (sweep : list expr -> list expr -> list expr -> option (list expr) ->
             config -> M (list expr * option (list expr)))
    (record : nat -> msg) (weights_list bias_list : list expr) (c : config)
    (hiddens : list expr) (walkbacks : nat)
    : M (list expr * option (list expr)) :=
  for_each (py_range 0 walkbacks 1)
    (fun i '(hiddens, p_X_chain) =>
       maybeLog (record i);; sweep hiddens weights_list bias_list p_X_chain c)
    (hiddens, Some []).

(** ** What a sweep leaves behind *)

(** The streams of [MRG] taken by the updates of the layers [l]. *)
Definition streams_of (c : config) (l : list nat) : nat :=
  sum_list_with (layer_streams c) l.

(** A pass over the layers [l], one after the other, begun at stream [n]:
    the stack keeps its length, the layers outside [l] keep their state,
    and the layer that comes right after [done] in [l] holds the value
    built from its pre-activation on the stack as it was before the pass,
    drawing from the streams that follow those of the layers of [done]. *)
Definition pass_of (c : config) (W b : list expr) (l : list nat) (n : nat)
    (before after : list expr) : Prop :=
  length after = length before /\
  (forall j, j ∉ l -> after !! j = before !! j) /\
  forall done x rest, l = done ++ x :: rest ->
    exists pre, topological_rule before W b x = Some pre /\
      after !! x = Some (layer_value c x (n + streams_of c done) pre).

(** The streams taken by one sweep over a stack of [k] layers. *)
Definition sweep_streams (c : config) (k : nat) : nat :=
  streams_of c (odd_indices k) + streams_of c (even_indices k).

(** A forward sweep begun at stream [n]: the odd pass, then the even pass
    on its result; [entry] is the visible prediction, computed on the
    stack between the two passes. *)
Definition forward_sweep_of (c : config) (W b : list expr) (n : nat)
    (before after : list expr) (entry : expr) : Prop :=
  exists mid pre0,
    pass_of c W b (odd_indices (length before)) n before mid /\
    pass_of c W b (even_indices (length before))
      (n + streams_of c (odd_indices (length before))) mid after /\
    topological_rule mid W b 0 = Some pre0 /\
    entry = visible_activation c pre0.

(** A reversed sweep begun at stream [n]: the even pass, then the odd pass
    on its result; [entry] is the visible prediction, computed on the
    stack as it was before the sweep. *)
Definition reverse_sweep_of (c : config) (W b : list expr) (n : nat)
    (before after : list expr) (entry : expr) : Prop :=
  exists mid pre0,
    pass_of c W b (even_indices (length before)) n before mid /\
    pass_of c W b (odd_indices (length before))
      (n + streams_of c (even_indices (length before))) mid after /\
    topological_rule before W b 0 = Some pre0 /\
    entry = visible_activation c pre0.

(** ** Graphs without random nodes *)

(** A graph that draws from no random stream: no Gaussian, salt-and-pepper
    or binomial node anywhere in it. *)
Fixpoint random_free (e : expr) : bool :=
  match e with
  | Input _ | Shared _ | Const _ => true
  | Transpose a | ZerosLike a | Apply _ a | Subtensor a _ => random_free a
  | Dot a b | Add a b | Sub a b | Mul a b | Apply2 _ a b | Grad a b =>
      random_free a && random_free b
  | GaussianNoise _ _ _ | SaltAndPepper _ _ _ | Binomial _ _ => false
  end.

(** ** Assignments made one after the other *)

(** The outcome [r] of offering the values of [pairs] to their variables,
    in order, from the state [w]: either every type filter takes the value
    offered to it, with the variable as the earlier assignments have left
    it, and [r] is the value [ret] with the store after all the
    assignments; or [r] is the [TypeError] of the first value that a filter
    refuses. *)
Definition assignment_outcome {A} (B : backend) (pairs : list (tensor B * shared))
    (w : world B) (ret : A) (r : result (A * world B)) : Prop :=
  (r = Ok (ret, mkWorld (assigned (store w) pairs) (theano_calls w) (numpy_draws w)) /\
   forall i v p, pairs !! i = Some (v, p) ->
     accepts B (assigned (store w) (take i pairs) p) v = true) \/
  (r = Raise TypeError /\
   exists i v p, pairs !! i = Some (v, p) /\
     accepts B (assigned (store w) (take i pairs) p) v = false /\
     forall j v' p', j < i -> pairs !! j = Some (v', p') ->
       accepts B (assigned (store w) (take j pairs) p') v' = true).

(** ** Saving parameters (gsn.py 466-473, model.py 306-330) *)

(** The files a run can see: the pickled list of parameter values found
    at a path, if there is a file. *)
Definition disk (B : backend) : Type := string -> option (list (tensor B)).

(** [self.outdir+'gsn_params_epoch_'+str(n)+'.pkl'] *)
Definition save_path (outdir : string) (n : nat) : string :=
  outdir +:+ "gsn_params_epoch_" +:+ pretty n +:+ ".pkl".

(** [GSN.save_params(n, params)]: the shared variables of [params] are
    pickled with the values they hold, at the path of epoch [n]. *)
Definition save_params (B : backend) (outdir : string) (n : nat)
    (params : list shared) (fs : disk B) (w : world B) : disk B :=
  fun path =>
    if decide (path = save_path outdir n) then Some (store w <$> params)
    else fs path.

(** [GSN.load_params(filename)] on a disk: [os.path.isfile] and
    [cPickle.load]. *)
Definition load_params_from (B : backend) (weights_list bias_list : list shared)
    (fs : disk B) (filename : string) : SE (world B) unit :=
  load_params B weights_list bias_list (fs filename).

(** What [get_value] hands out (model.py 306-330): with [borrow=False] a
    copy of the value the variable holds; with [borrow=True] possibly the
    variable's own buffer, whose contents follow the variable from then on,
    so that no value can be told for it. *)
Inductive array (B : backend) : Type :=
| Copy (v : tensor B)
| Buffer (p : shared).
Arguments Copy {B} _.
Arguments Buffer {B} _.

Definition get_value (B : backend) (p : shared) (borrow : bool) : SE (world B) (array B) :=
  fun w => Ok (if borrow then Buffer p else Copy (store w p), w).

(** [Model.get_param_values]:
    [[param.get_value(borrow=borrow) for param in self.get_params()]];
    the exception of a missing [get_params] is logged and raised again. *)
Definition get_param_values (B : backend) (get_params : option (list shared))
    (borrow : bool) : SE (world B) (list (array B)) :=
  match get_params with
  | None => raise NotImplementedError
  | Some params =>
      for_each params
        (fun param values => value ← get_value B param borrow; mret (values ++ [value]))
        []
  end.

(** ** The arguments of a model (model.py 30-88, optimizer.py 36-55,
    config.py 28-69)

    [Model.__init__] and [Optimizer.__init__] build [self.args] from the
    [config] and the [defaults] they are given.  Dictionaries are objects:
    [defaults_dict.update(config_dict)] changes the dictionary the caller
    passed, and [self.args] is one of the two objects, not a copy.  The
    dictionaries alive are kept by address. *)

Section Config.
Context {V : Type}.

(** What a constructor may be given as [config] or [defaults]: [None], a
    [collections.Mapping] object, or a file name. *)
Inductive pyconfig : Type :=
| PyNone
| PyMapping (address : nat)
| PyPath (path : string).

(** The dictionaries alive, by address; a dictionary with string keys is
    a [gmap string V]. *)
Record heap : Type := mkHeap {
  objs : nat -> gmap.gmap string V;
  next : nat                     (* the address of the next new object *)
}.

(** [read_file path] stands for the branch of [create_dictionary_like]
    that goes to the file system: the dictionary parsed from the file, or
    [None] when there is no such file or its extension is not taken; the
    parsers may raise. *)
Variable read_file : string -> result (option (gmap.gmap string V)).

Definition create_dictionary_like (input : pyconfig) : SE heap (option nat) :=
  match input with
  | PyNone => mret None
  (* check if it is a dictionary-like object *)
  | PyMapping r => mret (Some r)
  (* otherwise, check if it is a filename to a .json or .yaml *)
  | PyPath p =>
      fun h =>
        match read_file p with
        | Ok (Some d) =>
            Ok (Some (next h),
                mkHeap (fun r => if decide (r = next h) then d else objs h r)
                       (S (next h)))
        | Ok None => Ok (None, h)
        | Raise e => Raise e
        end
  end.

(** The truth value of [None] or of a dictionary: [len(d) != 0]. *)
Definition truthy (d : option nat) : SE heap bool :=
  fun h =>
    Ok (match d with
        | None => false
        | Some r => negb (bool_decide (base.size (objs h r) = 0))
        end, h).

(** The heap after [d.update(c)]: the entries of [c] are written into the
    object [d], over the entries [d] has for the same keys. *)
Definition updated (h : heap) (d c : nat) : heap :=
  mkHeap (fun r => if decide (r = d) then objs h c ∪ objs h d else objs h r) (next h).

(** [d.update(c)] *)
Definition dict_update (d c : option nat) : SE heap unit :=
  match d, c with
  | Some d, Some c => fun h => Ok (tt, updated h d c)
  | None, _ => raise AttributeError
  | Some _, None => raise TypeError
  end.

(** [Model.__init__]; the value is [self.args]. *)
Definition Model_init (config defaults : pyconfig) : SE heap (option nat) :=
  (* make sure the config is like a dictionary *)
  config_dict ← create_dictionary_like config;
  (* make sure the defaults is like a dictionary *)
  defaults_dict ← create_dictionary_like defaults;
  (* override any default values with the config *)
  truthy config_dict ≫= fun c : bool =>
  (if c then truthy defaults_dict else mret false) ≫= fun d : bool =>
  (if d then dict_update defaults_dict config_dict
   else mret tt);;               (* elif: a warning, nothing else *)
  (* set self.args to either the combined defaults and config, or just
     config if that is only one provided *)
  truthy defaults_dict ≫= fun d : bool =>
  if d then mret defaults_dict else mret config_dict.

(** [Optimizer.__init__], which repeats the lines of [Model.__init__]; the
    value is [self.args]. *)
Definition Optimizer_init (config defaults : pyconfig) : SE heap (option nat) :=
  config_dict ← create_dictionary_like config;
  defaults_dict ← create_dictionary_like defaults;
  truthy config_dict ≫= fun c : bool =>
  (if c then truthy defaults_dict else mret false) ≫= fun d : bool =>
  (if d then dict_update defaults_dict config_dict
   else mret tt);;
  truthy defaults_dict ≫= fun d : bool =>
  if d then mret defaults_dict else mret config_dict.

(** [super(self.__class__, self).__init__(config, defaults)] (gsn.py 92):
    every GSN is given the one dictionary [defaults] of the module, which
    lives at [gsn_defaults]. *)
Definition GSN_args (gsn_defaults : nat) (config : pyconfig) : SE heap (option nat) :=
  Model_init config (PyMapping gsn_defaults).

(** [self.args.get(key)] *)
Definition args_get (args : option nat) (key : string) : SE heap (option V) :=
  match args with
  | Some r => fun h => Ok (objs h r !! key, h)
  | None => raise AttributeError
  end.

End Config.

(** ** Lists of inputs (utils/misc.py 44-86) *)

Section Misc.
Context {A : Type}.

(** An argument that is [None], a Python list, or any other object. *)
Inductive pyinput : Type :=
| NoInput
| ListInput (l : list A)
| ObjectInput (x : A).

(** [raise_to_list]: the object as a list, or none. *)
Definition raise_to_list (_input : pyinput) : pyinput :=
  match _input with
  | NoInput => NoInput
  | ListInput l => ListInput l
  | ObjectInput x => ListInput [x]
  end.

(** [theano.shared], which raises [TypeError] for what it cannot wrap,
    and [T.stack]. *)
Variable theano_shared : A -> result A.
Variable stack : list A -> result A.

(** [try: theano.shared(_in) except TypeError: _in] *)
Definition shared_or_self (_in : A) : result A :=
  match theano_shared _in with
  | Raise TypeError => Ok _in
  | r => r
  end.

(** [for _in in _input: ... shared_ins.append(...)] *)
Fixpoint shared_ins (_input : list A) : result (list A) :=
  match _input with
  | [] => Ok []
  | _in :: _input =>
      match shared_or_self _in with
      | Ok v =>
          match shared_ins _input with
          | Ok vs => Ok (v :: vs)
          | Raise e => Raise e
          end
      | Raise e => Raise e
      end
  end.

(** [stack_and_shared]: the inputs as shared variables, stacked in a
    single tensor, or none. *)
Definition stack_and_shared (_input : pyinput) : result (option A) :=
  match _input with
  | NoInput => Ok None
  | ListInput l =>
      match shared_ins l with
      | Ok vs => match stack vs with Ok t => Ok (Some t) | Raise e => Raise e end
      | Raise e => Raise e
      end
  | ObjectInput x =>
      match shared_or_self x with
      | Ok v => match stack [v] with Ok t => Ok (Some t) | Raise e => Raise e end
      | Raise e => Raise e
      end
  end.

End Misc.

(** Two dictionaries for the examples: the defaults of a module at address
    0, a configuration at address 1. *)
Definition example_heap : @heap nat :=
  mkHeap (fun r =>
            if decide (r = 0) then <["layers" := 3]> (<["walkbacks" := 5]> ∅)
            else if decide (r = 1) then <["layers" := 2]> ∅
            else ∅)
         2.

(** ** Reasoning about the monad *)

Lemma bind_Ok {S A B} (m : SE S A) (f : A -> SE S B) s a s' :
  m s = Ok (a, s') -> (m ≫= f) s = f a s'.
Proof. unfold mbind, SE_bind. intros ->. reflexivity. Qed.

Lemma getitem_Some {S A} (l : list A) i x (s : S) :
  l !! i = Some x -> getitem l i s = Ok (x, s).
Proof. unfold getitem. intros ->. reflexivity. Qed.

Lemma getitem_insert {S A} (l : list A) i x (s : S) :
  i < length l -> getitem (<[i := x]> l) i s = Ok (x, s).
Proof. intros H. apply getitem_Some, list_lookup_insert_eq, H. Qed.

Lemma setitem_lt {S A} (l : list A) i x (s : S) :
  i < length l -> setitem l i x s = Ok (<[i := x]> l, s).
Proof. unfold setitem. intros H. rewrite decide_True by exact H. reflexivity. Qed.

Lemma setitem_insert {S A} (l : list A) i x y (s : S) :
  i < length l -> setitem (<[i := x]> l) i y s = Ok (<[i := y]> l, s).
Proof.
  intros H. rewrite setitem_lt by (rewrite length_insert; exact H).
  rewrite list_insert_insert_eq. reflexivity.
Qed.

Lemma bind_assoc {S A B C} (m : SE S A) (f : A -> SE S B) (g : B -> SE S C) s :
  ((m ≫= f) ≫= g) s = (m ≫= (fun x => f x ≫= g)) s.
Proof. unfold mbind, SE_bind. destruct (m s) as [[a s']|e]; reflexivity. Qed.

Lemma bind_ret {S A B} (a : A) (f : A -> SE S B) (s : S) : (mret a ≫= f) s = f a s.
Proof. reflexivity. Qed.

Ltac mstep :=
  first
    [ rewrite bind_assoc
    | rewrite bind_ret
    | erewrite bind_Ok by
        first [ apply getitem_insert; assumption
              | apply setitem_insert; assumption
              | apply setitem_lt; assumption
              | apply getitem_Some; eassumption
              | reflexivity ]
    | progress cbn [andb negb MRG logger] ].

Ltac mrun := repeat mstep; unfold mret, SE_ret.

Lemma returns_ret {S A} (a : A) (s : S) (Q : A -> S -> Prop) :
  Q a s -> returns (mret a) s Q.
Proof. intros H. exists a, s. split; [reflexivity | exact H]. Qed.

Lemma returns_bind {S A B} (m : SE S A) (f : A -> SE S B) s (Q : B -> S -> Prop) :
  returns m s (fun a s' => returns (f a) s' Q) -> returns (m ≫= f) s Q.
Proof.
  intros (a & s' & Hm & b & s'' & Hf & HQ).
  exists b, s''. split; [| exact HQ].
  rewrite (bind_Ok _ _ _ _ _ Hm). exact Hf.
Qed.

Lemma returns_mono {S A} (m : SE S A) s (Q Q' : A -> S -> Prop) :
  returns m s Q -> (forall a s', Q a s' -> Q' a s') -> returns m s Q'.
Proof. intros (a & s' & Hm & HQ) H. exists a, s'. auto. Qed.

Lemma returns_maybeLog m s (Q : unit -> builder -> Prop) :
  Q tt (mkBuilder (MRG s) (logger s ++ [m])) -> returns (maybeLog m) s Q.
Proof. intros H. eexists _, _. split; [reflexivity | exact H]. Qed.

(** The loop rule: the invariant is indexed by the items already done. *)
Lemma returns_for_each {St A S} (I : list A -> S -> St -> Prop)
    (body : A -> S -> SE St S) (l : list A) :
  (forall done x rest st s, l = done ++ x :: rest -> I done st s ->
     returns (body x st) s (I (done ++ [x]))) ->
  forall st s, I [] st s -> returns (for_each l body st) s (I l).
Proof.
  intros Hbody.
  enough (Hgen : forall todo done st s, l = done ++ todo -> I done st s ->
            returns (for_each todo body st) s (I l)).
  { intros st s H0. apply (Hgen l [] st s); [reflexivity | exact H0]. }
  induction todo as [|x todo IH]; intros done st s Hl HI.
  - rewrite app_nil_r in Hl. subst done. apply returns_ret, HI.
  - cbn [for_each]. apply returns_bind.
    eapply returns_mono; [exact (Hbody done x todo st s Hl HI) |].
    intros st' s' HI'. apply (IH (done ++ [x])); [| exact HI'].
    rewrite <- app_assoc. exact Hl.
Qed.

(** ** Ranges *)

Lemma py_range_step1 n : py_range 0 n 1 = seq 0 n.
Proof.
  unfold py_range. rewrite Nat.sub_0_r, Nat.add_0_r, Nat.div_1_r.
  induction (seq 0 n) as [|x l IH]; [reflexivity |].
  cbn [fmap list_fmap]. rewrite Nat.mul_1_l. cbn [Nat.add]. f_equal. exact IH.
Qed.

Lemma py_range_bounds a n x : x ∈ py_range a n 2 -> a <= x < n.
Proof.
  unfold py_range. intros (k & -> & Hk)%list_elem_of_fmap.
  apply elem_of_seq in Hk. cbn [Nat.sub] in Hk.
  assert (2 * ((n - a + 1) / 2) <= n - a + 1) by (apply Nat.Div0.mul_div_le).
  lia.
Qed.

Lemma py_range_from n a : py_range a (a + n) 2 = (fun k => a + 2 * k) <$> seq 0 ((n + 1) / 2).
Proof. unfold py_range. replace (a + n - a + (2 - 1)) with (n + 1) by lia. reflexivity. Qed.

Lemma half_succ_even n : Nat.even n = true -> (S n + 1) / 2 = S ((n + 1) / 2).
Proof.
  intros [k ->]%Nat.even_spec.
  replace (S (2 * k) + 1) with ((1 + k) * 2) by lia.
  replace (2 * k + 1) with (1 + k * 2) by lia.
  rewrite Nat.div_mul, Nat.div_add by lia. reflexivity.
Qed.

Lemma half_succ_odd n : Nat.odd n = true -> (S n + 1) / 2 = (n + 1) / 2.
Proof.
  intros [k ->]%Nat.odd_spec.
  replace (S (2 * k + 1) + 1) with (1 + (1 + k) * 2) by lia.
  replace (2 * k + 1 + 1) with ((1 + k) * 2) by lia.
  rewrite Nat.div_mul, Nat.div_add by lia. reflexivity.
Qed.

Lemma half_double k : (2 * k + 1) / 2 = k.
Proof. replace (2 * k + 1) with (1 + k * 2) by lia. rewrite Nat.div_add by lia. reflexivity. Qed.

Lemma py_range_even n : py_range 0 n 2 = even_indices n.
Proof.
  unfold even_indices. change n with (0 + n) at 1. rewrite py_range_from.
  induction n as [|n IH]; [reflexivity |].
  rewrite seq_S, filter_app, <- IH. cbn [Nat.add].
  rewrite filter_cons, filter_nil.
  destruct (Nat.even n) eqn:E.
  - rewrite decide_True by reflexivity.
    change (S (n + 1)) with (S n + 1).
    rewrite half_succ_even, seq_S, fmap_app by exact E.
    f_equal. cbn [fmap list_fmap Nat.add]. f_equal.
    apply Nat.even_spec in E as [k ->]. rewrite half_double. reflexivity.
  - rewrite decide_False by discriminate.
    change (S (n + 1)) with (S n + 1).
    rewrite half_succ_odd, app_nil_r; [reflexivity |].
    rewrite <- Nat.negb_even, E. reflexivity.
Qed.

Lemma py_range_odd n : py_range 1 n 2 = odd_indices n.
Proof.
  unfold odd_indices. destruct n as [|n]; [reflexivity |].
  change (S n) with (1 + n) at 1. rewrite py_range_from.
  induction n as [|n IH]; [reflexivity |].
  rewrite (seq_S (S n)), filter_app, <- IH. cbn [Nat.add].
  rewrite filter_cons, filter_nil.
  destruct (Nat.odd (S n)) eqn:E.
  - rewrite decide_True by reflexivity.
    rewrite Nat.odd_succ in E.
    change (S (n + 1)) with (S n + 1).
    rewrite half_succ_even, seq_S, fmap_app by exact E.
    f_equal. cbn [fmap list_fmap Nat.add]. f_equal.
    apply Nat.even_spec in E as [k ->]. rewrite half_double. lia.
  - rewrite decide_False by discriminate.
    rewrite Nat.odd_succ in E.
    change (S (n + 1)) with (S n + 1).
    rewrite half_succ_odd, app_nil_r; [reflexivity |].
    rewrite <- Nat.negb_even, E. reflexivity.
Qed.

Lemma lookup_lt_ex {A} (l : list A) i : i < length l -> exists x, l !! i = Some x.
Proof. intros H. destruct (lookup_lt_is_Some_2 l i H) as [x Hx]. eauto. Qed.

Ltac finish_update :=
  eexists; split; [reflexivity |];
  rewrite ?Nat.add_0_r; repeat rewrite <- app_assoc;
  split; [f_equal; f_equal; try lia; f_equal; lia | reflexivity].

Lemma simple_update_layer_Ok hiddens W b chain i c s :
  well_formed hiddens W b -> i < length hiddens -> (i = 0 -> is_Some chain) ->
  exists pre l,
    topological_rule hiddens W b i = Some pre /\
    simple_update_layer hiddens W b chain i c s =
      Ok ((<[i := layer_value c i (MRG s) pre]> hiddens, new_chain c i pre chain),
          mkBuilder (MRG s + layer_streams c i) (logger s ++ l)) /\
    updated_layers l = [].
Proof.
  intros (Hn & HW & Hb) Hi Hchain.
  unfold simple_update_layer, topological_rule, layer_value, layer_streams, new_chain.
  destruct (decide (i = 0)) as [-> | Hi0].
  - destruct Hchain as [ch ->]; [reflexivity |].
    destruct (lookup_lt_ex hiddens 1) as [h1 Hh1]; [lia |].
    destruct (lookup_lt_ex W 0) as [w Hw]; [lia |].
    destruct (lookup_lt_ex b 0) as [b0 Hb0]; [lia |].
    rewrite !(bool_decide_eq_true_2 (0 = 0)) by reflexivity.
    rewrite (bool_decide_eq_false_2 (0 = 1)) by discriminate.
    rewrite Hh1, Hw, Hb0. cbn [mbind option_bind fmap option_fmap option_map].
    exists (Add (Dot h1 (Transpose w)) b0).
    unfold visible_value, append, salt_and_pepper, MRG_binomial, fresh_stream.
    destruct (input_sampling c); mrun; finish_update.
  - rewrite !(bool_decide_eq_false_2 (i = 0)) by exact Hi0.
    destruct (lookup_lt_ex hiddens (i - 1)) as [hp Hhp]; [lia |].
    destruct (lookup_lt_ex W (i - 1)) as [wp Hwp]; [lia |].
    destruct (lookup_lt_ex b i) as [bi Hbi]; [lia |].
    unfold hidden_value, noise_on, add_gaussian_noise, fresh_stream.
    destruct (decide (i = length hiddens - 1)) as [Htop | Htop].
    + rewrite !(bool_decide_eq_true_2 (i = length hiddens - 1)) by exact Htop.
      rewrite Hhp, Hwp, Hbi. cbn [mbind option_bind].
      exists (Add (Dot hp wp) bi).
      destruct (bool_decide (i = 1) && noiseless_h1 c), (add_noise c);
        mrun; finish_update.
    + rewrite !(bool_decide_eq_false_2 (i = length hiddens - 1)) by exact Htop.
      destruct (lookup_lt_ex hiddens (i + 1)) as [hn Hhn]; [lia |].
      destruct (lookup_lt_ex W i) as [w Hw]; [lia |].
      rewrite Hhn, Hhp, Hw, Hwp, Hbi. cbn [mbind option_bind].
      exists (Add (Add (Dot hn (Transpose w)) (Dot hp wp)) bi).
      destruct (bool_decide (i = 1) && noiseless_h1 c), (add_noise c);
        mrun; finish_update.
Qed.

Lemma updated_layers_app l1 l2 :
  updated_layers (l1 ++ l2) = updated_layers l1 ++ updated_layers l2.
Proof.
  induction l1 as [|m l1 IH]; [reflexivity |].
  destruct m; cbn [app updated_layers]; rewrite IH; reflexivity.
Qed.

Lemma py_range_cons a n : a < n -> py_range a n 2 = a :: py_range (a + 2) n 2.
Proof.
  intros H. unfold py_range.
  replace ((n - a + (2 - 1)) / 2) with (S ((n - (a + 2) + (2 - 1)) / 2)).
  - cbn [seq fmap list_fmap]. f_equal; [lia |].
    rewrite <- fmap_S_seq, <- list_fmap_compose.
    apply list_fmap_ext. intros _ k _. cbn. lia.
  - destruct (decide (n - a = 1)) as [E | E].
    + replace (n - (a + 2)) with 0 by lia. rewrite E. reflexivity.
    + replace (n - a + (2 - 1)) with (n - (a + 2) + (2 - 1) + 1 * 2) by lia.
      rewrite Nat.div_add by lia. lia.
Qed.

(** ** The sweeps return, keep the stack length and extend the chain *)

Section Sweeps.
Variables (W b : list expr) (c : config).

Lemma well_formed_length h h' :
  length h' = length h -> well_formed h W b -> well_formed h' W b.
Proof. unfold well_formed. intros ->. tauto. Qed.

Lemma update_odd_layers_Ok hiddens s :
  well_formed hiddens W b ->
  returns (update_odd_layers hiddens W b c) s (fun h' s' =>
    length h' = length hiddens /\
    updated_layers (logger s') =
      updated_layers (logger s) ++ odd_indices (length hiddens)).
Proof.
  intros Hwf. unfold update_odd_layers. rewrite <- py_range_odd.
  apply (returns_for_each (fun done h' s' =>
    length h' = length hiddens /\
    updated_layers (logger s') = updated_layers (logger s) ++ done));
    [| rewrite app_nil_r; auto].
  intros done x rest st s0 Hl [Hlen Hlog].
  assert (Hx : 1 <= x < length hiddens).
  { apply py_range_bounds. rewrite Hl. apply elem_of_app. right. left. }
  set (s1 := mkBuilder (MRG s0) (logger s0 ++ [updating_layer x])).
  destruct (simple_update_layer_Ok st W b None x c s1) as (pre & l & _ & Heq & Hl0).
  { eapply well_formed_length; eauto. }
  { lia. }
  { lia. }
  eexists _, _. split.
  - erewrite bind_Ok by reflexivity. fold s1.
    erewrite bind_Ok by exact Heq. reflexivity.
  - cbn [logger]. split; [rewrite length_insert; exact Hlen |].
    subst s1. cbn [logger].
    rewrite !updated_layers_app, Hlog, Hl0, app_nil_r, <- app_assoc. reflexivity.
Qed.

Lemma update_even_layers_Ok hiddens chain s :
  well_formed hiddens W b ->
  exists pre,
    topological_rule hiddens W b 0 = Some pre /\
    returns (update_even_layers hiddens W b (Some chain) c) s (fun r s' =>
      length r.1 = length hiddens /\
      r.2 = Some (chain ++ [visible_activation c pre]) /\
      updated_layers (logger s') =
        updated_layers (logger s) ++ even_indices (length hiddens)).
Proof.
  intros Hwf. unfold update_even_layers. rewrite <- py_range_even.
  rewrite py_range_cons by (destruct Hwf; lia). cbn [for_each Nat.add].
  set (s1 := mkBuilder (MRG s) (logger s ++ [updating_layer 0])).
  destruct (simple_update_layer_Ok hiddens W b (Some chain) 0 c s1)
    as (pre & l & Hpre & Heq & Hl0); [exact Hwf | destruct Hwf; lia | eauto |].
  exists pre. split; [exact Hpre |].
  apply returns_bind. eexists _, _. split.
  { erewrite bind_Ok by reflexivity. fold s1. exact Heq. }
  unfold new_chain. rewrite bool_decide_eq_true_2 by reflexivity.
  cbn [fmap option_fmap option_map].
  eapply returns_mono.
  - apply (returns_for_each (fun done r s' =>
      length r.1 = length hiddens /\
      r.2 = Some (chain ++ [visible_activation c pre]) /\
      updated_layers (logger s') = updated_layers (logger s) ++ 0 :: done)).
    + intros done x rest [h ch] s0 Hl (Hlen & Hch & Hlog). cbn [fst snd] in *.
      assert (Hx : 2 <= x < length hiddens).
      { apply py_range_bounds. rewrite Hl. apply elem_of_app. right. left. }
      set (s2 := mkBuilder (MRG s0) (logger s0 ++ [updating_layer x])).
      destruct (simple_update_layer_Ok h W b ch x c s2) as (pre' & l' & _ & Heq' & Hl').
      { eapply well_formed_length; eauto. }
      { lia. }
      { lia. }
      eexists _, _. split.
      * erewrite bind_Ok by reflexivity. fold s2. exact Heq'.
      * cbn [fst snd logger]. split; [rewrite length_insert; exact Hlen |].
        unfold new_chain. rewrite bool_decide_eq_false_2 by lia.
        split; [exact Hch |]. subst s2. cbn [logger].
        rewrite !updated_layers_app, Hlog, Hl', app_nil_r, <- app_assoc.
        reflexivity.
    + cbn [fst snd logger]. split; [apply length_insert |].
      split; [reflexivity |]. subst s1. cbn [logger].
      rewrite !updated_layers_app, Hl0, app_nil_r. reflexivity.
  - intros r s' H. exact H.
Qed.

Lemma update_layers_Ok hiddens chain s :
  well_formed hiddens W b ->
  returns (update_layers hiddens W b (Some chain) c) s (fun r s' =>
    length r.1 = length hiddens /\
    (exists e, r.2 = Some (chain ++ [e])) /\
    updated_layers (logger s') =
      updated_layers (logger s) ++
      odd_indices (length hiddens) ++ even_indices (length hiddens)).
Proof.
  intros Hwf. unfold update_layers.
  apply returns_bind, returns_maybeLog, returns_bind.
  eapply returns_mono; [apply update_odd_layers_Ok, Hwf |].
  intros h1 s1 [Hlen1 Hlog1].
  apply returns_bind, returns_maybeLog, returns_bind.
  destruct (update_even_layers_Ok h1 chain
              (mkBuilder (MRG s1) (logger s1 ++ [even_layer_updates])))
    as (pre & _ & Hev); [eapply well_formed_length; eauto |].
  eapply returns_mono; [exact Hev |].
  intros [h2 ch2] s2 (Hlen2 & Hch2 & Hlog2). cbn [fst snd logger] in *.
  apply returns_bind, returns_maybeLog, returns_ret. cbn [fst snd logger].
  split; [congruence |]. split; [eauto |].
  rewrite !updated_layers_app in *. cbn [updated_layers] in *.
  rewrite app_nil_r in *. rewrite Hlog2, Hlog1, Hlen1, <- app_assoc. reflexivity.
Qed.

Lemma update_layers_reverse_Ok hiddens chain s :
  well_formed hiddens W b ->
  returns (update_layers_reverse hiddens W b (Some chain) c) s (fun r s' =>
    length r.1 = length hiddens /\
    (exists e, r.2 = Some (chain ++ [e])) /\
    updated_layers (logger s') =
      updated_layers (logger s) ++
      even_indices (length hiddens) ++ odd_indices (length hiddens)).
Proof.
  intros Hwf. unfold update_layers_reverse.
  apply returns_bind, returns_maybeLog, returns_bind.
  destruct (update_even_layers_Ok hiddens chain
              (mkBuilder (MRG s) (logger s ++ [even_layer_updates])))
    as (pre & _ & Hev); [exact Hwf |].
  eapply returns_mono; [exact Hev |].
  intros [h1 ch1] s1 (Hlen1 & Hch1 & Hlog1). cbn [fst snd logger] in *.
  apply returns_bind, returns_maybeLog, returns_bind.
  eapply returns_mono;
    [apply update_odd_layers_Ok; eapply well_formed_length; eauto |].
  intros h2 s2 [Hlen2 Hlog2]. cbn [logger] in *.
  apply returns_bind, returns_maybeLog, returns_ret. cbn [fst snd logger].
  split; [congruence |]. split; [eauto |].
  rewrite !updated_layers_app in *. cbn [updated_layers] in *.
  rewrite app_nil_r in *. rewrite Hlog2, Hlog1, Hlen1, <- app_assoc. reflexivity.
Qed.

(** A chain builder's loop: [walkbacks] sweeps, one entry each. *)
Lemma walkbacks_Ok
    (sweep : list expr -> list expr -> list expr -> option (list expr) ->
             config -> M (list expr * option (list expr)))
    (record : nat -> msg) hiddens walkbacks s :
  (forall h ch s0, well_formed h W b ->
     returns (sweep h W b (Some ch) c) s0 (fun r _ =>
       length r.1 = length h /\ exists e, r.2 = Some (ch ++ [e]))) ->
  well_formed hiddens W b ->
  returns
    (for_each (py_range 0 walkbacks 1)
       (fun i '(hiddens, p_X_chain) =>
          maybeLog (record i);; sweep hiddens W b p_X_chain c)
       (hiddens, Some []))
    s (fun r _ =>
         length r.1 = length hiddens /\
         exists chain, r.2 = Some chain /\ length chain = walkbacks).
Proof.
  intros Hsweep Hwf.
  eapply returns_mono.
  - apply (returns_for_each (fun (done : list nat) r (_ : builder) =>
      length r.1 = length hiddens /\
      exists chain, r.2 = Some chain /\ length chain = length done)).
    + intros done x rest [h ch] s0 _ HI. cbn [fst snd] in HI.
      destruct HI as (Hlen & chain & -> & Hchain).
      apply returns_bind, returns_maybeLog.
      eapply returns_mono;
        [apply Hsweep; eapply well_formed_length; eauto |].
      intros [h' ch'] s' (Hlen' & e & ->). cbn [fst snd] in *.
      split; [congruence |]. exists (chain ++ [e]). split; [reflexivity |].
      rewrite !length_app, Hchain. reflexivity.
    + cbn [fst snd]. split; [reflexivity |]. exists []. auto.
  - intros r s' (Hlen & chain & Hr & Hchain). split; [exact Hlen |].
    exists chain. split; [exact Hr |].
    rewrite Hchain, py_range_step1, length_seq. reflexivity.
Qed.
(** The same loop with the order of the layer updates it logs. *)
Lemma walkbacks_log
    (sweep : list expr -> list expr -> list expr -> option (list expr) ->
             config -> M (list expr * option (list expr)))
    (record : nat -> msg) (order : nat -> list nat) hiddens walkbacks s :
  (forall h ch s0, well_formed h W b ->
     returns (sweep h W b (Some ch) c) s0 (fun r s' =>
       length r.1 = length h /\ (exists e, r.2 = Some (ch ++ [e])) /\
       updated_layers (logger s') = updated_layers (logger s0) ++ order (length h))) ->
  (forall i, updated_layers [record i] = []) ->
  well_formed hiddens W b ->
  returns
    (for_each (py_range 0 walkbacks 1)
       (fun i '(hiddens, p_X_chain) =>
          maybeLog (record i);; sweep hiddens W b p_X_chain c)
       (hiddens, Some []))
    s (fun r s' =>
         length r.1 = length hiddens /\
         (exists chain, r.2 = Some chain /\ length chain = walkbacks) /\
         updated_layers (logger s') =
           updated_layers (logger s) ++
           concat (replicate walkbacks (order (length hiddens)))).
Proof.
  intros Hsweep Hrecord Hwf.
  eapply returns_mono.
  - apply (returns_for_each (fun (done : list nat) r s' =>
      length r.1 = length hiddens /\
      (exists chain, r.2 = Some chain /\ length chain = length done) /\
      updated_layers (logger s') =
        updated_layers (logger s) ++
        concat (replicate (length done) (order (length hiddens))))).
    + intros done x rest [h ch] s0 _ HI. cbn [fst snd] in HI.
      destruct HI as (Hlen & (chain & -> & Hchain) & Hlog).
      apply returns_bind, returns_maybeLog.
      eapply returns_mono;
        [apply Hsweep; eapply well_formed_length; eauto |].
      intros [h' ch'] s' (Hlen' & (e & He) & Hlog'). cbn [fst snd logger] in *.
      subst ch'. split; [congruence |]. split.
      * exists (chain ++ [e]). split; [reflexivity |].
        rewrite !length_app, Hchain. reflexivity.
      * rewrite Hlog', updated_layers_app, Hrecord, app_nil_r, Hlog, Hlen.
        rewrite length_app. cbn [length].
        rewrite replicate_add, concat_app, <- app_assoc. cbn [replicate concat].
        rewrite app_nil_r. reflexivity.
    + cbn [fst snd]. split; [reflexivity |]. split; [exists []; auto |].
      cbn. rewrite app_nil_r. reflexivity.
  - intros r s' (Hlen & (chain & Hr & Hchain) & Hlog).
    rewrite py_range_step1, length_seq in *. eauto.
Qed.
End Sweeps.

Lemma init_hiddens_Ok X_init W s :
  returns (init_hiddens X_init W) s (fun h s' =>
    s' = s /\ length h = S (length W) /\ h !! 0 = Some X_init).
Proof.
  unfold init_hiddens. eapply returns_mono.
  - apply (returns_for_each (fun (done : list expr) h s' =>
      s' = s /\ length h = S (length done) /\ h !! 0 = Some X_init)).
    + intros done w rest h s0 _ (-> & Hlen & H0).
      destruct (last h) as [x|] eqn:E.
      * eexists _, _. split.
        { unfold getitem_last. rewrite E. reflexivity. }
        split; [reflexivity |]. split.
        { rewrite !length_app, Hlen. reflexivity. }
        { rewrite lookup_app_l by lia. exact H0. }
      * apply last_None in E. subst h. discriminate.
    + auto.
  - intros h s' H. exact H.
Qed.

Lemma build_gsn_Ok X W b c walkbacks s :
  1 <= length W -> length W < length b ->
  returns (build_gsn X W b c walkbacks) s (fun r _ =>
    length r.2 = S (length W) /\
    exists chain, r.1 = Some chain /\ length chain = walkbacks).
Proof.
  intros HW Hb. unfold build_gsn.
  apply returns_bind.
  assert (Hc : returns (corrupt_input X c) s (fun _ _ => True)).
  { unfold corrupt_input, salt_and_pepper. destruct (add_noise c);
      eexists _, _; split; try reflexivity; exact I. }
  eapply returns_mono; [exact Hc |]. intros X_init s1 _.
  apply returns_bind.
  eapply returns_mono; [apply init_hiddens_Ok |].
  intros h s2 (-> & Hlen & _).
  apply returns_bind, returns_maybeLog, returns_bind.
  eapply returns_mono.
  - apply (walkbacks_Ok W b c update_layers (fun i => GSN_Walkback (i + 1) walkbacks)).
    + intros h0 ch s0 Hwf. eapply returns_mono; [apply update_layers_Ok, Hwf |].
      intros r s' (H1 & H2 & _). auto.
    + unfold well_formed. lia.
  - intros [h' ch'] s' (Hlen' & chain & Hch & Hk). cbn [fst snd] in *.
    apply returns_ret. cbn [fst snd]. split; [congruence |]. eauto.
Qed.

(** A graph is never one of its own proper subgraphs. *)
Lemma size_lt_neq a b : size a < size b -> b <> a.
Proof. intros H ->. lia. Qed.

(** The visible update alone: it needs only the three items it reads. *)
Lemma simple_update_layer_visible hiddens W b chain c s h1 w0 b0 :
  hiddens !! 1 = Some h1 -> W !! 0 = Some w0 -> b !! 0 = Some b0 ->
  exists l,
    simple_update_layer hiddens W b (Some chain) 0 c s =
      Ok ((<[0 := visible_value c (MRG s)
                   (visible_activation c (Add (Dot h1 (Transpose w0)) b0))]> hiddens,
           Some (chain ++ [visible_activation c (Add (Dot h1 (Transpose w0)) b0)])),
          mkBuilder (MRG s + (if input_sampling c then 2 else 1)) (logger s ++ l)).
Proof.
  intros Hh HW Hb.
  assert (Hlt : 0 < length hiddens) by (apply lookup_lt_Some in Hh; lia).
  unfold simple_update_layer.
  rewrite !(bool_decide_eq_true_2 (0 = 0)) by reflexivity.
  rewrite (bool_decide_eq_false_2 (0 = 1)) by discriminate.
  unfold visible_value, append, salt_and_pepper, MRG_binomial, fresh_stream.
  destruct (input_sampling c); mrun;
    eexists; repeat rewrite <- app_assoc; f_equal; f_equal; f_equal; lia.
Qed.

Lemma getitem_last_Some {S A} (l : list A) x (s : S) :
  last l = Some x -> getitem_last l s = Ok (x, s).
Proof. unfold getitem_last. intros ->. reflexivity. Qed.

Lemma last_nonempty {A} (l : list A) : 1 <= length l -> exists x, last l = Some x.
Proof.
  intros H. destruct (last l) as [x|] eqn:E; [eauto |].
  apply last_None in E. subst l. cbn in H. lia.
Qed.

Lemma costs_of_Ok cost_function X chain s :
  costs_of cost_function X (Some chain) s =
    Ok ((fun rX => cost_function rX X) <$> chain, s).
Proof. reflexivity. Qed.

Lemma last_costs (cost_function : expr -> expr -> expr) (X : expr) chain rX :
  last chain = Some rX ->
  last ((fun rX => cost_function rX X) <$> chain) = Some (cost_function rX X).
Proof. intros H. rewrite fmap_last, H. reflexivity. Qed.

Lemma returns_getitem_last {S A} (l : list A) (s : S) (Q : A -> S -> Prop) x :
  last l = Some x -> Q x s -> returns (getitem_last l) s Q.
Proof.
  intros Hl HQ. exists x, s. split; [apply getitem_last_Some, Hl | exact HQ].
Qed.

Lemma returns_salt_and_pepper x p s (Q : expr -> builder -> Prop) :
  Q (SaltAndPepper (MRG s) x p) (mkBuilder (S (MRG s)) (logger s)) ->
  returns (salt_and_pepper x p) s Q.
Proof. intros HQ. eexists _, _. split; [reflexivity | exact HQ]. Qed.

Lemma build_gsn_pxh_Ok hiddens W b c walkbacks s :
  well_formed hiddens W b -> 1 <= walkbacks ->
  returns (build_gsn_pxh hiddens W b c walkbacks) s (fun _ _ => True).
Proof.
  intros Hwf Hk. unfold build_gsn_pxh.
  apply returns_bind, returns_maybeLog, returns_bind.
  eapply returns_mono.
  - apply (walkbacks_Ok W b c update_layers (fun i => GSN_Walkback (i + 1) walkbacks)).
    + intros h0 ch s0 Hwf0. eapply returns_mono; [apply update_layers_Ok, Hwf0 |].
      intros r s' (H1 & H2 & _). auto.
    + exact Hwf.
  - intros [h' ch'] s' (_ & chain & Hch & Hlen). cbn [fst snd] in *. subst ch'.
    cbn [iter]. apply returns_bind, returns_ret.
    destruct (last_nonempty chain) as [x Hx]; [lia |].
    eapply returns_getitem_last; [exact Hx | exact I].
Qed.

Lemma GSN_init_Ok a s :
  1 <= arg_layers a -> 1 <= arg_walkbacks a ->
  arg_weights_list a = None -> arg_bias_list a = None ->
  returns (GSN_init a) s (fun g _ => built a g).
Proof.
  intros HL Hk HWn Hbn. unfold GSN_init. rewrite HWn, Hbn, !py_range_step1.
  set (Wl := W_ <$> seq 0 (arg_layers a)).
  set (bl := b_ <$> seq 0 (arg_layers a + 1)).
  assert (HlW : length (Shared <$> Wl) = arg_layers a).
  { subst Wl. rewrite !length_fmap, length_seq. reflexivity. }
  assert (Hlb : length (Shared <$> bl) = S (arg_layers a)).
  { subst bl. rewrite !length_fmap, length_seq. lia. }
  apply returns_bind.
  eapply returns_mono; [apply build_gsn_Ok; lia |].
  intros [ch h] s1 (_ & chain & Hch & Hlen). cbn [fst snd] in *. subst ch.
  apply returns_bind.
  eapply returns_mono; [apply build_gsn_Ok; lia |].
  intros [chr hr] s2 (_ & chain_r & Hchr & Hlenr). cbn [fst snd] in *. subst chr.
  destruct (last_nonempty chain) as [rX HrX]; [lia |].
  destruct (last_nonempty chain_r) as [rXr HrXr]; [lia |].
  apply returns_bind. eexists _, _. split; [apply costs_of_Ok |].
  apply returns_bind.
  eapply returns_getitem_last; [apply last_costs, HrX |].
  apply returns_bind. eexists _, _. split; [apply costs_of_Ok |].
  apply returns_bind.
  eapply returns_getitem_last; [apply last_costs, HrXr |].
  apply returns_bind.
  eapply returns_mono.
  { apply update_layers_Ok. unfold well_formed. cbn [length tail].
    rewrite length_fmap, length_seq, HlW, Hlb. lia. }
  intros [nso vis] s3 (Hnso & (pX & Hvis) & _). cbn [fst snd app] in *. subst vis.
  cbn [iter]. apply returns_bind, returns_ret, returns_bind.
  eapply returns_getitem_last; [exact HrXr |].
  apply returns_bind, returns_salt_and_pepper.
  apply returns_bind.
  eapply returns_mono with
    (Q := fun f _ => f = if bool_decide (arg_layers a = 1)
                         then mkFunction [X_sample] (One pX) []
                         else mkFunction
                                (X_sample :: (H_sampling <$> seq 0 (arg_layers a)))
                                (Many (nso ++ [pX])) []).
  { destruct (bool_decide (arg_layers a = 1)).
    - apply returns_bind, returns_ret, returns_bind.
      eapply returns_getitem_last; [reflexivity |]. apply returns_ret. reflexivity.
    - apply returns_bind, returns_ret, returns_ret. reflexivity. }
  intros f s4 ->.
  apply returns_bind, returns_salt_and_pepper, returns_bind.
  eapply returns_mono.
  { apply build_gsn_pxh_Ok; [| exact Hk].
    unfold well_formed. cbn [length]. rewrite length_fmap, length_seq.
    rewrite HlW, Hlb. subst bl. rewrite length_fmap, length_seq. lia. }
  intros sample s5 _. apply returns_ret.
  constructor; cbn; try reflexivity.
  - exists chain, rX. auto.
  - eauto.
  - rewrite length_fmap, length_seq. split; [reflexivity |].
    rewrite Hnso. cbn. rewrite length_fmap, length_seq. reflexivity.
  - exists pX. split; reflexivity.
Qed.

(** ** Sums of costs *)

Lemma sum_value_foldl {V} (vadd : V -> V -> V) atom costs c :
  sum_value vadd atom (foldl Add c costs) =
  foldl vadd (sum_value vadd atom c) (sum_value vadd atom <$> costs).
Proof.
  revert c. induction costs as [|c' costs IH]; intros c; [reflexivity |].
  cbn [foldl fmap list_fmap]. rewrite IH. reflexivity.
Qed.

Lemma sum_value_numpy_sum {V} (vadd : V -> V -> V) atom costs :
  sum_value vadd atom (numpy_sum costs) =
  sum_left vadd (atom (Const 0)) (sum_value vadd atom <$> costs).
Proof.
  destruct costs as [|c costs]; [reflexivity |].
  cbn [numpy_sum sum_left fmap list_fmap]. apply sum_value_foldl.
Qed.

Lemma foldl_Zadd (v : Z) (l : list Z) : foldl Z.add v l = (v + foldr Z.add 0 l)%Z.
Proof.
  revert v. induction l as [|x l IH]; intros v; cbn [foldl foldr]; [lia |].
  rewrite IH. lia.
Qed.

Lemma sum_left_Zadd (z : Z) (l : list Z) :
  1 <= length l -> sum_left Z.add z l = foldr Z.add 0%Z l.
Proof.
  destruct l as [|v l]; cbn [length]; [lia |]. intros _.
  cbn [sum_left foldr]. apply foldl_Zadd.
Qed.

Lemma build_gsn_scan_Ok X0 W b c walkbacks cost_function s :
  1 <= length W -> length W < length b -> 1 <= walkbacks ->
  returns (build_gsn_scan X0 W b c walkbacks cost_function) s (fun r _ =>
    exists chain rX,
      length chain = walkbacks /\ last chain = Some rX /\
      r = (rX, numpy_sum ((fun rX => cost_function rX X0) <$> chain),
           cost_function rX X0)).
Proof.
  intros HW Hb Hk. unfold build_gsn_scan.
  apply returns_bind.
  assert (Hc : returns (corrupt_input X0 c) s (fun _ _ => True)).
  { unfold corrupt_input, salt_and_pepper. destruct (add_noise c);
      eexists _, _; split; try reflexivity; exact I. }
  eapply returns_mono; [exact Hc |]. intros X_init s1 _.
  apply returns_bind.
  eapply returns_mono; [apply init_hiddens_Ok |].
  intros h s2 (-> & Hlen & _).
  apply returns_bind, returns_maybeLog, returns_bind.
  eapply returns_mono.
  - apply (walkbacks_Ok W b c update_layers
             (fun i => GSN_after_scan_Walkback (i + 1) walkbacks)).
    + intros h0 ch s0 Hwf. eapply returns_mono; [apply update_layers_Ok, Hwf |].
      intros r s' (H1 & H2 & _). auto.
    + unfold well_formed. lia.
  - intros [h' ch'] s' (_ & chain & Hch & Hlen'). cbn [fst snd] in *. subst ch'.
    destruct (last_nonempty chain) as [rX HrX]; [lia |].
    cbn [iter]. apply returns_bind, returns_ret, returns_bind.
    eapply returns_getitem_last; [exact HrX |].
    apply returns_bind. eexists _, _. split; [apply costs_of_Ok |].
    apply returns_bind.
    eapply returns_getitem_last; [apply last_costs, HrX |].
    apply returns_ret. exists chain, rX. auto.
Qed.

(** ** The dictionary of updates *)

Lemma dict_get_app {V} k (d1 d2 : list (shared * V)) :
  dict_get k (d1 ++ d2) =
  match dict_get k d2 with
  | Some v => Some v
  | None => dict_get k d1
  end.
Proof.
  induction d1 as [|[k' v] d1 IH]; cbn [app dict_get].
  - destruct (dict_get k d2); reflexivity.
  - rewrite IH. destruct (dict_get k d2); reflexivity.
Qed.

Lemma dict_get_zip_with_None {V V'} (h : shared -> V -> V') k keys vals :
  k ∉ keys -> dict_get k (zip_with (fun k v => (k, h k v)) keys vals) = None.
Proof.
  revert vals. induction keys as [|k' keys IH]; intros vals Hk; [reflexivity |].
  destruct vals as [|v vals]; [reflexivity |].
  apply not_elem_of_cons in Hk as [Hne Hk].
  cbn [zip_with dict_get]. rewrite IH by exact Hk.
  rewrite decide_False by congruence. reflexivity.
Qed.

Lemma dict_get_zip_with {V V'} (h : shared -> V -> V') keys vals i k v :
  NoDup keys -> keys !! i = Some k -> vals !! i = Some v ->
  dict_get k (zip_with (fun k v => (k, h k v)) keys vals) = Some (h k v).
Proof.
  revert vals i. induction keys as [|k' keys IH]; intros vals i Hnd Hk Hv.
  - discriminate.
  - destruct vals as [|v' vals]; [discriminate |].
    apply NoDup_cons in Hnd as [Hnotin Hnd].
    destruct i as [|i]; cbn in Hk, Hv.
    + injection Hk as ->. injection Hv as ->.
      cbn [zip_with dict_get]. rewrite dict_get_zip_with_None by exact Hnotin.
      rewrite decide_True by reflexivity. reflexivity.
    + cbn [zip_with dict_get]. rewrite (IH vals i Hnd Hk Hv). reflexivity.
Qed.

Lemma fmap_zip_zip_with {A C D} (f : A -> C -> D) (l : list A) (k : list C) :
  (fun '(a, c) => f a c) <$> zip l k = zip_with f l k.
Proof.
  revert k. induction l as [|a l IH]; intros [|c k]; cbn; try reflexivity.
  f_equal. apply IH.
Qed.

Lemma zip_zip_with_pair {A C} (l : list A) (k : list C) :
  zip l k = zip_with (fun a c => (a, c)) l k.
Proof. reflexivity. Qed.

Section Learning.
Variables (B : backend) (cost : expr) (params : list shared).
Hypothesis params_NoDup : NoDup params.
Hypothesis params_not_buffers : forall j, gradient_buffer_ j ∉ params.

Lemma gradient_buffer_lookup k :
  k < length params -> init_gradient_buffer params !! k = Some (gradient_buffer_ k).
Proof.
  intros Hk. unfold init_gradient_buffer.
  rewrite list_lookup_fmap, lookup_seq_lt by exact Hk. reflexivity.
Qed.

Lemma gradient_buffer_NoDup : NoDup (init_gradient_buffer params).
Proof.
  unfold init_gradient_buffer. apply NoDup_fmap_2; [| apply NoDup_seq].
  intros i j Hij. injection Hij. auto.
Qed.

Lemma m_gradient_lookup k p :
  params !! k = Some p ->
  init_m_gradient (init_gradient_buffer params) (init_gradient cost params) !! k =
    Some (Add (Mul momentum (Shared (gradient_buffer_ k)))
              (Mul (Sub (Const 1) momentum) (Grad cost (Shared p)))).
Proof.
  intros Hp. assert (Hk : k < length params) by (eapply lookup_lt_Some; eauto).
  unfold init_m_gradient. rewrite fmap_zip_zip_with, lookup_zip_with.
  rewrite gradient_buffer_lookup by exact Hk.
  unfold init_gradient. rewrite list_lookup_fmap, Hp. reflexivity.
Qed.

Lemma updates_buffer k p :
  params !! k = Some p ->
  dict_get (gradient_buffer_ k) (init_updates cost params) =
    Some (Add (Mul momentum (Shared (gradient_buffer_ k)))
              (Mul (Sub (Const 1) momentum) (Grad cost (Shared p)))).
Proof.
  intros Hp. assert (Hk : k < length params) by (eapply lookup_lt_Some; eauto).
  unfold init_updates. rewrite dict_get_app, zip_zip_with_pair.
  rewrite (dict_get_zip_with (fun _ v => v) _ _ k _ _ gradient_buffer_NoDup
             (gradient_buffer_lookup k Hk) (m_gradient_lookup k p Hp)).
  reflexivity.
Qed.

Lemma updates_param k p :
  params !! k = Some p ->
  dict_get p (init_updates cost params) =
    Some (Sub (Shared p)
            (Mul learning_rate
               (Add (Mul momentum (Shared (gradient_buffer_ k)))
                    (Mul (Sub (Const 1) momentum) (Grad cost (Shared p)))))).
Proof.
  intros Hp. unfold init_updates.
  rewrite dict_get_app, zip_zip_with_pair, (dict_get_zip_with_None (fun _ v => v)).
  - rewrite fmap_zip_zip_with.
    apply (dict_get_zip_with (fun p mg => Sub (Shared p) (Mul learning_rate mg))
             _ _ k _ _ params_NoDup Hp (m_gradient_lookup k p Hp)).
  - unfold init_gradient_buffer. intros (j & -> & _)%list_elem_of_fmap.
    apply (params_not_buffers j). eapply list_elem_of_lookup_2, Hp.
Qed.

Lemma updates_other v :
  v ∉ params -> (forall j, v <> gradient_buffer_ j) ->
  dict_get v (init_updates cost params) = None.
Proof.
  intros Hv Hb. unfold init_updates.
  rewrite dict_get_app, zip_zip_with_pair, (dict_get_zip_with_None (fun _ v => v)).
  - rewrite fmap_zip_zip_with. apply dict_get_zip_with_None, Hv.
  - unfold init_gradient_buffer. intros (j & -> & _)%list_elem_of_fmap.
    apply (Hb j). reflexivity.
Qed.

(** One call of the learning function. *)
Lemma f_learn_call show (x : tensor B) (w : world B) k p :
  momentum_ ∉ params -> learning_rate_ ∉ params ->
  params !! k = Some p ->
  let grad :=
    eval B (bind_inputs B [X] [x]) (store w) (theano_calls w) (Grad cost (Shared p)) in
  let g_buf' :=
    t_add B (t_mul B (store w momentum_) (store w (gradient_buffer_ k)))
            (t_mul B (t_sub B (t_const B 1) (store w momentum_)) grad) in
  exists out w',
    call B (mkFunction [X] (One show) (init_updates cost params)) [x] w = Ok (out, w') /\
    store w' (gradient_buffer_ k) = g_buf' /\
    store w' p = t_sub B (store w p) (t_mul B (store w learning_rate_) g_buf') /\
    store w' momentum_ = store w momentum_ /\
    store w' learning_rate_ = store w learning_rate_.
Proof.
  intros Hm Hlr Hp grad g_buf'. eexists _, _. split; [reflexivity |].
  cbn [store fn_updates inputs].
  rewrite (updates_buffer k p Hp), (updates_param k p Hp).
  rewrite !updates_other by (first [assumption | discriminate]).
  repeat split; reflexivity.
Qed.
End Learning.

Lemma default_params_NoDup L : NoDup ((W_ <$> seq 0 L) ++ (b_ <$> seq 0 (L + 1))).
Proof.
  apply NoDup_app. split; [| split].
  - apply NoDup_fmap_2; [| apply NoDup_seq]. intros i j Hij. injection Hij. auto.
  - intros v (i & -> & _)%list_elem_of_fmap (j & Hj & _)%list_elem_of_fmap.
    discriminate.
  - apply NoDup_fmap_2; [| apply NoDup_seq]. intros i j Hij. injection Hij. auto.
Qed.

Lemma default_params_not_buffers L j :
  gradient_buffer_ j ∉ (W_ <$> seq 0 L) ++ (b_ <$> seq 0 (L + 1)).
Proof.
  intros H. apply elem_of_app in H as [H | H];
    apply list_elem_of_fmap in H as (i & Hi & _); discriminate.
Qed.

Lemma default_params_not_rates L :
  (momentum_ ∉ (W_ <$> seq 0 L) ++ (b_ <$> seq 0 (L + 1))) /\
  (learning_rate_ ∉ (W_ <$> seq 0 L) ++ (b_ <$> seq 0 (L + 1))).
Proof.
  split; intros H; apply elem_of_app in H as [H | H];
    apply list_elem_of_fmap in H as (i & Hi & _); discriminate.
Qed.

(** ** Sampling *)

Section Sampling.
Variable B : backend.

Lemma returns_call_one f args e (w : world B) (Q : tensor B -> world B -> Prop) :
  outputs f = One e -> length args = length (inputs f) ->
  (forall x w', Q x w') -> returns (call_one B f args) w Q.
Proof.
  intros He Hlen HQ. unfold returns, call_one, call, mbind, SE_bind.
  rewrite decide_True by exact Hlen. rewrite He. eexists _, _.
  split; [reflexivity | apply HQ].
Qed.

Lemma returns_call_many f args l (w : world B)
    (Q : list (tensor B) -> world B -> Prop) :
  outputs f = Many l -> length args = length (inputs f) ->
  (forall out w', length out = length l -> Q out w') ->
  returns (call_many B f args) w Q.
Proof.
  intros He Hlen HQ. unfold returns, call_many, call, mbind, SE_bind.
  rewrite decide_True by exact Hlen. rewrite He. eexists _, _.
  split; [reflexivity |]. apply HQ. apply length_fmap.
Qed.

Lemma returns_rng_binomial x (w : world B) (Q : tensor B -> world B -> Prop) :
  (forall y w', Q y w') -> returns (rng_binomial B x) w Q.
Proof. intros HQ. eexists _, _. split; [reflexivity | apply HQ]. Qed.

Variables (a : gsn_args) (g : GSN).
Hypothesis Hg : built a g.

Lemma single_layer_samples_Ok initial n (w : world B) :
  arg_layers a = 1 ->
  returns (single_layer_samples B g initial n) w (fun samples _ =>
    exists rest, samples = initial :: rest /\ length rest = n - 1).
Proof.
  intros HL. unfold single_layer_samples.
  destruct (built_f_noise a g Hg) as [noisy Hnoise].
  destruct (built_f_sample a g Hg) as (pX & _ & Hsample).
  rewrite bool_decide_eq_true_2 in Hsample by exact HL.
  apply returns_bind.
  eapply returns_call_one; [rewrite Hnoise; reflexivity | rewrite Hnoise; reflexivity |].
  intros x w1. apply returns_bind.
  eapply returns_mono.
  - apply (returns_for_each (fun (done : list nat) (r : list (tensor B) * tensor B) _ =>
      exists rest, r.1 = initial :: rest /\ length rest = length done)).
    + intros done i rest' [samples x'] w2 _ (rest & Hs & Hlen). cbn [fst] in Hs.
      subst samples. apply returns_bind.
      eapply returns_call_one;
        [rewrite Hsample; reflexivity | rewrite Hsample; reflexivity |].
      intros y w3. apply returns_bind, returns_rng_binomial.
      intros z w4. apply returns_bind.
      eapply returns_call_one;
        [rewrite Hnoise; reflexivity | rewrite Hnoise; reflexivity |].
      intros z' w5. apply returns_ret. cbn [fst].
      exists (rest ++ [y]). split; [reflexivity |].
      rewrite !length_app, Hlen. reflexivity.
    + exists []. split; reflexivity.
  - intros [samples x'] w2 (rest & Hs & Hlen). cbn [fst] in Hs.
    apply returns_ret. exists rest. split; [exact Hs |].
    rewrite Hlen, py_range_step1, length_seq. reflexivity.
Qed.

Lemma multi_layer_samples_Ok initial n k rows (w : world B) :
  arg_layers a <> 1 -> 1 <= k -> shape B initial !! 0 = Some rows ->
  returns (multi_layer_samples B g initial n k) w (fun st _ =>
    exists rest, visible_chain st = initial :: rest /\ length rest = n - 1).
Proof.
  intros HL Hk Hrows. unfold multi_layer_samples.
  destruct (built_f_noise a g Hg) as [noisy Hnoise].
  destruct (built_f_sample a g Hg) as (pX & _ & Hsample).
  rewrite bool_decide_eq_false_2 in Hsample by exact HL.
  destruct (built_state a g Hg) as [Hnsi Hnso].
  apply returns_bind.
  eapply returns_call_one; [rewrite Hnoise; reflexivity | rewrite Hnoise; reflexivity |].
  intros x w1. apply returns_bind.
  eapply returns_mono.
  { apply (returns_for_each (fun (done : list shared) (zeros : list (tensor B)) _ =>
      length zeros = length done)); [| reflexivity].
    intros done v rest zeros w2 _ Hlen. apply returns_bind.
    eexists _, _. split; [apply getitem_Some, Hrows |].
    apply returns_ret. rewrite !length_app, Hlen. reflexivity. }
  intros zeros w2 Hzeros.
  assert (Hz : length zeros = arg_layers a).
  { rewrite Hzeros, (built_biases a g Hg), length_tl, length_fmap, length_seq. lia. }
  eapply returns_mono.
  - apply (returns_for_each (fun (done : list nat) (st : sampling_state B) _ =>
      (exists rest, visible_chain st = initial :: rest /\ length rest = length done) /\
      exists state, last (network_state st) = Some state /\
                    length state = S (arg_layers a))).
    + intros done i rest' st w3 _ ((rest & Hvis & Hlen) & state & Hlast & Hstate).
      apply returns_bind.
      eapply returns_getitem_last; [exact Hlast |].
      apply returns_bind. unfold sampling_wrapper. apply returns_bind.
      eapply returns_call_many;
        [rewrite Hsample; reflexivity | rewrite Hsample; cbn [inputs]; lia |].
      intros out w4 Hout. rewrite length_app, Hnso in Hout. cbn [length] in Hout.
      apply returns_ret, returns_bind. rewrite Hnso.
      destruct (lookup_lt_ex (take (S (arg_layers a)) out) 0) as [h0 Hh0].
      { rewrite length_take. lia. }
      eexists _, _. split; [apply getitem_Some, Hh0 |].
      apply returns_bind.
      rewrite bool_decide_eq_false_2 by lia.
      eapply returns_mono with (Q := fun _ _ => True).
      { destruct (bool_decide (i mod k = 0)); apply returns_ret; exact I. }
      intros sh w5 _. apply returns_ret.
      cbn [visible_chain network_state]. split.
      * exists (rest ++ drop (S (arg_layers a)) out). rewrite Hvis. split; [reflexivity |].
        rewrite !length_app, length_drop, Hlen, Hout. cbn [length]. lia.
      * exists (take (S (arg_layers a)) out). split; [apply last_snoc |].
        rewrite length_take. lia.
    + cbn [visible_chain network_state]. split.
      * exists []. split; reflexivity.
      * eexists. split; [reflexivity |]. cbn [length]. rewrite Hz. reflexivity.
  - intros st w3 ((rest & Hvis & Hlen) & _). exists rest. split; [exact Hvis |].
    rewrite Hlen, py_range_step1, length_seq. reflexivity.
Qed.

Lemma sample_Ok initial n k rows (w : world B) :
  1 <= k -> shape B initial !! 0 = Some rows ->
  exists rest sampled w',
    sample B g initial n k w = Ok ((np_vstack B (initial :: rest), sampled), w') /\
    length rest = n - 1 /\
    ((layers g = 1 /\ sampled = None /\
      single_layer_samples B g initial n w = Ok (initial :: rest, w')) \/
     (layers g <> 1 /\
      exists st, multi_layer_samples B g initial n k w = Ok (st, w') /\
                 visible_chain st = initial :: rest /\
                 sampled = Some (sampled_h st))).
Proof.
  intros Hk Hrows. unfold sample. rewrite (built_layers a g Hg).
  destruct (decide (arg_layers a = 1)) as [HL | HL].
  - rewrite bool_decide_eq_true_2 by exact HL.
    destruct (single_layer_samples_Ok initial n w HL)
      as (samples & w' & Heq & rest & -> & Hlen).
    exists rest, None, w'. split.
    { unfold sample_some_numbers_single_layer.
      erewrite bind_Ok by exact Heq. reflexivity. }
    split; [exact Hlen |]. left. auto.
  - rewrite bool_decide_eq_false_2 by exact HL.
    destruct (multi_layer_samples_Ok initial n k rows w HL Hk Hrows)
      as (st & w' & Heq & rest & Hvis & Hlen).
    exists rest, (Some (sampled_h st)), w'. split.
    { unfold sample_some_numbers.
      erewrite bind_Ok by exact Heq. rewrite <- Hvis. reflexivity. }
    split; [exact Hlen |]. right. split; [exact HL |]. exists st. auto.
Qed.
End Sampling.

(** ** Loading parameters *)

Lemma set_values_accepting (B : backend) pairs (w : world B) :
  (forall x y, accepts B x y = true) ->
  set_values B pairs w =
    Ok (tt, mkWorld (assigned (store w) pairs) (theano_calls w) (numpy_draws w)).
Proof.
  intros Hacc. revert w. induction pairs as [|[lp p] pairs IH]; intros w.
  - destruct w. reflexivity.
  - unfold set_values. cbn [for_each].
    erewrite bind_Ok; [| unfold set_value; rewrite Hacc; reflexivity].
    exact (IH (mkWorld (store_set (store w) p lp) (theano_calls w) (numpy_draws w))).
Qed.

Lemma assigned_app {B : backend} (st : shared -> tensor B) l1 l2 :
  assigned st (l1 ++ l2) = assigned (assigned st l1) l2.
Proof. apply foldl_app. Qed.

(** ** The embedding at work on small inputs *)

Example ranges_of_five :
  py_range 1 5 2 = [1; 3] /\ py_range 0 5 2 = [0; 2; 4] /\ py_range 0 3 1 = [0; 1; 2] /\
  odd_indices 5 = [1; 3] /\ even_indices 5 = [0; 2; 4].
Proof. repeat split. Qed.

(** One hidden layer, no noise, no input sampling: the chain after one
    walkback and the stack it leaves. *)
Example one_layer_walkback :
  build_gsn X [Shared (W_ 0)] [Shared (b_ 0); Shared (b_ 1)]
    (mkConfig false true (Shared hidden_add_noise_sigma_)
       (Shared input_salt_and_pepper_) false (Apply "sigmoid") (Apply "tanh"))
    1 builder0 =
  let h1 := Apply "tanh" (Add (Dot X (Shared (W_ 0))) (Shared (b_ 1))) in
  let p := Apply "sigmoid" (Add (Dot h1 (Transpose (Shared (W_ 0)))) (Shared (b_ 0))) in
  Ok ((Some [p], [SaltAndPepper 0 p (Shared input_salt_and_pepper_); h1]),
      mkBuilder 1
        [Building_the_GSN_graph 1; GSN_Walkback 1 1; odd_layer_updates;
         updating_layer 1; using_W (Shared (W_ 0)); NO_noise_in_first_hidden_layer;
         Hidden_units_activation_for_layer 1; even_layer_updates; updating_layer 0;
         using_T (Shared (W_ 0)); Activation_for_visible_layer; NO_input_sampling;
         done_full_update]).
Proof. reflexivity. Qed.

(** Without a hidden layer the visible update finds no weight. *)
Example no_hidden_layer_raises :
  build_gsn X [] [Shared (b_ 0)] example_config 1 builder0 = Raise IndexError.
Proof. reflexivity. Qed.

(** With no walkback the chain is empty and [__init__] fails on
    [gsn_costs[-1]]. *)
Example init_without_walkbacks_raises :
  GSN_init (mkArgs 2 0 4 true true (Apply "sigmoid") (Apply "tanh")
              (Apply2 "binary_crossentropy") None None) builder0 = Raise IndexError.
Proof. vm_compute. reflexivity. Qed.

(** The odd pass is handed [None] for the chain: asked to update the
    visible layer it would fail on [append]. *)
Example visible_update_needs_a_chain :
  simple_update_layer example_hiddens example_weights example_biases None 0
    example_config builder0 = Raise AttributeError.
Proof. reflexivity. Qed.

(** [sample] with k = 0 fails on [i % k] in the first iteration of the
    multi-layer loop. *)
Example sample_with_k_zero_raises :
  match GSN_init example_args builder0 with
  | Ok (g, _) => sample Z_backend g 7%Z 2 0 Z_world
  | Raise e => Raise e
  end = Raise ZeroDivisionError.
Proof. vm_compute. reflexivity. Qed.

(** * The claims *)

(** C1: with at least one hidden layer (one weight per pair of neighbours,
    one bias per layer) and any walkback count k, [build_gsn] returns a
    prediction chain of exactly k entries, hence the empty chain for
    k = 0.  Each full sweep appends exactly one prediction: the even pass
    does it, and the odd pass, which is handed no chain at all, returns
    without appending. *)
Theorem build_gsn_chain_length X W b c k s :
  1 <= length W -> length W < length b ->
  (exists chain hiddens s',
     build_gsn X W b c k s = Ok ((Some chain, hiddens), s') /\
     length chain = k /\ (k = 0 -> chain = [])) /\
  (forall hiddens chain s0, well_formed hiddens W b ->
     exists hiddens' e s',
       update_layers hiddens W b (Some chain) c s0 =
         Ok ((hiddens', Some (chain ++ [e])), s')) /\
  (forall hiddens chain s0, well_formed hiddens W b ->
     exists hiddens' e s',
       update_even_layers hiddens W b (Some chain) c s0 =
         Ok ((hiddens', Some (chain ++ [e])), s')) /\
  (forall hiddens s0, well_formed hiddens W b ->
     exists hiddens' s', update_odd_layers hiddens W b c s0 = Ok (hiddens', s')).
Proof.
  intros HW Hb. repeat split.
  - destruct (build_gsn_Ok X W b c k s HW Hb)
      as ([ch h] & s' & Heq & _ & chain & Hch & Hlen).
    cbn [fst snd] in *. subst ch. exists chain, h, s'.
    split; [exact Heq |]. split; [exact Hlen |].
    intros ->. destruct chain; [reflexivity | discriminate].
  - intros hiddens chain s0 Hwf.
    destruct (update_layers_Ok W b c hiddens chain s0 Hwf)
      as ([h' ch'] & s' & Heq & _ & (e & He) & _).
    cbn [fst snd] in *. subst ch'. eauto.
  - intros hiddens chain s0 Hwf.
    destruct (update_even_layers_Ok W b c hiddens chain s0 Hwf)
      as (pre & _ & [h' ch'] & s' & Heq & _ & He & _).
    cbn [fst snd] in *. subst ch'. eauto.
  - intros hiddens s0 Hwf.
    destruct (update_odd_layers_Ok W b c hiddens s0 Hwf) as (h' & s' & Heq & _).
    eauto.
Qed.

Lemma build_gsn_chain_length_witness :
  exists chain hiddens s',
    build_gsn (Input "X") example_weights example_biases example_config 3 builder0 =
      Ok ((Some chain, hiddens), s') /\
    length chain = 3 /\ (3 = 0 -> chain = []).
Proof.
  refine (proj1 (build_gsn_chain_length (Input "X") example_weights example_biases
                   example_config 3 builder0 _ _)); cbn; lia.
Defined.

(** C2: in the update of the visible layer (i = 0) the clean
    post-activation value is appended to the chain; the value stored as the
    new visible state is that value, re-sampled as a Bernoulli draw when
    [input_sampling] is set (the draw takes its stream before the masking
    does), then masked by salt-and-pepper noise; the stored value is not
    the chain entry. *)
Theorem visible_update_stores_corrupted hiddens W b chain c s h1 w0 b0 :
  hiddens !! 1 = Some h1 -> W !! 0 = Some w0 -> b !! 0 = Some b0 ->
  let p := visible_activation c (Add (Dot h1 (Transpose w0)) b0) in
  let stored :=
    if input_sampling c then
      SaltAndPepper (S (MRG s)) (Binomial (MRG s) p) (input_salt_and_pepper c)
    else SaltAndPepper (MRG s) p (input_salt_and_pepper c) in
  (exists s',
     simple_update_layer hiddens W b (Some chain) 0 c s =
       Ok ((<[0 := stored]> hiddens, Some (chain ++ [p])), s')) /\
  stored <> p.
Proof.
  intros Hh HW Hb p stored. split.
  - destruct (simple_update_layer_visible hiddens W b chain c s h1 w0 b0 Hh HW Hb)
      as [l Heq].
    eexists. exact Heq.
  - subst stored. apply size_lt_neq.
    destruct (input_sampling c); cbn [size]; lia.
Qed.

Lemma visible_update_stores_corrupted_witness :
  let p := Apply "sigmoid" (Add (Dot (Input "H_1") (Transpose (Shared (W_ 0)))) (Shared (b_ 0))) in
  let stored :=
    SaltAndPepper 1 (Binomial 0 p) (Shared input_salt_and_pepper_) in
  (exists s',
     simple_update_layer example_hiddens example_weights example_biases (Some []) 0
       example_config builder0 =
       Ok ((<[0 := stored]> example_hiddens, Some ([] ++ [p])), s')) /\
  stored <> p.
Proof.
  exact (visible_update_stores_corrupted example_hiddens example_weights example_biases
           [] example_config builder0 _ _ _ eq_refl eq_refl eq_refl).
Defined.

(** C3: the single-layer update computes the pre-activation by the
    topological rule ([topological_rule]: h_1 . W_0^T + b_0 for the visible
    layer, h_(i-1) . W_(i-1) + b_i for the top layer,
    h_(i+1) . W_i^T + h_(i-1) . W_(i-1) + b_i in between) and stores its
    activation (with the layer's noise) at index i.  Hence, for one hidden
    layer without noise, one walkback from the zero-initialised hidden state
    yields the one-entry chain
    visible_activation(hidden_activation(X . W + b1) . W^T + b0). *)
Theorem pre_activation_rule :
  (forall hiddens W b chain i c s,
     well_formed hiddens W b -> i < length hiddens -> (i = 0 -> is_Some chain) ->
     exists pre chain' s',
       topological_rule hiddens W b i = Some pre /\
       simple_update_layer hiddens W b chain i c s =
         Ok ((<[i := layer_value c i (MRG s) pre]> hiddens, chain'), s')) /\
  (forall X W0 b0 b1 c s,
     add_noise c = false ->
     exists hiddens s',
       init_hiddens X [W0] s = Ok ([X; ZerosLike (Dot X W0)], s) /\
       build_gsn X [W0] [b0; b1] c 1 s =
         Ok ((Some [visible_activation c
                      (Add (Dot (hidden_activation c (Add (Dot X W0) b1))
                                (Transpose W0)) b0)],
              hiddens), s')).
Proof.
  split.
  - intros hiddens W b chain i c s Hwf Hi Hchain.
    destruct (simple_update_layer_Ok hiddens W b chain i c s Hwf Hi Hchain)
      as (pre & l & Hpre & Heq & _).
    exists pre. eexists _, _. split; [exact Hpre | exact Heq].
  - intros X W0 b0 b1 c s Hnoise.
    unfold build_gsn, corrupt_input. rewrite Hnoise.
    destruct c as [an nh sg sp ins va ha]. cbn in Hnoise. subst an.
    destruct nh, ins; eexists _, _; (split; [reflexivity |]); vm_compute; reflexivity.
Qed.

Lemma pre_activation_rule_witness :
  exists pre chain' s',
    topological_rule example_hiddens example_weights example_biases 1 = Some pre /\
    simple_update_layer example_hiddens example_weights example_biases None 1
      example_config builder0 =
      Ok ((<[1 := layer_value example_config 1 (MRG builder0) pre]> example_hiddens,
           chain'), s').
Proof.
  refine (proj1 pre_activation_rule example_hiddens example_weights example_biases
            None 1 example_config builder0 _ _ _).
  - unfold well_formed. cbn. lia.
  - cbn. lia.
  - intros H. discriminate H.
Defined.



(** C4: the total training cost built by [GSN.__init__] is the sum of the
    costs of the chain entries against the input, one per walkback step:
    under any reading of [+] it is the left-to-right sum of the k
    single-step costs, over the integers the plain sum of the k values;
    the reported progress cost is the cost of the last chain entry.
    [build_gsn_scan] returns the same two costs for its chain. *)
Theorem total_cost_is_sum :
  (forall a s,
     1 <= arg_layers a -> 1 <= arg_walkbacks a ->
     arg_weights_list a = None -> arg_bias_list a = None ->
     exists g s' chain rX,
       GSN_init a s = Ok (g, s') /\
       p_X_chain g = Some chain /\ length chain = arg_walkbacks a /\
       last chain = Some rX /\
       gsn_costs g = (fun rX => arg_cost_function a rX X) <$> chain /\
       gsn_cost g = numpy_sum (gsn_costs g) /\
       show_gsn_cost g = arg_cost_function a rX X /\
       (forall (V : Type) (vadd : V -> V -> V) (atom : expr -> V),
          sum_value vadd atom (gsn_cost g) =
          sum_left vadd (atom (Const 0)) (sum_value vadd atom <$> gsn_costs g)) /\
       (forall atom : expr -> Z,
          sum_value Z.add atom (gsn_cost g) =
          foldr Z.add 0%Z (sum_value Z.add atom <$> gsn_costs g))) /\
  (forall X0 W b c walkbacks cost_function s,
     1 <= length W -> length W < length b -> 1 <= walkbacks ->
     exists chain rX s',
       length chain = walkbacks /\ last chain = Some rX /\
       build_gsn_scan X0 W b c walkbacks cost_function s =
         Ok ((rX, numpy_sum ((fun rX => cost_function rX X0) <$> chain),
              cost_function rX X0), s')).
Proof.
  split.
  - intros a s HL Hk HWn Hbn.
    destruct (GSN_init_Ok a s HL Hk HWn Hbn) as (g & s' & Heq & Hg).
    destruct (built_chain a g Hg) as (chain & rX & Hch & Hlen & Hlast & Hcosts & Hshow).
    exists g, s', chain, rX.
    repeat (split; [first [assumption | exact (built_cost a g Hg)] |]).
    split.
    + intros V vadd atom. rewrite (built_cost a g Hg). apply sum_value_numpy_sum.
    + intros atom. rewrite (built_cost a g Hg), sum_value_numpy_sum.
      apply sum_left_Zadd. rewrite length_fmap, Hcosts, length_fmap. lia.
  - intros X0 W b c walkbacks cost_function s HW Hb Hk.
    destruct (build_gsn_scan_Ok X0 W b c walkbacks cost_function s HW Hb Hk)
      as (r & s' & Heq & chain & rX & Hlen & Hlast & ->).
    exists chain, rX, s'. auto.
Qed.

Lemma total_cost_is_sum_witness :
  (exists g s' chain rX,
     GSN_init example_args builder0 = Ok (g, s') /\
     p_X_chain g = Some chain /\ length chain = 3 /\ last chain = Some rX /\
     gsn_cost g = numpy_sum (gsn_costs g) /\
     show_gsn_cost g = Apply2 "binary_crossentropy" rX X) /\
  (exists chain rX s',
     length chain = 3 /\ last chain = Some rX /\
     build_gsn_scan X example_weights example_biases example_config 3
       (Apply2 "binary_crossentropy") builder0 =
       Ok ((rX, numpy_sum ((fun rX => Apply2 "binary_crossentropy" rX X) <$> chain),
            Apply2 "binary_crossentropy" rX X), s')).
Proof.
  split.
  - destruct (proj1 total_cost_is_sum example_args builder0
                ltac:(cbn; lia) ltac:(cbn; lia) eq_refl eq_refl)
      as (g & s' & chain & rX & H1 & H2 & H3 & H4 & _ & H6 & H7 & _).
    exists g, s', chain, rX. repeat split; assumption.
  - refine (proj2 total_cost_is_sum X example_weights example_biases example_config 3
              (Apply2 "binary_crossentropy") builder0 _ _ _); cbn; lia.
Defined.

(** C9: one call of the learning function on a minibatch sets, for the
    k-th parameter p, the momentum buffer to
    momentum * g_buf + (1 - momentum) * grad and the parameter to
    p - learning_rate * (the new buffer value); momentum and learning rate
    are left as they are.  There is one buffer per parameter, and the next
    minibatch starts from the buffer the previous one left. *)
Theorem momentum_sgd_step (B : backend) a s g s0 (x : tensor B) (w : world B) k p :
  1 <= arg_layers a -> 1 <= arg_walkbacks a ->
  arg_weights_list a = None -> arg_bias_list a = None ->
  GSN_init a s = Ok (g, s0) ->
  params g !! k = Some p ->
  let grad_at (w : world B) (x : tensor B) :=
    eval B (bind_inputs B [X] [x]) (store w) (theano_calls w)
      (Grad (gsn_cost g) (Shared p)) in
  let g_buf' :=
    t_add B (t_mul B (store w momentum_) (store w (gradient_buffer_ k)))
            (t_mul B (t_sub B (t_const B 1) (store w momentum_)) (grad_at w x)) in
  length (gradient_buffer g) = length (params g) /\
  gradient_buffer g !! k = Some (gradient_buffer_ k) /\
  exists out w',
    call B (f_learn g) [x] w = Ok (out, w') /\
    store w' (gradient_buffer_ k) = g_buf' /\
    store w' p = t_sub B (store w p) (t_mul B (store w learning_rate_) g_buf') /\
    store w' momentum_ = store w momentum_ /\
    store w' learning_rate_ = store w learning_rate_ /\
    forall x2 : tensor B, exists out2 w'',
      call B (f_learn g) [x2] w' = Ok (out2, w'') /\
      store w'' (gradient_buffer_ k) =
        t_add B (t_mul B (store w momentum_) g_buf')
                (t_mul B (t_sub B (t_const B 1) (store w momentum_)) (grad_at w' x2)).
Proof.
  intros HL Hk HWn Hbn Hinit Hp grad_at g_buf'.
  destruct (GSN_init_Ok a s HL Hk HWn Hbn) as (g' & s' & Heq & Hg).
  rewrite Hinit in Heq. injection Heq as <- <-.
  assert (Hparams : params g = (W_ <$> seq 0 (arg_layers a)) ++
                               (b_ <$> seq 0 (arg_layers a + 1))).
  { rewrite (built_params a g Hg), (built_weights a g Hg), (built_biases a g Hg).
    reflexivity. }
  assert (Hnd : NoDup (params g)) by (rewrite Hparams; apply default_params_NoDup).
  assert (Hnb : forall j, gradient_buffer_ j ∉ params g).
  { intros j. rewrite Hparams. apply default_params_not_buffers. }
  destruct (default_params_not_rates (arg_layers a)) as [Hm Hlr].
  rewrite <- Hparams in Hm, Hlr.
  assert (Hlt : k < length (params g)) by (eapply lookup_lt_Some; eauto).
  split.
  { rewrite (built_gradient_buffer a g Hg). unfold init_gradient_buffer.
    rewrite length_fmap, length_seq. reflexivity. }
  split.
  { rewrite (built_gradient_buffer a g Hg). apply gradient_buffer_lookup, Hlt. }
  rewrite (built_f_learn a g Hg), (built_updates a g Hg).
  destruct (f_learn_call B (gsn_cost g) (params g) Hnd Hnb (show_gsn_cost g)
              x w k p Hm Hlr Hp) as (out & w' & Hcall & Hbuf & Hpar & Hmom & Hrate).
  exists out, w'. repeat (split; [assumption |]).
  intros x2.
  destruct (f_learn_call B (gsn_cost g) (params g) Hnd Hnb (show_gsn_cost g)
              x2 w' k p Hm Hlr Hp) as (out2 & w'' & Hcall2 & Hbuf2 & _).
  exists out2, w''. split; [exact Hcall2 |].
  rewrite Hbuf2, Hmom, Hbuf. reflexivity.
Qed.

Lemma momentum_sgd_step_witness :
  exists g s0,
    GSN_init example_args builder0 = Ok (g, s0) /\
    exists out w',
      call Z_backend (f_learn g) [5%Z] Z_world = Ok (out, w') /\
      store w' (gradient_buffer_ 0) = (2 * 2 + (1 - 2) * 1)%Z /\
      store w' (W_ 0) = (2 - 2 * (2 * 2 + (1 - 2) * 1))%Z.
Proof.
  destruct (GSN_init example_args builder0) as [[g s0]|e] eqn:E;
    [| vm_compute in E; discriminate E].
  exists g, s0. split; [reflexivity |].
  assert (Hp : params g !! 0 = Some (W_ 0)).
  { vm_compute in E. injection E as <- _. reflexivity. }
  destruct (momentum_sgd_step Z_backend example_args builder0 g s0 5%Z Z_world 0 (W_ 0)
              ltac:(cbn; lia) ltac:(cbn; lia) eq_refl eq_refl E Hp)
    as (_ & _ & out & w' & Hcall & Hbuf & Hpar & _).
  exists out, w'. split; [exact Hcall |]. split; [exact Hbuf | exact Hpar].
Defined.

(** C7: for a network built by [GSN.__init__] with any number of hidden
    layers and any requested count n >= 1, [sample(initial, n)] returns
    the row-stack of a sequence of exactly n arrays, the seed and then one
    visible prediction for each of the n - 1 iterations: the list [samples]
    of [sample_some_numbers_single_layer] for one hidden layer, the list
    [visible_chain] of [sample_some_numbers] otherwise. *)
Theorem sample_length (B : backend) a s g s0 (initial : tensor B) n k rows
    (w : world B) :
  1 <= arg_layers a -> 1 <= arg_walkbacks a ->
  arg_weights_list a = None -> arg_bias_list a = None ->
  GSN_init a s = Ok (g, s0) ->
  1 <= n -> 1 <= k -> shape B initial !! 0 = Some rows ->
  exists samples sampled w',
    sample B g initial n k w = Ok ((np_vstack B samples, sampled), w') /\
    length samples = n /\
    length (tail samples) = n - 1 /\
    ((layers g = 1 /\ sampled = None /\
      single_layer_samples B g initial n w = Ok (samples, w')) \/
     (layers g <> 1 /\
      exists st, multi_layer_samples B g initial n k w = Ok (st, w') /\
                 visible_chain st = samples /\
                 sampled = Some (sampled_h st))).
Proof.
  intros HL Hwb HWn Hbn Hinit Hn Hk Hrows.
  destruct (GSN_init_Ok a s HL Hwb HWn Hbn) as (g' & s' & Heq & Hg).
  rewrite Hinit in Heq. injection Heq as <- <-.
  destruct (sample_Ok B a g Hg initial n k rows w Hk Hrows)
    as (rest & sampled & w' & Heq & Hlen & Hmode).
  exists (initial :: rest), sampled, w'. split; [exact Heq |].
  cbn [length tail]. repeat split; [lia | lia | exact Hmode].
Qed.

Lemma sample_length_witness :
  exists g s0,
    GSN_init example_args builder0 = Ok (g, s0) /\
    exists samples sampled w',
      sample Z_backend g 7%Z 4 1 Z_world = Ok ((np_vstack Z_backend samples, sampled), w') /\
      length samples = 4 /\ length (tail samples) = 4 - 1.
Proof.
  destruct (GSN_init example_args builder0) as [[g s0]|e] eqn:E;
    [| vm_compute in E; discriminate E].
  exists g, s0. split; [reflexivity |].
  destruct (sample_length Z_backend example_args builder0 g s0 7%Z 4 1 1 Z_world
              ltac:(cbn; lia) ltac:(cbn; lia) eq_refl eq_refl E
              ltac:(lia) ltac:(lia) eq_refl)
    as (samples & sampled & w' & Heq & Hlen & Htl & _).
  exists samples, sampled, w'. auto.
Defined.

(** C10: in both sampling modes the first array of the sequence that
    [sample(initial, n)] stacks is the seed [initial] itself, whatever the
    noise functions do: the noised copy only enters the network state. *)
Theorem sample_starts_with_seed (B : backend) a s g s0 (initial : tensor B) n k rows
    (w : world B) :
  1 <= arg_layers a -> 1 <= arg_walkbacks a ->
  arg_weights_list a = None -> arg_bias_list a = None ->
  GSN_init a s = Ok (g, s0) ->
  1 <= k -> shape B initial !! 0 = Some rows ->
  exists rest sampled w',
    sample B g initial n k w = Ok ((np_vstack B (initial :: rest), sampled), w') /\
    ((layers g = 1 /\
      single_layer_samples B g initial n w = Ok (initial :: rest, w')) \/
     (layers g <> 1 /\
      exists st, multi_layer_samples B g initial n k w = Ok (st, w') /\
                 visible_chain st = initial :: rest)).
Proof.
  intros HL Hwb HWn Hbn Hinit Hk Hrows.
  destruct (GSN_init_Ok a s HL Hwb HWn Hbn) as (g' & s' & Heq & Hg).
  rewrite Hinit in Heq. injection Heq as <- <-.
  destruct (sample_Ok B a g Hg initial n k rows w Hk Hrows)
    as (rest & sampled & w' & Heq & _ & Hmode).
  exists rest, sampled, w'. split; [exact Heq |].
  destruct Hmode as [(H1 & _ & H3) | (H1 & st & H2 & H3 & _)];
    [left | right]; eauto.
Qed.

Lemma sample_starts_with_seed_witness :
  exists g s0,
    GSN_init example_args builder0 = Ok (g, s0) /\
    exists rest sampled w',
      sample Z_backend g 7%Z 4 1 Z_world =
        Ok ((np_vstack Z_backend (7%Z :: rest), sampled), w').
Proof.
  destruct (GSN_init example_args builder0) as [[g s0]|e] eqn:E;
    [| vm_compute in E; discriminate E].
  exists g, s0. split; [reflexivity |].
  destruct (sample_starts_with_seed Z_backend example_args builder0 g s0 7%Z 4 1 1
              Z_world ltac:(cbn; lia) ltac:(cbn; lia) eq_refl eq_refl E
              ltac:(lia) eq_refl)
    as (rest & sampled & w' & Heq & _).
  exists rest, sampled, w'. exact Heq.
Defined.

(** * Further properties of the graph helpers *)

Lemma bind_Raise {S A B} (m : SE S A) (f : A -> SE S B) s e :
  m s = Raise e -> (m ≫= f) s = Raise e.
Proof. unfold mbind, SE_bind. intros ->. reflexivity. Qed.

(** ** The three outcomes of one layer update *)

Lemma topological_rule_Some_lt hiddens W b i pre :
  topological_rule hiddens W b i = Some pre -> i < length hiddens.
Proof.
  unfold topological_rule. intros H.
  destruct (decide (i = 0)) as [-> | Hi0].
  - rewrite bool_decide_eq_true_2 in H by reflexivity.
    destruct (hiddens !! 1) eqn:E; [| discriminate].
    apply lookup_lt_Some in E. lia.
  - rewrite bool_decide_eq_false_2 in H by exact Hi0.
    destruct (decide (i = length hiddens - 1)) as [Ht | Ht].
    + rewrite bool_decide_eq_true_2 in H by exact Ht.
      destruct (hiddens !! (i - 1)) eqn:E; [| discriminate].
      apply lookup_lt_Some in E. lia.
    + rewrite bool_decide_eq_false_2 in H by exact Ht.
      destruct (hiddens !! (i + 1)) eqn:E; [| discriminate].
      apply lookup_lt_Some in E. lia.
Qed.

(** A missing item makes the update fail with [IndexError]. *)
Lemma simple_update_layer_missing hiddens W b chain i c s :
  topological_rule hiddens W b i = None ->
  simple_update_layer hiddens W b chain i c s = Raise IndexError.
Proof.
  unfold topological_rule, simple_update_layer.
  destruct (decide (i = 0)) as [-> | Hi0].
  - rewrite !(bool_decide_eq_true_2 (0 = 0)) by reflexivity.
    cbn [Nat.add]. unfold getitem.
    destruct (W !! 0); [| reflexivity].
    destruct (hiddens !! 1); [| reflexivity].
    destruct (b !! 0); [discriminate | reflexivity].
  - rewrite !(bool_decide_eq_false_2 (i = 0)) by exact Hi0.
    destruct (decide (i = length hiddens - 1)) as [Ht | Ht].
    + rewrite !(bool_decide_eq_true_2 (i = length hiddens - 1)) by exact Ht.
      unfold getitem.
      destruct (W !! (i - 1)); [| destruct (hiddens !! (i - 1)); reflexivity].
      destruct (hiddens !! (i - 1)); [| reflexivity].
      destruct (b !! i); [discriminate | reflexivity].
    + rewrite !(bool_decide_eq_false_2 (i = length hiddens - 1)) by exact Ht.
      unfold getitem.
      destruct (W !! (i - 1));
        [| destruct (hiddens !! (i + 1)), (hiddens !! (i - 1)), (W !! i); reflexivity].
      destruct (W !! i);
        [| destruct (hiddens !! (i + 1)), (hiddens !! (i - 1)); reflexivity].
      destruct (hiddens !! (i + 1)); [| reflexivity].
      destruct (hiddens !! (i - 1)); [| reflexivity].
      destruct (b !! i); [discriminate | reflexivity].
Qed.

Ltac finish_run :=
  eexists;
  rewrite ?Nat.add_0_r; repeat rewrite <- app_assoc;
  split; [f_equal; f_equal; try lia; f_equal; lia | reflexivity].

(** With every item present, and a chain to append to when the layer is
    the visible one, the update returns. *)
Lemma simple_update_layer_present hiddens W b chain i c s pre :
  topological_rule hiddens W b i = Some pre -> (i = 0 -> is_Some chain) ->
  exists l,
    simple_update_layer hiddens W b chain i c s =
      Ok ((<[i := layer_value c i (MRG s) pre]> hiddens, new_chain c i pre chain),
          mkBuilder (MRG s + layer_streams c i) (logger s ++ l)) /\
    updated_layers l = [].
Proof.
  intros Hrule Hchain.
  assert (Hlt : i < length hiddens) by (eapply topological_rule_Some_lt; eauto).
  revert Hrule.
  unfold simple_update_layer, topological_rule, layer_value, layer_streams, new_chain.
  destruct (decide (i = 0)) as [-> | Hi0].
  - destruct Hchain as [ch ->]; [reflexivity |].
    rewrite !(bool_decide_eq_true_2 (0 = 0)) by reflexivity.
    rewrite (bool_decide_eq_false_2 (0 = 1)) by discriminate.
    destruct (hiddens !! 1) as [h1|] eqn:Hh1; [| discriminate].
    destruct (W !! 0) as [w|] eqn:Hw; [| discriminate].
    destruct (b !! 0) as [b0|] eqn:Hb0; [| discriminate].
    cbn [mbind option_bind fmap option_fmap option_map]. intros [= <-].
    unfold visible_value, append, salt_and_pepper, MRG_binomial, fresh_stream.
    destruct (input_sampling c); mrun; finish_run.
  - rewrite !(bool_decide_eq_false_2 (i = 0)) by exact Hi0.
    unfold hidden_value, noise_on, add_gaussian_noise, fresh_stream.
    destruct (decide (i = length hiddens - 1)) as [Htop | Htop].
    + rewrite !(bool_decide_eq_true_2 (i = length hiddens - 1)) by exact Htop.
      destruct (hiddens !! (i - 1)) as [hp|] eqn:Hhp; [| discriminate].
      destruct (W !! (i - 1)) as [wp|] eqn:Hwp; [| discriminate].
      destruct (b !! i) as [bi|] eqn:Hbi; [| discriminate].
      cbn [mbind option_bind]. intros [= <-].
      destruct (bool_decide (i = 1) && noiseless_h1 c), (add_noise c);
        mrun; finish_run.
    + rewrite !(bool_decide_eq_false_2 (i = length hiddens - 1)) by exact Htop.
      destruct (hiddens !! (i + 1)) as [hn|] eqn:Hhn; [| discriminate].
      destruct (hiddens !! (i - 1)) as [hp|] eqn:Hhp; [| discriminate].
      destruct (W !! i) as [w|] eqn:Hw; [| discriminate].
      destruct (W !! (i - 1)) as [wp|] eqn:Hwp; [| discriminate].
      destruct (b !! i) as [bi|] eqn:Hbi; [| discriminate].
      cbn [mbind option_bind]. intros [= <-].
      destruct (bool_decide (i = 1) && noiseless_h1 c), (add_noise c);
        mrun; finish_run.
Qed.

(** Every item present but no chain: the visible update fails on
    [append]. *)
Lemma simple_update_layer_no_chain hiddens W b c s pre :
  topological_rule hiddens W b 0 = Some pre ->
  simple_update_layer hiddens W b None 0 c s = Raise AttributeError.
Proof.
  intros Hrule.
  assert (Hlt : 0 < length hiddens) by (eapply topological_rule_Some_lt; eauto).
  revert Hrule. unfold simple_update_layer, topological_rule.
  rewrite !(bool_decide_eq_true_2 (0 = 0)) by reflexivity.
  rewrite (bool_decide_eq_false_2 (0 = 1)) by discriminate.
  destruct (hiddens !! 1) as [h1|] eqn:Hh1; [| discriminate].
  destruct (W !! 0) as [w|] eqn:Hw; [| discriminate].
  destruct (b !! 0) as [b0|] eqn:Hb0; [| discriminate].
  intros _. mrun. reflexivity.
Qed.

Lemma simple_update_layer_Ok_inv hiddens W b chain i c s h' chain' s' :
  simple_update_layer hiddens W b chain i c s = Ok ((h', chain'), s') ->
  i < length hiddens /\ length h' = length hiddens /\
  (forall j, j <> i -> h' !! j = hiddens !! j) /\
  (i <> 0 -> chain' = chain) /\
  (i = 0 -> exists ch p, chain = Some ch /\ chain' = Some (ch ++ [p])) /\
  MRG s <= MRG s' /\
  updated_layers (logger s') = updated_layers (logger s).
Proof.
  intros Hrun.
  destruct (topological_rule hiddens W b i) as [pre|] eqn:Hrule;
    [| rewrite simple_update_layer_missing in Hrun by exact Hrule; discriminate].
  assert (Hchain : i = 0 -> is_Some chain).
  { intros ->. destruct chain; [eauto |].
    rewrite (simple_update_layer_no_chain _ _ _ _ _ _ Hrule) in Hrun. discriminate. }
  destruct (simple_update_layer_present hiddens W b chain i c s pre Hrule Hchain)
    as (l & Heq & Hl).
  rewrite Heq in Hrun. injection Hrun as <- <- <-.
  split; [eapply topological_rule_Some_lt; eauto |].
  split; [apply length_insert |].
  split; [intros j Hj; apply list_lookup_insert_ne; congruence |].
  unfold new_chain. split.
  { intros Hi. rewrite bool_decide_eq_false_2 by exact Hi. reflexivity. }
  split.
  { intros ->. destruct (Hchain eq_refl) as [ch ->].
    rewrite bool_decide_eq_true_2 by reflexivity. cbn. eauto. }
  cbn [MRG logger]. split; [lia |].
  rewrite updated_layers_app, Hl, app_nil_r. reflexivity.
Qed.

(** X1: a layer update that returns has changed layer [i] and nothing
    else in the stack, whose length it keeps; it leaves the chain alone
    unless [i = 0], where it appends exactly one entry; it takes streams
    from [MRG] but never gives one back, and writes no ['updating layer']
    record of its own. *)
Theorem layer_update_frame hiddens W b chain i c s h' chain' s' :
  simple_update_layer hiddens W b chain i c s = Ok ((h', chain'), s') ->
  i < length hiddens /\ length h' = length hiddens /\
  (forall j, j <> i -> h' !! j = hiddens !! j) /\
  (i <> 0 -> chain' = chain) /\
  (i = 0 -> exists ch p, chain = Some ch /\ chain' = Some (ch ++ [p])) /\
  MRG s <= MRG s' /\
  updated_layers (logger s') = updated_layers (logger s).
Proof. apply simple_update_layer_Ok_inv. Qed.

Lemma layer_update_frame_witness :
  exists h' chain' s',
    simple_update_layer example_hiddens example_weights example_biases None 1
      example_config builder0 = Ok ((h', chain'), s') /\
    length h' = 3 /\ h' !! 0 = Some (Input "X") /\ h' !! 2 = Some (Input "H_2") /\
    chain' = None.
Proof.
  destruct (simple_update_layer example_hiddens example_weights example_biases None 1
              example_config builder0) as [[[h' chain'] s']|e] eqn:E;
    [| vm_compute in E; discriminate E].
  exists h', chain', s'. split; [reflexivity |].
  destruct (layer_update_frame _ _ _ _ _ _ _ _ _ _ E) as (_ & Hlen & Hother & Hch & _).
  split; [exact Hlen |].
  split; [apply (Hother 0); discriminate |].
  split; [apply (Hother 2); discriminate |].
  apply Hch. discriminate.
Defined.

(** X2: an update of a layer index outside the stack, of a layer without
    a bias, or with an empty weight list raises [IndexError]. *)
Theorem layer_update_index_error hiddens W b chain i c s :
  length hiddens <= i \/ b !! i = None \/ W = [] ->
  simple_update_layer hiddens W b chain i c s = Raise IndexError.
Proof.
  intros H. apply simple_update_layer_missing.
  destruct (topological_rule hiddens W b i) as [pre|] eqn:Hrule; [| reflexivity].
  exfalso.
  pose proof (topological_rule_Some_lt _ _ _ _ _ Hrule) as Hlt.
  revert Hrule. unfold topological_rule.
  destruct H as [H | [H | ->]]; [lia | |].
  - rewrite H.
    destruct (bool_decide (i = 0)) eqn:E0.
    + apply bool_decide_eq_true_1 in E0. subst i. rewrite H.
      destruct (hiddens !! 1), (W !! 0); discriminate.
    + destruct (bool_decide (i = length hiddens - 1)).
      * destruct (hiddens !! (i - 1)), (W !! (i - 1)); discriminate.
      * destruct (hiddens !! (i + 1)), (hiddens !! (i - 1)), (W !! i), (W !! (i - 1));
          discriminate.
  - destruct (bool_decide (i = 0)).
    + destruct (hiddens !! 1); discriminate.
    + destruct (bool_decide (i = length hiddens - 1)).
      * destruct (hiddens !! (i - 1)); discriminate.
      * destruct (hiddens !! (i + 1)), (hiddens !! (i - 1)); discriminate.
Qed.

Lemma layer_update_index_error_witness :
  simple_update_layer example_hiddens example_weights example_biases (Some []) 3
    example_config builder0 = Raise IndexError.
Proof.
  apply layer_update_index_error. left. cbn. lia.
Defined.

(** X3: the visible update needs a chain: with the three items it reads
    in place but [None] for the chain it raises [AttributeError]. *)
Theorem visible_update_without_chain hiddens W b c s h1 w0 b0 :
  hiddens !! 1 = Some h1 -> W !! 0 = Some w0 -> b !! 0 = Some b0 ->
  simple_update_layer hiddens W b None 0 c s = Raise AttributeError.
Proof.
  intros Hh HW Hb.
  apply (simple_update_layer_no_chain _ _ _ _ _ (Add (Dot h1 (Transpose w0)) b0)).
  unfold topological_rule. rewrite bool_decide_eq_true_2 by reflexivity.
  rewrite Hh, HW, Hb. reflexivity.
Qed.

Lemma visible_update_without_chain_witness :
  simple_update_layer example_hiddens example_weights example_biases None 0
    example_config builder0 = Raise AttributeError.
Proof.
  exact (visible_update_without_chain example_hiddens example_weights example_biases
           example_config builder0 _ _ _ eq_refl eq_refl eq_refl).
Defined.

(** ** When the chain builders return *)

Lemma bind_Ok_inv {S A B} (m : SE S A) (f : A -> SE S B) s r :
  (m ≫= f) s = Ok r -> exists a s1, m s = Ok (a, s1) /\ f a s1 = Ok r.
Proof.
  unfold mbind, SE_bind. destruct (m s) as [[a s1]|e]; [eauto | discriminate].
Qed.

(** What a loop that returned tells about its iterations. *)
Lemma for_each_Ok_inv {St A S} (I : S -> St -> Prop)
    (body : A -> S -> SE St S) (l : list A) st s st' s' :
  (forall x st s st' s', x ∈ l -> I st s -> body x st s = Ok (st', s') -> I st' s') ->
  I st s -> for_each l body st s = Ok (st', s') ->
  I st' s' /\
  forall x, x ∈ l -> exists st0 s0 st1 s1, I st0 s0 /\ body x st0 s0 = Ok (st1, s1).
Proof.
  revert st s. induction l as [|x l IH]; intros st s Hbody HI Hrun.
  - injection Hrun as <- <-. split; [exact HI |]. intros x Hx. inversion Hx.
  - cbn [for_each] in Hrun. apply bind_Ok_inv in Hrun as (st1 & s1 & Hx & Hrest).
    assert (HI1 : I st1 s1) by (eapply Hbody; eauto; left).
    destruct (IH st1 s1) as [HI' Hall]; [| exact HI1 | exact Hrest |].
    { intros y st0 s0 st2 s2 Hy. apply Hbody. right. exact Hy. }
    split; [exact HI' |].
    intros y Hy. apply elem_of_cons in Hy as [-> | Hy]; [| apply Hall, Hy].
    exists st, s, st1, s1. auto.
Qed.

Lemma index_error_only_bind {S A B} (m : SE S A) (f : A -> SE S B) s :
  index_error_only (m s) ->
  (forall a s1, m s = Ok (a, s1) -> index_error_only (f a s1)) ->
  index_error_only ((m ≫= f) s).
Proof.
  intros Hm Hf e. unfold mbind, SE_bind.
  destruct (m s) as [[a s1]|e'] eqn:E.
  - apply Hf. reflexivity.
  - intros [= <-]. apply Hm. reflexivity.
Qed.

Lemma index_error_only_Ok {A} (a : A) : index_error_only (Ok a).
Proof. intros e H. discriminate H. Qed.

Lemma index_error_only_for_each {St A S} (I : S -> Prop)
    (body : A -> S -> SE St S) (l : list A) st s :
  (forall x st s, x ∈ l -> I st -> index_error_only (body x st s)) ->
  (forall x st s st' s', x ∈ l -> I st -> body x st s = Ok (st', s') -> I st') ->
  I st -> index_error_only (for_each l body st s).
Proof.
  revert st s. induction l as [|x l IH]; intros st s Herr Hinv HI.
  - apply index_error_only_Ok.
  - cbn [for_each]. apply index_error_only_bind.
    + apply Herr; [left | exact HI].
    + intros st1 s1 Hx. apply IH.
      * intros y st0 s0 Hy. apply Herr. right. exact Hy.
      * intros y st0 s0 st2 s2 Hy. apply Hinv. right. exact Hy.
      * eapply Hinv; eauto. left.
Qed.

Lemma simple_update_layer_index_error_only hiddens W b chain i c s :
  (i = 0 -> is_Some chain) ->
  index_error_only (simple_update_layer hiddens W b chain i c s).
Proof.
  intros Hchain e.
  destruct (topological_rule hiddens W b i) as [pre|] eqn:Hrule.
  - destruct (simple_update_layer_present hiddens W b chain i c s pre Hrule Hchain)
      as (l & -> & _).
    discriminate.
  - rewrite simple_update_layer_missing by exact Hrule. intros [= <-]. reflexivity.
Qed.

Lemma update_odd_layers_index_error_only hiddens W b c s :
  index_error_only (update_odd_layers hiddens W b c s).
Proof.
  unfold update_odd_layers.
  apply (index_error_only_for_each (fun _ => True)); [| auto | exact I].
  intros x st s0 Hx _. apply py_range_bounds in Hx.
  apply index_error_only_bind; [apply index_error_only_Ok |].
  intros [] s1 _. apply index_error_only_bind.
  - apply simple_update_layer_index_error_only. lia.
  - intros [h ch] s2 _. apply index_error_only_Ok.
Qed.

Lemma update_even_layers_index_error_only hiddens W b chain c s :
  index_error_only (update_even_layers hiddens W b (Some chain) c s).
Proof.
  unfold update_even_layers.
  apply (index_error_only_for_each (fun r => is_Some r.2)); [| | cbn; eauto].
  - intros x [h ch] s0 _ Hch. cbn [snd] in Hch.
    apply index_error_only_bind; [apply index_error_only_Ok |].
    intros [] s1 _. apply simple_update_layer_index_error_only. auto.
  - intros x [h ch] s0 [h' ch'] s' _ Hch Hrun. cbn [snd] in *.
    apply bind_Ok_inv in Hrun as ([] & s1 & _ & Hrun).
    destruct (simple_update_layer_Ok_inv _ _ _ _ _ _ _ _ _ _ Hrun) as (_ & _ & _ & Hne & H0 & _).
    destruct (decide (x = 0)) as [Hx | Hx].
    + destruct (H0 Hx) as (ch0 & p & _ & ->). eauto.
    + rewrite (Hne Hx). exact Hch.
Qed.

Lemma update_even_layers_Ok_chain hiddens W b chain c s r s' :
  update_even_layers hiddens W b (Some chain) c s = Ok (r, s') -> is_Some r.2.
Proof.
  unfold update_even_layers. intros Hrun.
  refine (proj1 (for_each_Ok_inv (fun r _ => is_Some r.2) _ _ _ _ _ _ _ _ Hrun)).
  - intros x [h ch] s0 [h' ch'] s1 _ Hch Hx. cbn [snd] in *.
    apply bind_Ok_inv in Hx as ([] & s2 & _ & Hx).
    destruct (simple_update_layer_Ok_inv _ _ _ _ _ _ _ _ _ _ Hx) as (_ & _ & _ & Hne & H0 & _).
    destruct (decide (x = 0)) as [Hx0 | Hx0].
    + destruct (H0 Hx0) as (ch0 & p & _ & ->). eauto.
    + rewrite (Hne Hx0). exact Hch.
  - cbn. eauto.
Qed.

Lemma update_layers_index_error_only hiddens W b chain c s :
  index_error_only (update_layers hiddens W b (Some chain) c s).
Proof.
  unfold update_layers.
  apply index_error_only_bind; [apply index_error_only_Ok |].
  intros [] s1 _. apply index_error_only_bind;
    [apply update_odd_layers_index_error_only |].
  intros h1 s2 _. apply index_error_only_bind; [apply index_error_only_Ok |].
  intros [] s3 _. apply index_error_only_bind;
    [apply update_even_layers_index_error_only |].
  intros r s4 _. apply index_error_only_bind; apply index_error_only_Ok ||
    (intros; apply index_error_only_Ok).
Qed.

Lemma topological_rule_Some_items hiddens W b i pre :
  topological_rule hiddens W b i = Some pre ->
  is_Some (b !! i) /\
  (i = 0 -> 2 <= length hiddens /\ is_Some (W !! 0)) /\
  (i <> 0 -> is_Some (W !! (i - 1))).
Proof.
  unfold topological_rule. repeat case_bool_decide; subst.
  - destruct (hiddens !! 1) as [h1|] eqn:Hh; [| discriminate].
    destruct (W !! 0) as [w|]; [| discriminate].
    destruct (b !! 0) as [b0|]; [| discriminate]. intros _.
    apply lookup_lt_Some in Hh. split; [eauto |]. split; [| done]. intros _. split; [lia | eauto].
  - destruct (hiddens !! _) as [h1|]; [| discriminate].
    destruct (W !! _) as [w|]; [| discriminate].
    destruct (b !! _) as [b0|]; [| discriminate]. intros _.
    split; [eauto |]. split; [done | eauto].
  - destruct (hiddens !! (i + 1)) as [h1|]; [| discriminate].
    destruct (hiddens !! (i - 1)) as [h0|]; [| discriminate].
    destruct (W !! i) as [w|]; [| discriminate].
    destruct (W !! (i - 1)) as [w0|]; [| discriminate].
    destruct (b !! i) as [b0|]; [| discriminate]. intros _. split; [eauto |].
    split; [done | eauto].
Qed.

Lemma simple_update_layer_Ok_rule hiddens W b chain i c s r :
  simple_update_layer hiddens W b chain i c s = Ok r ->
  is_Some (topological_rule hiddens W b i).
Proof.
  destruct (topological_rule hiddens W b i) eqn:E; [eauto |].
  rewrite simple_update_layer_missing by exact E. discriminate.
Qed.

Lemma update_odd_layers_Ok_inv hiddens W b c s h' s' :
  update_odd_layers hiddens W b c s = Ok (h', s') ->
  length h' = length hiddens /\
  forall x, x ∈ py_range 1 (length hiddens) 2 ->
    exists st, length st = length hiddens /\ is_Some (topological_rule st W b x).
Proof.
  unfold update_odd_layers. intros Hrun.
  apply (for_each_Ok_inv (fun st (_ : builder) => length st = length hiddens))
    in Hrun as [Hlen Hall]; [| | reflexivity].
  - split; [exact Hlen |].
    intros x Hx. destruct (Hall x Hx) as (st0 & s0 & st1 & s1 & Hl & Hbody).
    exists st0. split; [exact Hl |].
    apply bind_Ok_inv in Hbody as ([] & s2 & _ & Hbody).
    apply bind_Ok_inv in Hbody as (r & s3 & Hbody & _).
    eapply simple_update_layer_Ok_rule, Hbody.
  - intros x st0 s0 st1 s1 _ Hl Hbody.
    apply bind_Ok_inv in Hbody as ([] & s2 & _ & Hbody).
    apply bind_Ok_inv in Hbody as ([h ch] & s3 & Hbody & Hret).
    injection Hret as <- <-.
    destruct (simple_update_layer_Ok_inv _ _ _ _ _ _ _ _ _ _ Hbody) as (_ & -> & _).
    exact Hl.
Qed.

Lemma update_even_layers_Ok_inv hiddens W b chain c s r s' :
  update_even_layers hiddens W b chain c s = Ok (r, s') ->
  length r.1 = length hiddens /\
  forall x, x ∈ py_range 0 (length hiddens) 2 ->
    exists st, length st = length hiddens /\ is_Some (topological_rule st W b x).
Proof.
  unfold update_even_layers. intros Hrun.
  apply (for_each_Ok_inv
           (fun (st : list expr * option (list expr)) (_ : builder) =>
              length st.1 = length hiddens))
    in Hrun as [Hlen Hall]; [| | reflexivity].
  - split; [exact Hlen |].
    intros x Hx. destruct (Hall x Hx) as ([st0 ch0] & s0 & st1 & s1 & Hl & Hbody).
    exists st0. split; [exact Hl |].
    apply bind_Ok_inv in Hbody as ([] & s2 & _ & Hbody).
    eapply simple_update_layer_Ok_rule, Hbody.
  - intros x [st0 ch0] s0 [st1 ch1] s1 _ Hl Hbody. cbn [fst] in *.
    apply bind_Ok_inv in Hbody as ([] & s2 & _ & Hbody).
    destruct (simple_update_layer_Ok_inv _ _ _ _ _ _ _ _ _ _ Hbody) as (_ & -> & _).
    exact Hl.
Qed.

Lemma elem_of_py_range_even x n :
  x ∈ py_range 0 n 2 <-> x < n /\ Nat.even x = true.
Proof.
  rewrite py_range_even. unfold even_indices.
  rewrite list_elem_of_filter, elem_of_seq. intuition lia.
Qed.

Lemma elem_of_py_range_odd x n :
  x ∈ py_range 1 n 2 <-> x < n /\ Nat.odd x = true.
Proof.
  rewrite py_range_odd. unfold odd_indices.
  rewrite list_elem_of_filter, elem_of_seq. intuition lia.
Qed.

(** A sweep that returns was run on a stack that fits the parameter
    lists (or on no layer at all). *)
Lemma update_layers_Ok_inv hiddens W b chain c s r s' :
  update_layers hiddens W b chain c s = Ok (r, s') ->
  length r.1 = length hiddens /\ (hiddens <> [] -> well_formed hiddens W b).
Proof.
  unfold update_layers. intros Hrun.
  apply bind_Ok_inv in Hrun as ([] & s1 & _ & Hrun).
  apply bind_Ok_inv in Hrun as (h1 & s2 & Hodd & Hrun).
  apply bind_Ok_inv in Hrun as ([] & s3 & _ & Hrun).
  apply bind_Ok_inv in Hrun as (r' & s4 & Heven & Hrun).
  apply bind_Ok_inv in Hrun as ([] & s5 & _ & Hrun).
  injection Hrun as <- <-.
  apply update_odd_layers_Ok_inv in Hodd as [Hl1 Hodd].
  apply update_even_layers_Ok_inv in Heven as [Hl2 Heven].
  rewrite Hl1 in Hl2, Heven. split; [exact Hl2 |].
  intros Hne. assert (Hn : 1 <= length hiddens) by (destruct hiddens; [done | cbn; lia]).
  destruct (Heven 0) as (st & Hst & [pre Hpre]).
  { apply elem_of_py_range_even. split; [lia | reflexivity]. }
  apply topological_rule_Some_items in Hpre as (_ & H0 & _).
  destruct (H0 eq_refl) as [H2 _]. rewrite Hst in H2.
  assert (Htop : exists st, length st = length hiddens /\
                   is_Some (topological_rule st W b (length hiddens - 1))).
  { destruct (Nat.even (length hiddens - 1)) eqn:E.
    - apply Heven, elem_of_py_range_even. split; [lia | exact E].
    - apply Hodd, elem_of_py_range_odd. split; [lia |].
      unfold Nat.odd. rewrite E. reflexivity. }
  destruct Htop as (st' & Hst' & [pre' Hpre']).
  apply topological_rule_Some_items in Hpre' as (Hb & _ & HW).
  apply lookup_lt_is_Some in Hb.
  specialize (HW ltac:(lia)). apply lookup_lt_is_Some in HW.
  unfold well_formed. lia.
Qed.

Lemma returns_index_error_only {S A} (m : SE S A) s Q :
  returns m s Q -> index_error_only (m s).
Proof. intros (a & s' & -> & _). apply index_error_only_Ok. Qed.

Lemma returns_is_Ok {S A} (m : SE S A) s Q : returns m s Q -> is_Ok (m s) = true.
Proof. intros (a & s' & -> & _). reflexivity. Qed.

Lemma is_Ok_inv {A} (r : result A) : is_Ok r = true -> exists a, r = Ok a.
Proof. destruct r; [eauto | discriminate]. Qed.

Lemma update_layers_Ok_chain hiddens W b chain c s r s' :
  update_layers hiddens W b (Some chain) c s = Ok (r, s') -> is_Some r.2.
Proof.
  unfold update_layers. intros Hrun.
  apply bind_Ok_inv in Hrun as ([] & s1 & _ & Hrun).
  apply bind_Ok_inv in Hrun as (h1 & s2 & _ & Hrun).
  apply bind_Ok_inv in Hrun as ([] & s3 & _ & Hrun).
  apply bind_Ok_inv in Hrun as (r' & s4 & Heven & Hrun).
  apply bind_Ok_inv in Hrun as ([] & s5 & _ & Hrun).
  injection Hrun as <- <-.
  eapply update_even_layers_Ok_chain, Heven.
Qed.

Lemma corrupt_input_returns X c s : returns (corrupt_input X c) s (fun _ _ => True).
Proof.
  unfold corrupt_input, salt_and_pepper.
  destruct (add_noise c); eexists _, _; split; try reflexivity; exact I.
Qed.

(** X4: one full sweep over a non-empty chain argument returns exactly
    when the stack is empty or fits the parameter lists (at least two
    layers, a weight below every layer but the first, a bias for every
    layer); whenever it does not return, the exception is [IndexError]. *)
Theorem update_layers_returns_iff hiddens W b chain c s :
  (is_Ok (update_layers hiddens W b (Some chain) c s) = true <->
   hiddens = [] \/ well_formed hiddens W b) /\
  index_error_only (update_layers hiddens W b (Some chain) c s).
Proof.
  split; [| apply update_layers_index_error_only].
  split.
  - intros ([r s'] & Hrun)%is_Ok_inv.
    apply update_layers_Ok_inv in Hrun as [_ Hwf].
    destruct hiddens; [left; reflexivity | right; apply Hwf; discriminate].
  - intros [-> | Hwf]; [reflexivity |].
    eapply returns_is_Ok, update_layers_Ok, Hwf.
Qed.

Lemma build_gsn_Ok_inv X W b c walkbacks s r :
  build_gsn X W b c walkbacks s = Ok r ->
  walkbacks = 0 \/ (1 <= length W /\ length W < length b).
Proof.
  destruct r as [r s']. intros Hrun.
  destruct walkbacks as [|k]; [left; reflexivity | right].
  unfold build_gsn in Hrun.
  apply bind_Ok_inv in Hrun as (X_init & s1 & _ & Hrun).
  apply bind_Ok_inv in Hrun as (h & s2 & Hinit & Hrun).
  destruct (init_hiddens_Ok X_init W s1) as (h0 & s0 & Heq & _ & Hlen & _).
  rewrite Heq in Hinit. injection Hinit as -> ->.
  apply bind_Ok_inv in Hrun as ([] & s3 & _ & Hrun).
  apply bind_Ok_inv in Hrun as ([h' ch'] & s4 & Hloop & _).
  apply (for_each_Ok_inv
           (fun (st : list expr * option (list expr)) (_ : builder) =>
              length st.1 = S (length W)))
    in Hloop as [_ Hall]; [| | exact Hlen].
  - destruct (Hall 0) as ([st0 ch0] & s5 & st1 & s6 & Hl & Hbody).
    { rewrite py_range_step1. apply elem_of_seq. lia. }
    cbn [fst] in Hl.
    apply bind_Ok_inv in Hbody as ([] & s7 & _ & Hbody).
    destruct st1 as [st1 ch1].
    apply update_layers_Ok_inv in Hbody as [_ Hwf].
    destruct Hwf as (H2 & HW & Hb); [destruct st0; [discriminate Hl | discriminate] |].
    lia.
  - intros x [st0 ch0] s5 [st1 ch1] s6 _ Hl Hbody. cbn [fst] in *.
    apply bind_Ok_inv in Hbody as ([] & s7 & _ & Hbody).
    apply update_layers_Ok_inv in Hbody as [Hl' _]. cbn [fst] in Hl'. congruence.
Qed.

(** Without a walkback the chain stays empty. *)
Lemma build_gsn_zero X W b c s :
  exists hid s', build_gsn X W b c 0 s = Ok ((Some [], hid), s') /\
                 length hid = S (length W).
Proof.
  unfold build_gsn.
  destruct (corrupt_input_returns X c s) as (X_init & s1 & HX & _).
  destruct (init_hiddens_Ok X_init W s1) as (h0 & s0 & Heq & _ & Hlen & _).
  exists h0, (mkBuilder (MRG s0) (logger s0 ++ [Building_the_GSN_graph 0])).
  split; [| exact Hlen].
  erewrite bind_Ok by exact HX. erewrite bind_Ok by exact Heq. reflexivity.
Qed.

Lemma walkbacks_index_error_only
    (record : nat -> msg) hiddens W b c walkbacks chain s :
  index_error_only
    (for_each (py_range 0 walkbacks 1)
       (fun i '(hiddens, p_X_chain) =>
          maybeLog (record i);; update_layers hiddens W b p_X_chain c)
       (hiddens, Some chain) s).
Proof.
  apply (index_error_only_for_each
           (fun st : list expr * option (list expr) => is_Some st.2));
    [| | cbn; eauto].
  - intros x [st ch] s4 _ [ch0 Hch]. cbn [snd] in Hch. subst ch.
    apply index_error_only_bind; [apply index_error_only_Ok |].
    intros [] s5 _. apply update_layers_index_error_only.
  - intros x [st ch] s4 [st' ch'] s5 _ [ch0 Hch] Hbody. cbn [snd] in Hch. subst ch.
    apply bind_Ok_inv in Hbody as ([] & s6 & _ & Hbody).
    eapply update_layers_Ok_chain, Hbody.
Qed.

Lemma build_gsn_index_error_only X W b c walkbacks s :
  index_error_only (build_gsn X W b c walkbacks s).
Proof.
  unfold build_gsn.
  apply index_error_only_bind;
    [eapply returns_index_error_only, corrupt_input_returns |].
  intros X_init s1 _. apply index_error_only_bind;
    [eapply returns_index_error_only, init_hiddens_Ok |].
  intros h s2 _. apply index_error_only_bind; [apply index_error_only_Ok |].
  intros [] s3 _. apply index_error_only_bind.
  - apply walkbacks_index_error_only.
  - intros [h' ch'] s4 _. apply index_error_only_Ok.
Qed.

Lemma not_Ok_Raise {A} (r : result A) :
  index_error_only r -> is_Ok r = false -> r = Raise IndexError.
Proof.
  destruct r as [a|e]; [discriminate |].
  intros H _. rewrite (H e eq_refl). reflexivity.
Qed.

(** X5: [build_gsn] returns exactly when no walkback is asked for, or
    there is at least one weight matrix and more biases than weights;
    whenever it does not return, the exception is [IndexError]. *)
Theorem build_gsn_returns_iff X W b c walkbacks s :
  (is_Ok (build_gsn X W b c walkbacks s) = true <->
   walkbacks = 0 \/ (1 <= length W /\ length W < length b)) /\
  index_error_only (build_gsn X W b c walkbacks s).
Proof.
  split; [split | apply build_gsn_index_error_only].
  - intros (r & Hrun)%is_Ok_inv. eapply build_gsn_Ok_inv, Hrun.
  - intros [-> | [HW Hb]].
    + destruct (build_gsn_zero X W b c s) as (hid & s' & -> & _). reflexivity.
    + eapply returns_is_Ok, build_gsn_Ok; assumption.
Qed.

(** X6: with [walkbacks = 0] the chain is empty: [build_gsn] returns it
    as it is, together with the freshly initialised stack, while the three
    builders that read the last chain entry raise [IndexError], whatever
    their other arguments. *)
Theorem no_walkback_edge X0 hiddens W b c cost_function s :
  (exists hid s', build_gsn X0 W b c 0 s = Ok ((Some [], hid), s') /\
                  length hid = S (length W)) /\
  build_gsn_given_hiddens X0 hiddens W b c 0 cost_function s = Raise IndexError /\
  build_gsn_scan X0 W b c 0 cost_function s = Raise IndexError /\
  build_gsn_pxh hiddens W b c 0 s = Raise IndexError.
Proof.
  split; [apply build_gsn_zero |]. split; [reflexivity |]. split; [| reflexivity].
  unfold build_gsn_scan.
  destruct (corrupt_input_returns X0 c s) as (X_init & s1 & HX & _).
  destruct (init_hiddens_Ok X_init W s1) as (h0 & s0 & Heq & _).
  erewrite bind_Ok by exact HX. erewrite bind_Ok by exact Heq. reflexivity.
Qed.

Lemma GSN_init_zero a s : arg_walkbacks a = 0 -> GSN_init a s = Raise IndexError.
Proof.
  intros Hk. unfold GSN_init. rewrite Hk.
  match goal with
  | |- context [build_gsn ?X ?W ?b (init_config a true) 0] =>
      destruct (build_gsn_zero X W b (init_config a true) s) as (hid & s1 & Hb1 & _)
  end.
  erewrite bind_Ok by exact Hb1. cbv beta iota.
  match goal with
  | |- context [build_gsn ?X ?W ?b (init_config a false) 0] =>
      destruct (build_gsn_zero X W b (init_config a false) s1) as (hid2 & s2 & Hb2 & _)
  end.
  erewrite bind_Ok by exact Hb2. reflexivity.
Qed.

Lemma GSN_init_no_layer a s :
  arg_layers a = 0 -> arg_weights_list a = None -> GSN_init a s = Raise IndexError.
Proof.
  intros HL HW.
  destruct (decide (arg_walkbacks a = 0)) as [Hk | Hk]; [apply GSN_init_zero, Hk |].
  unfold GSN_init. rewrite HL, HW.
  apply bind_Raise, not_Ok_Raise; [apply build_gsn_index_error_only |].
  destruct (build_gsn _ _ _ _ _ _) eqn:E; [| reflexivity].
  apply build_gsn_Ok_inv in E as [E | [E _]]; [contradiction | cbn in E; lia].
Qed.

(** X7: a network needs a hidden layer and a walkback.  With the default
    weights, [GSN.__init__] can return only when there is at least one
    hidden layer and at least one walkback: with [walkbacks = 0] the last
    entry of an empty chain is read, with [layers = 0] the visible update
    finds no neighbour.  (The attributes that [__init__] reads without
    assigning them are taken as given, and Theano's own checks of the
    compiled graphs are not part of the model, which therefore returns at
    least as often as the code: the statement is a necessary condition.) *)
Theorem GSN_init_needs_layer_and_walkback a s g s0 :
  arg_weights_list a = None ->
  GSN_init a s = Ok (g, s0) ->
  1 <= arg_layers a /\ 1 <= arg_walkbacks a.
Proof.
  intros HW Hinit. split.
  - destruct (decide (arg_layers a = 0)) as [HL | HL]; [| lia].
    rewrite GSN_init_no_layer in Hinit by assumption. discriminate.
  - destruct (decide (arg_walkbacks a = 0)) as [Hk | Hk]; [| lia].
    rewrite GSN_init_zero in Hinit by assumption. discriminate.
Qed.

Lemma GSN_init_needs_layer_and_walkback_witness :
  exists g s0,
    GSN_init example_args builder0 = Ok (g, s0) /\
    1 <= arg_layers example_args /\ 1 <= arg_walkbacks example_args.
Proof.
  destruct (GSN_init example_args builder0) as [[g s0]|e] eqn:E;
    [| vm_compute in E; discriminate E].
  exists g, s0. split; [reflexivity |].
  exact (GSN_init_needs_layer_and_walkback example_args builder0 g s0 eq_refl E).
Defined.

(** ** The two half sweeps update their layers side by side *)

(** A loop that returned, followed through the items it has processed. *)
Lemma for_each_Ok_ind {St A S} (I : list A -> S -> St -> Prop)
    (body : A -> S -> SE St S) (l : list A) st s st' s' :
  (forall done x rest st s st' s', l = done ++ x :: rest ->
     I done st s -> body x st s = Ok (st', s') -> I (done ++ [x]) st' s') ->
  I [] st s -> for_each l body st s = Ok (st', s') -> I l st' s'.
Proof.
  intros Hbody. 
  assert (Hgen : forall rest done st s, l = done ++ rest -> I done st s ->
            for_each rest body st s = Ok (st', s') -> I l st' s').
  { induction rest as [|x rest IH]; intros done st0 s0 Hl HI Hrun.
    - injection Hrun as <- <-. rewrite Hl, app_nil_r. exact HI.
    - cbn [for_each] in Hrun. apply bind_Ok_inv in Hrun as (st1 & s1 & Hx & Hrest).
      apply (IH (done ++ [x]) st1 s1); [rewrite <- app_assoc; exact Hl | | exact Hrest].
      eapply Hbody; eauto. }
  intros HI Hrun. exact (Hgen l [] st s eq_refl HI Hrun).
Qed.

Lemma simple_update_layer_Ok_exact st W b chain x c s r s' :
  simple_update_layer st W b chain x c s = Ok (r, s') ->
  exists pre, topological_rule st W b x = Some pre /\
    r = (<[x := layer_value c x (MRG s) pre]> st, new_chain c x pre chain) /\
    (x = 0 -> is_Some chain) /\
    MRG s' = MRG s + layer_streams c x.
Proof.
  intros Hrun.
  destruct (topological_rule st W b x) as [pre|] eqn:Hrule;
    [| rewrite simple_update_layer_missing in Hrun by exact Hrule; discriminate].
  assert (Hchain : x = 0 -> is_Some chain).
  { intros ->. destruct chain; [eauto |].
    rewrite (simple_update_layer_no_chain _ _ _ _ _ _ Hrule) in Hrun. discriminate. }
  destruct (simple_update_layer_present st W b chain x c s pre Hrule Hchain)
    as (l & Heq & _).
  rewrite Heq in Hrun. injection Hrun as <- <-.
  exists pre. repeat split; auto.
Qed.

(** The pre-activation of layer [i] reads the two neighbours of [i] and
    the length of the stack, nothing else of it. *)
Lemma topological_rule_ext st hiddens W b i :
  length st = length hiddens ->
  (i <> 0 -> st !! (i - 1) = hiddens !! (i - 1)) ->
  st !! (i + 1) = hiddens !! (i + 1) ->
  topological_rule st W b i = topological_rule hiddens W b i.
Proof.
  intros Hlen Hprev Hnext. unfold topological_rule. rewrite Hlen.
  case_bool_decide as H0.
  - subst i. cbn [Nat.add] in Hnext. rewrite Hnext. reflexivity.
  - rewrite Hprev, Hnext by exact H0. reflexivity.
Qed.

Lemma py_range_NoDup a n : NoDup (py_range a n 2).
Proof.
  unfold py_range. apply NoDup_fmap_2; [| apply NoDup_seq].
  intros x y. lia.
Qed.

Lemma even_neighbours x : Nat.even (x + 1) = negb (Nat.even x).
Proof. rewrite Nat.even_add. destruct (Nat.even x); reflexivity. Qed.

Lemma even_pred x : x <> 0 -> Nat.even (x - 1) = negb (Nat.even x).
Proof.
  intros Hx. replace x with (S (x - 1)) at 2 by lia.
  rewrite Nat.even_succ, <- Nat.negb_even, Bool.negb_involutive. reflexivity.
Qed.

(** The invariant of a half sweep over the layers of one parity: the
    layers not yet visited are as at the start; a visited layer holds the
    activation of the pre-activation computed on the stack as it was at the
    start. *)
Lemma half_sweep_step (par : bool) hiddens W b c (l done rest : list nat) x
    st chain s0 r s1 (n0 : nat) :
  l = done ++ x :: rest ->
  (forall j, j ∈ l -> Nat.even j = par) ->
  length st = length hiddens ->
  (forall j, j ∉ done -> st !! j = hiddens !! j) ->
  (forall j, j ∈ done -> exists pre n, n0 <= n /\
     topological_rule hiddens W b j = Some pre /\
     st !! j = Some (layer_value c j n pre)) ->
  n0 <= MRG s0 ->
  simple_update_layer st W b chain x c s0 = Ok (r, s1) ->
  exists pre, topological_rule hiddens W b x = Some pre /\
    r.2 = new_chain c x pre chain /\ (x = 0 -> is_Some chain) /\
    length r.1 = length hiddens /\
    (forall j, j ∉ done ++ [x] -> r.1 !! j = hiddens !! j) /\
    (forall j, j ∈ done ++ [x] -> exists pre n, n0 <= n /\
       topological_rule hiddens W b j = Some pre /\
       r.1 !! j = Some (layer_value c j n pre)) /\
    n0 <= MRG s1.
Proof.
  intros Hl Hpar Hlen Hrest Hdone Hn Hrun.
  apply simple_update_layer_Ok_exact in Hrun as (pre & Hrule & -> & Hch & HM).
  assert (Hx : Nat.even x = par).
  { apply Hpar. rewrite Hl. apply elem_of_app. right. left. }
  assert (Hother : forall j, Nat.even j = negb par -> st !! j = hiddens !! j).
  { intros j Hj. apply Hrest. intros Hin.
    assert (Nat.even j = par) by (apply Hpar; rewrite Hl; apply elem_of_app; auto).
    destruct par; cbn in *; congruence. }
  rewrite topological_rule_ext with (hiddens := hiddens) in Hrule; first last.
  { apply Hother. rewrite even_neighbours, Hx. reflexivity. }
  { intros H0. apply Hother. rewrite even_pred, Hx by exact H0. reflexivity. }
  { exact Hlen. }
  assert (Hlt : x < length st).
  { rewrite Hlen. eapply topological_rule_Some_lt, Hrule. }
  exists pre. cbn [fst snd].
  split; [exact Hrule |]. split; [reflexivity |]. split; [exact Hch |].
  split; [rewrite length_insert; exact Hlen |]. split; [| split; [| lia]].
  - intros j Hj. rewrite list_lookup_insert_ne.
    + apply Hrest. intros Hin. apply Hj, elem_of_app. auto.
    + intros ->. apply Hj, elem_of_app. right. left.
  - intros j Hj. destruct (decide (j = x)) as [-> | Hne].
    + exists pre, (MRG s0). split; [exact Hn |]. split; [exact Hrule |].
      apply list_lookup_insert_eq. exact Hlt.
    + apply elem_of_app in Hj as [Hj | Hj]; [| apply list_elem_of_singleton in Hj; done].
      destruct (Hdone j Hj) as (pre' & n & Hn' & Hr & Hv).
      exists pre', n. split; [exact Hn' |]. split; [exact Hr |].
      rewrite list_lookup_insert_ne by congruence. exact Hv.
Qed.

Lemma update_odd_layers_Ok_exact hiddens W b c s h' s' :
  update_odd_layers hiddens W b c s = Ok (h', s') ->
  length h' = length hiddens /\
  (forall j, Nat.even j = true -> h' !! j = hiddens !! j) /\
  (forall j, j < length hiddens -> Nat.odd j = true ->
     exists pre n, MRG s <= n /\
       topological_rule hiddens W b j = Some pre /\
       h' !! j = Some (hidden_value c j n pre)).
Proof.
  unfold update_odd_layers. intros Hrun.
  apply (for_each_Ok_ind (fun done st s0 =>
           length st = length hiddens /\
           (forall j, j ∉ done -> st !! j = hiddens !! j) /\
           (forall j, j ∈ done -> exists pre n, MRG s <= n /\
              topological_rule hiddens W b j = Some pre /\
              st !! j = Some (layer_value c j n pre)) /\
           MRG s <= MRG s0)) in Hrun.
  - destruct Hrun as (Hlen & Hrest & Hdone & _).
    split; [exact Hlen |]. split.
    + intros j Hj. apply Hrest. intros [_ Ho]%elem_of_py_range_odd.
      rewrite <- Nat.negb_even, Hj in Ho. discriminate.
    + intros j Hlt Hj.
      destruct (Hdone j) as (pre & n & Hn & Hr & Hv);
        [apply elem_of_py_range_odd; auto |].
      exists pre, n. split; [exact Hn |]. split; [exact Hr |].
      rewrite Hv. unfold layer_value.
      rewrite bool_decide_eq_false_2; [reflexivity |]. intros ->. discriminate.
  - intros done x rest st s0 st1 s1 Hl (Hlen & Hrest & Hdone & Hn) Hbody.
    apply bind_Ok_inv in Hbody as ([] & s2 & Hlog & Hbody).
    injection Hlog as <-.
    apply bind_Ok_inv in Hbody as ([h ch] & s3 & Hbody & Hret).
    injection Hret as <- <-.
    apply (half_sweep_step false hiddens W b c _ done rest x st None _ _ _ (MRG s) Hl)
      in Hbody as (pre & _ & _ & _ & H1 & H2 & H3 & H4);
      [| | exact Hlen | exact Hrest | exact Hdone | exact Hn].
    + cbn [fst] in *. auto.
    + intros j [_ Ho]%elem_of_py_range_odd. rewrite <- Nat.negb_even in Ho.
      destruct (Nat.even j); [discriminate | reflexivity].
  - split; [reflexivity |]. split; [reflexivity |]. split; [| lia].
    intros j Hj. inversion Hj.
Qed.

(** X8: the odd half sweep updates its layers side by side.  When it
    returns, the stack has its length, every even layer is as before, and
    every odd layer holds the (possibly noisy) hidden activation of the
    pre-activation computed from the stack as it was before the sweep; the
    random streams used are fresh ones. *)
Theorem odd_pass_side_by_side hiddens W b c s h' s' :
  update_odd_layers hiddens W b c s = Ok (h', s') ->
  length h' = length hiddens /\
  (forall j, Nat.even j = true -> h' !! j = hiddens !! j) /\
  (forall j, j < length hiddens -> Nat.odd j = true ->
     exists pre n, MRG s <= n /\
       topological_rule hiddens W b j = Some pre /\
       h' !! j = Some (hidden_value c j n pre)).
Proof. apply update_odd_layers_Ok_exact. Qed.

Lemma odd_pass_side_by_side_witness :
  exists h' s',
    update_odd_layers example_hiddens example_weights example_biases
      example_config builder0 = Ok (h', s') /\
    h' !! 0 = Some (Input "X") /\ h' !! 2 = Some (Input "H_2").
Proof.
  destruct (update_odd_layers example_hiddens example_weights example_biases
              example_config builder0) as [[h' s']|e] eqn:E;
    [| vm_compute in E; discriminate E].
  exists h', s'. split; [reflexivity |].
  destruct (odd_pass_side_by_side _ _ _ _ _ _ _ E) as (_ & Heven & _).
  split; apply Heven; reflexivity.
Defined.

Lemma update_even_layers_Ok_exact hiddens W b chain c s h' chain' s' :
  update_even_layers hiddens W b chain c s = Ok ((h', chain'), s') ->
  length h' = length hiddens /\
  (forall j, Nat.odd j = true -> h' !! j = hiddens !! j) /\
  (forall j, j < length hiddens -> Nat.even j = true ->
     exists pre n, MRG s <= n /\
       topological_rule hiddens W b j = Some pre /\
       h' !! j = Some (layer_value c j n pre)) /\
  (hiddens = [] -> chain' = chain) /\
  (hiddens <> [] -> exists pre0 ch,
     topological_rule hiddens W b 0 = Some pre0 /\ chain = Some ch /\
     chain' = Some (ch ++ [visible_activation c pre0])).
Proof.
  unfold update_even_layers. intros Hrun.
  apply (for_each_Ok_ind (fun done (st : list expr * option (list expr)) s0 =>
           length st.1 = length hiddens /\
           (forall j, j ∉ done -> st.1 !! j = hiddens !! j) /\
           (forall j, j ∈ done -> exists pre n, MRG s <= n /\
              topological_rule hiddens W b j = Some pre /\
              st.1 !! j = Some (layer_value c j n pre)) /\
           MRG s <= MRG s0 /\
           (0 ∉ done -> st.2 = chain) /\
           (0 ∈ done -> exists pre0 ch,
              topological_rule hiddens W b 0 = Some pre0 /\ chain = Some ch /\
              st.2 = Some (ch ++ [visible_activation c pre0])))) in Hrun.
  - destruct Hrun as (Hlen & Hrest & Hdone & _ & Hch0 & Hch1). cbn [fst snd] in *.
    split; [exact Hlen |]. split; [| split; [| split]].
    + intros j Hj. apply Hrest. intros [_ He]%elem_of_py_range_even.
      rewrite <- Nat.negb_even, He in Hj. discriminate.
    + intros j Hlt Hj. apply Hdone, elem_of_py_range_even. auto.
    + intros ->. apply Hch0. intros H0. inversion H0.
    + intros Hne. apply Hch1, elem_of_py_range_even.
      split; [destruct hiddens; [done | cbn; lia] | reflexivity].
  - intros done x rest [st ch] s0 [st1 ch1] s1 Hl
      (Hlen & Hrest & Hdone & Hn & Hch0 & Hch1) Hbody. cbn [fst snd] in *.
    apply bind_Ok_inv in Hbody as ([] & s2 & Hlog & Hbody).
    injection Hlog as <-.
    apply (half_sweep_step true hiddens W b c _ done rest x st ch _ _ _ (MRG s) Hl)
      in Hbody as (pre & Hrule & Hr2 & Hsome & H1 & H2 & H3 & H4);
      [| intros j [_ He]%elem_of_py_range_even; exact He
       | exact Hlen | exact Hrest | exact Hdone | exact Hn].
    cbn [fst snd] in *.
    split; [exact H1 |]. split; [exact H2 |]. split; [exact H3 |].
    split; [exact H4 |].
    assert (Hnd : x ∉ done).
    { pose proof (py_range_NoDup 0 (length hiddens)) as Hnd.
      rewrite Hl in Hnd. apply NoDup_app in Hnd as (_ & Hnd & _).
      intros Hin. apply (Hnd x Hin). left. }
    unfold new_chain in Hr2. destruct (decide (x = 0)) as [-> | Hx].
    + rewrite bool_decide_eq_true_2 in Hr2 by reflexivity.
      rewrite (Hch0 Hnd) in Hr2, Hsome. destruct (Hsome eq_refl) as [ch0 Hc].
      split; [intros H0; exfalso; apply H0, elem_of_app; right; left |].
      intros _. exists pre, ch0. rewrite Hr2, Hc. auto.
    + rewrite bool_decide_eq_false_2 in Hr2 by exact Hx. subst ch1. split.
      * intros H0. apply Hch0. intros Hin. apply H0, elem_of_app. auto.
      * intros [H0 | H0]%elem_of_app; [apply Hch1, H0 |].
        apply list_elem_of_singleton in H0. congruence.
  - cbn [fst snd]. split; [reflexivity |]. split; [reflexivity |].
    split; [intros j Hj; inversion Hj |]. split; [lia |].
    split; [reflexivity |]. intros H0. inversion H0.
Qed.

(** X9: the even half sweep updates its layers side by side.  When it
    returns, the stack has its length, every odd layer is as before, and
    every even layer holds the value built from the pre-activation computed
    on the stack as it was before the sweep; unless the stack is empty, the
    chain was a list and has gained exactly one entry, the visible
    activation of the visible layer's pre-activation. *)
Theorem even_pass_side_by_side hiddens W b chain c s h' chain' s' :
  update_even_layers hiddens W b chain c s = Ok ((h', chain'), s') ->
  length h' = length hiddens /\
  (forall j, Nat.odd j = true -> h' !! j = hiddens !! j) /\
  (forall j, j < length hiddens -> Nat.even j = true ->
     exists pre n, MRG s <= n /\
       topological_rule hiddens W b j = Some pre /\
       h' !! j = Some (layer_value c j n pre)) /\
  (hiddens = [] -> chain' = chain) /\
  (hiddens <> [] -> exists pre0 ch,
     topological_rule hiddens W b 0 = Some pre0 /\ chain = Some ch /\
     chain' = Some (ch ++ [visible_activation c pre0])).
Proof. apply update_even_layers_Ok_exact. Qed.

Lemma even_pass_side_by_side_witness :
  exists h' chain' s',
    update_even_layers example_hiddens example_weights example_biases (Some [])
      example_config builder0 = Ok ((h', chain'), s') /\
    h' !! 1 = Some (Input "H_1") /\ exists p, chain' = Some [p].
Proof.
  destruct (update_even_layers example_hiddens example_weights example_biases (Some [])
              example_config builder0) as [[[h' chain'] s']|e] eqn:E;
    [| vm_compute in E; discriminate E].
  exists h', chain', s'. split; [reflexivity |].
  destruct (even_pass_side_by_side _ _ _ _ _ _ _ _ _ E) as (_ & Hodd & _ & _ & Hch).
  split; [apply Hodd; reflexivity |].
  destruct Hch as (pre0 & ch & _ & [= <-] & ->); [discriminate |]. eauto.
Defined.

(** ** The scan step *)

Lemma scan_step_as_sweep hiddens W b c s :
  update_layers_scan_step hiddens W b c s =
  ('(h', ch) ← update_layers hiddens W b (Some []) c;
   ch ← iter ch; x ← getitem ch 0; mret (x, h'))
    (mkBuilder (MRG s) (logger s ++ [One_full_update_step_for_layers])).
Proof.
  unfold update_layers_scan_step, update_layers, maybeLog, mbind, SE_bind, mret, SE_ret.
  cbn [MRG logger].
  destruct (update_odd_layers _ _ _ _ _) as [[h1 s1]|e]; [| reflexivity].
  destruct (update_even_layers _ _ _ _ _ _) as [[[h2 ch2] s2]|e]; reflexivity.
Qed.

(** X10: the scan step is one full sweep on an empty chain, after its own
    log record: on lists that fit it returns the single chain entry of
    that sweep together with the swept stack; on any other lists, the empty
    stack included, it raises [IndexError]. *)
Theorem scan_step_outcome hiddens W b c s :
  let s0 := mkBuilder (MRG s) (logger s ++ [One_full_update_step_for_layers]) in
  (well_formed hiddens W b /\
   exists x h' s',
     update_layers hiddens W b (Some []) c s0 = Ok ((h', Some [x]), s') /\
     update_layers_scan_step hiddens W b c s = Ok ((x, h'), s')) \/
  (~ well_formed hiddens W b /\
   update_layers_scan_step hiddens W b c s = Raise IndexError).
Proof.
  intros s0. rewrite scan_step_as_sweep. fold s0.
  destruct (decide (2 <= length hiddens /\ length hiddens <= S (length W) /\
                    length hiddens <= length b)) as [Hwf | Hwf].
  - left. split; [exact Hwf |].
    destruct (update_layers_Ok W b c hiddens [] s0 Hwf)
      as ([h' ch] & s' & Heq & _ & (x & Hch) & _).
    cbn [snd app] in Hch. subst ch.
    exists x, h', s'. split; [exact Heq |].
    erewrite bind_Ok by exact Heq. reflexivity.
  - right. split; [exact Hwf |].
    destruct hiddens as [|h0 hiddens]; [reflexivity |].
    apply bind_Raise, not_Ok_Raise; [apply update_layers_index_error_only |].
    destruct (update_layers _ _ _ _ _ _) as [[r s']|e] eqn:E; [| reflexivity].
    apply update_layers_Ok_inv in E as [_ E]. exfalso. apply Hwf, E. discriminate.
Qed.

(** ** The compiled functions and the shared variables *)

Ltac inv_bind H :=
  let a := fresh "a" in let s := fresh "s" in let E := fresh "E" in
  apply bind_Ok_inv in H as (a & s & E & H);
  lazymatch type of a with
  | (_ * _)%type => destruct a as [? ?]
  | _ => idtac
  end;
  cbv beta iota in H.

Lemma getitem_Ok_inv {S A} (l : list A) i (s s' : S) x :
  getitem l i s = Ok (x, s') -> l !! i = Some x /\ s' = s.
Proof. unfold getitem. destruct (l !! i); intros [= <- <-]; auto. Qed.

Lemma getitem_last_Ok_inv {S A} (l : list A) (s s' : S) x :
  getitem_last l s = Ok (x, s') -> last l = Some x /\ s' = s.
Proof. unfold getitem_last. destruct (last l); intros [= <- <-]; auto. Qed.

Lemma iter_Ok_inv {S A} (l : option (list A)) (s s' : S) x :
  iter l s = Ok (x, s') -> l = Some x /\ s' = s.
Proof. unfold iter. destruct l; intros [= <- <-]; auto. Qed.

(** What [GSN.__init__] leaves in the object, whatever the parameter
    lists it was given. *)
Lemma GSN_init_Ok_fields a s g s0 :
  GSN_init a s = Ok (g, s0) ->
  params g = weights_list g ++ bias_list g /\
  gradient_buffer g = init_gradient_buffer (params g) /\
  updates g = init_updates (gsn_cost g) (params g) /\
  f_learn g = mkFunction [X] (One (show_gsn_cost g)) (updates g) /\
  f_cost g = mkFunction [X] (One (show_gsn_cost g)) [] /\
  (exists o, f_recon g = mkFunction [X] (Many o) []) /\
  (exists noisy, f_noise g = mkFunction [X] (One noisy) []) /\
  fn_updates (f_sample g) = [] /\
  (exists e, pxh g = mkFunction [X; H] (One e) []).
Proof.
  unfold GSN_init. intros Hrun.
  do 13 inv_bind Hrun. injection Hrun as <- <-. cbn.
  repeat split; eauto.
  match goal with
  | E : (if bool_decide _ then _ else _) _ = Ok (?f, _) |- fn_updates ?f = [] =>
      case_bool_decide; do 2 (try inv_bind E); injection E as <- _; reflexivity
  end.
Qed.

Section Calls.
Variable B : backend.

Lemma call_no_update f args (w w' : world B) out :
  fn_updates f = [] -> call B f args w = Ok (out, w') ->
  w' = mkWorld (store w) (S (theano_calls w)) (numpy_draws w).
Proof.
  unfold call. intros ->. case_decide; [| discriminate].
  intros [= _ <-]. reflexivity.
Qed.

Lemma call_one_no_update f args (w w' : world B) x :
  fn_updates f = [] -> call_one B f args w = Ok (x, w') ->
  w' = mkWorld (store w) (S (theano_calls w)) (numpy_draws w).
Proof.
  intros Hf Hrun. unfold call_one in Hrun.
  apply bind_Ok_inv in Hrun as (out & w1 & Hcall & Hout).
  apply (call_no_update _ _ _ _ _ Hf) in Hcall. subst w1.
  destruct out; [injection Hout as _ <-; reflexivity | discriminate].
Qed.

Lemma call_many_no_update f args (w w' : world B) x :
  fn_updates f = [] -> call_many B f args w = Ok (x, w') ->
  w' = mkWorld (store w) (S (theano_calls w)) (numpy_draws w).
Proof.
  intros Hf Hrun. unfold call_many in Hrun.
  apply bind_Ok_inv in Hrun as (out & w1 & Hcall & Hout).
  apply (call_no_update _ _ _ _ _ Hf) in Hcall. subst w1.
  destruct out; [discriminate | injection Hout as _ <-; reflexivity].
Qed.

Lemma single_layer_samples_world g initial n (w w' : world B) samples :
  fn_updates (f_noise g) = [] -> fn_updates (f_sample g) = [] ->
  single_layer_samples B g initial n w = Ok (samples, w') ->
  store w' = store w /\
  theano_calls w' = theano_calls w + 1 + 2 * (n - 1) /\
  numpy_draws w' = numpy_draws w + (n - 1).
Proof.
  intros Hnoise Hsample Hrun. unfold single_layer_samples in Hrun.
  apply bind_Ok_inv in Hrun as (x & w1 & Hx & Hrun).
  apply (call_one_no_update _ _ _ _ _ Hnoise) in Hx. subst w1.
  apply bind_Ok_inv in Hrun as ([samples' x'] & w2 & Hloop & Hret).
  injection Hret as _ <-.
  apply (for_each_Ok_ind (fun (done : list nat) (_ : list (tensor B) * tensor B) w0 =>
           store w0 = store w /\
           theano_calls w0 = theano_calls w + 1 + 2 * length done /\
           numpy_draws w0 = numpy_draws w + length done)) in Hloop.
  - rewrite py_range_step1, length_seq in Hloop. exact Hloop.
  - intros done i rest [sm y] w0 [sm' y'] w3 _ (Hst & Hth & Hnp) Hbody.
    apply bind_Ok_inv in Hbody as (y1 & w4 & Hy1 & Hbody).
    apply (call_one_no_update _ _ _ _ _ Hsample) in Hy1. subst w4.
    apply bind_Ok_inv in Hbody as (y2 & w5 & Hy2 & Hbody).
    injection Hy2 as _ <-.
    apply bind_Ok_inv in Hbody as (y3 & w6 & Hy3 & Hbody).
    apply (call_one_no_update _ _ _ _ _ Hnoise) in Hy3. subst w6.
    injection Hbody as _ _ <-. cbn [store theano_calls numpy_draws].
    rewrite length_app. cbn [length]. split; [exact Hst | lia].
  - cbn [store theano_calls numpy_draws length]. split; [reflexivity | lia].
Qed.

Lemma multi_layer_samples_world g initial n k (w w' : world B) st :
  fn_updates (f_noise g) = [] -> fn_updates (f_sample g) = [] ->
  multi_layer_samples B g initial n k w = Ok (st, w') ->
  store w' = store w /\
  theano_calls w' = theano_calls w + 1 + (n - 1) /\
  numpy_draws w' = numpy_draws w.
Proof.
  intros Hnoise Hsample Hrun. unfold multi_layer_samples in Hrun.
  apply bind_Ok_inv in Hrun as (x & w1 & Hx & Hrun).
  apply (call_one_no_update _ _ _ _ _ Hnoise) in Hx. subst w1.
  apply bind_Ok_inv in Hrun as (zeros & w2 & Hzeros & Hloop).
  apply (for_each_Ok_ind (fun (done : list shared) (_ : list (tensor B)) w0 =>
           w0 = mkWorld (store w) (S (theano_calls w)) (numpy_draws w))) in Hzeros;
    [| | reflexivity].
  2:{ intros done v rest zs w0 zs' w3 _ -> Hbody.
      apply bind_Ok_inv in Hbody as (rows & w4 & [_ ->]%getitem_Ok_inv & Hbody).
      injection Hbody as _ <-. reflexivity. }
  subst w2.
  apply (for_each_Ok_ind (fun (done : list nat) (_ : sampling_state B) w0 =>
           store w0 = store w /\
           theano_calls w0 = theano_calls w + 1 + length done /\
           numpy_draws w0 = numpy_draws w)) in Hloop.
  - rewrite py_range_step1, length_seq in Hloop. exact Hloop.
  - intros done i rest st0 w0 st1 w3 _ (Hst & Hth & Hnp) Hbody.
    apply bind_Ok_inv in Hbody as (ls & w4 & [_ ->]%getitem_last_Ok_inv & Hbody).
    apply bind_Ok_inv in Hbody as ([nso vis] & w5 & Hwrap & Hbody).
    unfold sampling_wrapper in Hwrap.
    apply bind_Ok_inv in Hwrap as (out & w6 & Hcall & Hret).
    apply (call_many_no_update _ _ _ _ _ Hsample) in Hcall. subst w6.
    injection Hret as _ _ <-.
    apply bind_Ok_inv in Hbody as (h0 & w7 & [_ ->]%getitem_Ok_inv & Hbody).
    apply bind_Ok_inv in Hbody as (sh & w8 & Hsh & Hbody).
    injection Hbody as _ <-.
    assert (w8 = mkWorld (store w0) (S (theano_calls w0)) (numpy_draws w0)) as ->.
    { repeat case_bool_decide; [discriminate Hsh | |]; injection Hsh as _ <-; reflexivity. }
    cbn [store theano_calls numpy_draws]. rewrite length_app. cbn [length].
    split; [exact Hst | lia].
  - cbn [store theano_calls numpy_draws length]. split; [reflexivity | lia].
Qed.

End Calls.

(** X11: sampling reads the shared variables and never writes them.  When
    [sample] returns on a built network, the values of all shared variables
    are as before; the single-layer mode has called a compiled function
    [1 + 2 (n - 1)] times and drawn [n - 1] times from the numpy generator,
    the multi-layer mode has called [1 + (n - 1)] times and not drawn. *)
Theorem sampling_is_read_only (B : backend) a s g s0 (initial : tensor B) n k
    (w w' : world B) r :
  GSN_init a s = Ok (g, s0) ->
  sample B g initial n k w = Ok (r, w') ->
  store w' = store w /\
  theano_calls w' =
    theano_calls w + 1 + (if bool_decide (layers g = 1) then 2 * (n - 1) else n - 1) /\
  numpy_draws w' =
    numpy_draws w + (if bool_decide (layers g = 1) then n - 1 else 0).
Proof.
  intros Hinit Hrun.
  apply GSN_init_Ok_fields in Hinit
    as (_ & _ & _ & _ & _ & _ & (noisy & Hnoise) & Hsample & _).
  assert (Hn : fn_updates (f_noise g) = []) by (rewrite Hnoise; reflexivity).
  unfold sample in Hrun. case_bool_decide.
  - unfold sample_some_numbers_single_layer in Hrun.
    apply bind_Ok_inv in Hrun as (samples & w1 & Hs & Hret). injection Hret as _ <-.
    eapply single_layer_samples_world; eauto.
  - unfold sample_some_numbers in Hrun.
    apply bind_Ok_inv in Hrun as (st & w1 & Hs & Hret). injection Hret as _ <-.
    rewrite Nat.add_0_r. eapply multi_layer_samples_world; eauto.
Qed.

Lemma sampling_is_read_only_witness :
  exists g s0 r w',
    GSN_init example_args builder0 = Ok (g, s0) /\
    sample Z_backend g 7%Z 4 1 Z_world = Ok (r, w') /\
    store w' = store Z_world /\ theano_calls w' = 4 /\ numpy_draws w' = 0.
Proof.
  destruct (GSN_init example_args builder0) as [[g s0]|e] eqn:E;
    [| vm_compute in E; discriminate E].
  destruct (sample Z_backend g 7%Z 4 1 Z_world) as [[r w']|e] eqn:Es.
  - exists g, s0, r, w'. split; [reflexivity |]. split; [exact Es |].
    destruct (sampling_is_read_only Z_backend example_args builder0 g s0 7%Z 4 1
                Z_world w' r E Es) as (Hst & Hth & Hnp).
    assert (Hl : layers g = 2).
    { vm_compute in E. injection E as <- _. reflexivity. }
    rewrite Hl in Hth, Hnp. split; [exact Hst |]. split; [exact Hth | exact Hnp].
  - exfalso. vm_compute in E. injection E as <- _. vm_compute in Es. discriminate Es.
Defined.

Lemma dict_get_not_key {V} (q : shared) (d : list (shared * V)) :
  q ∉ d.*1 -> dict_get q d = None.
Proof.
  induction d as [|[k v] d IH]; [reflexivity |].
  cbn [fmap list_fmap fst dict_get]. intros Hq.
  rewrite IH by (intros H; apply Hq; right; exact H).
  rewrite decide_False; [reflexivity |]. intros ->. apply Hq. left.
Qed.

Lemma zip_keys {A V} (l : list A) (vs : list V) k : k ∈ (zip l vs).*1 -> k ∈ l.
Proof.
  revert vs. induction l as [|x l IH]; intros [|v vs]; cbn; try (intros H; inversion H; fail).
  intros [-> | H]%elem_of_cons; [left | right; eapply IH, H].
Qed.

Lemma init_updates_not_key cost params q :
  q ∉ params -> q ∉ init_gradient_buffer params ->
  dict_get q (init_updates cost params) = None.
Proof.
  intros Hp Hb. apply dict_get_not_key. unfold init_updates.
  rewrite fmap_app. intros [H | H]%elem_of_app.
  - apply list_elem_of_fmap in H as ([k v] & -> & H).
    apply list_elem_of_fmap in H as ([p mg] & [= -> ->] & H).
    apply Hp. eapply zip_keys, list_elem_of_fmap. exists (p, mg). split; [reflexivity | exact H].
  - apply Hb. eapply zip_keys, H.
Qed.

(** X12: of the functions [GSN.__init__] compiles, only [f_learn] writes
    shared variables.  A call of [f_cost], [f_recon], [f_noise], [f_sample]
    or [pxh] that returns leaves every shared variable as it was and
    advances the Theano generator by one call; a call of [f_learn] leaves
    every shared variable that is neither a parameter nor a gradient
    buffer as it was.  This holds for given parameter lists as well as for
    the default ones. *)
Theorem only_f_learn_writes (B : backend) a s g s0 :
  GSN_init a s = Ok (g, s0) ->
  (forall f args (w w' : world B) out,
     f ∈ [f_cost g; f_recon g; f_noise g; f_sample g; pxh g] ->
     call B f args w = Ok (out, w') ->
     store w' = store w /\ theano_calls w' = S (theano_calls w) /\
     numpy_draws w' = numpy_draws w) /\
  (forall args (w w' : world B) out q,
     call B (f_learn g) args w = Ok (out, w') ->
     q ∉ params g -> q ∉ gradient_buffer g -> store w' q = store w q).
Proof.
  intros Hinit.
  apply GSN_init_Ok_fields in Hinit
    as (_ & Hbuf & Hupd & Hlearn & Hcost & (o & Hrecon) & (noisy & Hnoise)
        & Hsample & (e & Hpxh)).
  split.
  - intros f args w w' out Hf Hcall.
    assert (Hno : fn_updates f = []).
    { repeat (apply elem_of_cons in Hf as [-> | Hf]);
        [rewrite Hcost | rewrite Hrecon | rewrite Hnoise | exact Hsample
         | rewrite Hpxh | inversion Hf]; reflexivity. }
    rewrite (call_no_update B f args w w' out Hno Hcall). auto.
  - intros args w w' out q Hcall Hq Hb.
    rewrite Hlearn, Hupd in Hcall. unfold call in Hcall.
    case_decide; [| discriminate]. injection Hcall as _ <-. cbn [store fn_updates].
    rewrite init_updates_not_key; [reflexivity | exact Hq | rewrite <- Hbuf; exact Hb].
Qed.

Lemma only_f_learn_writes_witness :
  exists g s0 out w',
    GSN_init example_args builder0 = Ok (g, s0) /\
    call Z_backend (f_learn g) [7%Z] Z_world = Ok (out, w') /\
    store w' learning_rate_ = 2%Z /\ store w' momentum_ = 2%Z.
Proof.
  destruct (GSN_init example_args builder0) as [[g s0]|e] eqn:E;
    [| vm_compute in E; discriminate E].
  destruct (only_f_learn_writes Z_backend example_args builder0 g s0 E) as [_ Hlearn].
  destruct (call Z_backend (f_learn g) [7%Z] Z_world) as [[out w']|e] eqn:Ec.
  - exists g, s0, out, w'. split; [reflexivity |]. split; [exact Ec |].
    assert (Hg : params g = [W_ 0; W_ 1; b_ 0; b_ 1; b_ 2] /\
                 gradient_buffer g = gradient_buffer_ <$> seq 0 5).
    { vm_compute in E. injection E as <- _. split; reflexivity. }
    destruct Hg as [Hp Hb].
    split; apply (Hlearn _ _ _ _ _ Ec); rewrite ?Hp, ?Hb; cbn;
      intros H; repeat (apply elem_of_cons in H as [H | H]; [discriminate H |]);
      inversion H.
  - exfalso. vm_compute in E. injection E as <- _. vm_compute in Ec. discriminate Ec.
Defined.

(** ** Saving and loading parameters *)

Section Persistence.
Variable B : backend.

Lemma set_values_app pairs1 pairs2 (w : world B) :
  set_values B (pairs1 ++ pairs2) w = (set_values B pairs1;; set_values B pairs2) w.
Proof.
  unfold set_values. revert w. induction pairs1 as [|[v p] pairs1 IH]; intros w.
  - reflexivity.
  - cbn [app for_each]. unfold mbind, SE_bind in *.
    destruct (set_value B p v w) as [[[] w1]|e]; [| reflexivity].
    rewrite IH. destruct (for_each pairs1 _ tt w1) as [[[] w2]|e]; reflexivity.
Qed.

Lemma assigned_other (st : shared -> tensor B) pairs q :
  q ∉ pairs.*2 -> assigned st pairs q = st q.
Proof.
  revert st. induction pairs as [|[v p] pairs IH]; intros st Hq; [reflexivity |].
  cbn [fmap list_fmap snd] in Hq. unfold assigned. cbn [foldl].
  fold (assigned (store_set st p v) pairs).
  rewrite IH by (intros H; apply Hq; right; exact H).
  unfold store_set. rewrite decide_False; [reflexivity |].
  intros ->. apply Hq. left.
Qed.

Lemma assigned_lookup (st : shared -> tensor B) pairs v p :
  NoDup pairs.*2 -> (v, p) ∈ pairs -> assigned st pairs p = v.
Proof.
  revert st. induction pairs as [|[v' p'] pairs IH]; intros st Hnd Hin; [inversion Hin |].
  cbn [fmap list_fmap snd] in Hnd. apply NoDup_cons in Hnd as [Hp' Hnd].
  unfold assigned. cbn [foldl]. fold (assigned (store_set st p' v') pairs).
  apply elem_of_cons in Hin as [[= <- <-] | Hin].
  - rewrite assigned_other by exact Hp'. unfold store_set. rewrite decide_True; reflexivity.
  - apply IH; assumption.
Qed.

(** Assignments to distinct variables all go through when each variable
    takes the value meant for it. *)
Lemma set_values_Ok pairs (w : world B) :
  NoDup pairs.*2 ->
  (forall v p, (v, p) ∈ pairs -> accepts B (store w p) v = true) ->
  set_values B pairs w =
    Ok (tt, mkWorld (assigned (store w) pairs) (theano_calls w) (numpy_draws w)).
Proof.
  revert w. induction pairs as [|[v p] pairs IH]; intros w Hnd Hacc.
  - destruct w. reflexivity.
  - cbn [fmap list_fmap snd] in Hnd. apply NoDup_cons in Hnd as [Hp Hnd].
    unfold set_values. cbn [for_each].
    erewrite bind_Ok;
      [| unfold set_value; rewrite Hacc by left; reflexivity].
    fold (set_values B pairs). rewrite IH; [reflexivity | exact Hnd |].
    intros v' p' Hin. cbn [store]. unfold store_set.
    rewrite decide_False; [apply Hacc; right; exact Hin |].
    intros ->. apply Hp, list_elem_of_fmap. exists (v', p). auto.
Qed.

Lemma zip_values_snd (st : shared -> tensor B) params :
  (zip (st <$> params) params).*2 = params.
Proof. induction params as [|p params IH]; [reflexivity | cbn; f_equal; exact IH]. Qed.

Lemma zip_values_elem (st : shared -> tensor B) params v p :
  (v, p) ∈ zip (st <$> params) params -> v = st p /\ p ∈ params.
Proof.
  induction params as [|p' params IH]; cbn; [intros H; inversion H |].
  intros [[= -> ->] | H]%elem_of_cons; [split; [reflexivity | left] |].
  destruct (IH H). split; [assumption | right; assumption].
Qed.

Lemma elem_zip_values (st : shared -> tensor B) params p :
  p ∈ params -> (st p, p) ∈ zip (st <$> params) params.
Proof.
  induction params as [|p' params IH]; cbn; [intros H; inversion H |].
  intros [-> | H]%elem_of_cons; [left | right; apply IH, H].
Qed.

Lemma zip_values_app (st : shared -> tensor B) W b :
  zip (take (length W) (st <$> W ++ b)) W ++ zip (drop (length W) (st <$> W ++ b)) b =
  zip (st <$> W ++ b) (W ++ b).
Proof.
  rewrite fmap_app.
  rewrite take_app_length' by (rewrite length_fmap; reflexivity).
  rewrite drop_app_length' by (rewrite length_fmap; reflexivity).
  rewrite zip_with_app by (rewrite length_fmap; reflexivity). reflexivity.
Qed.

Lemma restore_values (saved : shared -> tensor B) params (w : world B) :
  NoDup params ->
  (forall p, p ∈ params -> accepts B (store w p) (saved p) = true) ->
  exists w',
    set_values B (zip (saved <$> params) params) w = Ok (tt, w') /\
    (forall p, p ∈ params -> store w' p = saved p) /\
    (forall q, q ∉ params -> store w' q = store w q) /\
    theano_calls w' = theano_calls w /\ numpy_draws w' = numpy_draws w.
Proof.
  intros Hnd Hacc. eexists. split.
  - apply set_values_Ok; [rewrite zip_values_snd; exact Hnd |].
    intros v p [-> Hp]%zip_values_elem. apply Hacc, Hp.
  - cbn [store theano_calls numpy_draws]. split; [| split; [| auto]].
    + intros p Hp. apply assigned_lookup; [rewrite zip_values_snd; exact Hnd |].
      apply elem_zip_values, Hp.
    + intros q Hq. apply assigned_other. rewrite zip_values_snd. exact Hq.
Qed.

End Persistence.

(** X13: a checkpoint comes back.  After [save_params(n, weights_list +
    bias_list)], loading the file of epoch [n] into the same, pairwise
    distinct variables (whose type filters take the saved values) gives
    every parameter the value it had when the file was written, whatever
    happened to it in between, and touches nothing else. *)
Theorem save_then_load (B : backend) outdir n W b (fs : disk B) (w0 w1 : world B) :
  NoDup (W ++ b) ->
  (forall p, p ∈ W ++ b -> accepts B (store w1 p) (store w0 p) = true) ->
  exists w2,
    load_params_from B W b (save_params B outdir n (W ++ b) fs w0)
      (save_path outdir n) w1 = Ok (tt, w2) /\
    (forall p, p ∈ W ++ b -> store w2 p = store w0 p) /\
    (forall q, q ∉ W ++ b -> store w2 q = store w1 q) /\
    theano_calls w2 = theano_calls w1 /\ numpy_draws w2 = numpy_draws w1.
Proof.
  intros Hnd Hacc.
  destruct (restore_values B (store w0) (W ++ b) w1 Hnd Hacc) as (w2 & Hset & Hrest).
  exists w2. split; [| exact Hrest].
  unfold load_params_from, save_params, load_params.
  rewrite decide_True by reflexivity.
  rewrite <- set_values_app, zip_values_app. exact Hset.
Qed.

Lemma save_then_load_witness :
  exists w2,
    load_params_from Z_backend [W_ 0] [b_ 0; b_ 1]
      (save_params Z_backend "out/" 3 [W_ 0; b_ 0; b_ 1] (fun _ => None) Z_world)
      (save_path "out/" 3)
      (@mkWorld Z_backend (fun _ => 9%Z) 5 1) = Ok (tt, w2) /\
    store w2 (W_ 0) = 2%Z /\ store w2 (b_ 1) = 2%Z /\ store w2 learning_rate_ = 9%Z.
Proof.
  destruct (save_then_load Z_backend "out/" 3 [W_ 0] [b_ 0; b_ 1] (fun _ => None)
              Z_world (@mkWorld Z_backend (fun _ => 9%Z) 5 1))
    as (w2 & Hload & Hp & Hq & _).
  - cbn. repeat constructor; cbn; intros H;
      repeat (apply elem_of_cons in H as [H | H]; [discriminate H |]); inversion H.
  - reflexivity.
  - exists w2. split; [exact Hload |]. split; [| split].
    + apply (Hp (W_ 0)). cbn. left.
    + apply (Hp (b_ 1)). cbn. right. right. left.
    + apply (Hq learning_rate_). cbn. intros H.
      repeat (apply elem_of_cons in H as [H | H]; [discriminate H |]); inversion H.
Defined.

Lemma set_param_loop (B : backend) params values (w : world B) :
  for_each (zip params values) (fun '(param, value) _ => set_value B param value) tt w =
  set_values B (zip values params) w.
Proof.
  unfold set_values. revert values w.
  induction params as [|p params IH]; intros [|v values] w; try reflexivity.
  cbn [zip zip_with for_each]. unfold mbind, SE_bind.
  destruct (set_value B p v w) as [[[] w1]|e]; [apply IH | reflexivity].
Qed.

Lemma get_values_loop (B : backend) params borrow (acc : list (array B)) (w : world B) :
  for_each params
    (fun param values => value ← get_value B param borrow; mret (values ++ [value]))
    acc w =
  Ok (acc ++ ((fun p => if borrow then Buffer p else Copy (store w p)) <$> params), w).
Proof.
  revert acc. induction params as [|p params IH]; intros acc.
  - cbn. rewrite app_nil_r. reflexivity.
  - cbn [for_each]. erewrite bind_Ok by reflexivity.
    rewrite IH, <- app_assoc. reflexivity.
Qed.

(** X14: copies of the parameter values come back.  For a model whose
    [get_params] returns pairwise distinct variables,
    [get_param_values(borrow=False)] leaves the state alone and returns one
    copy per parameter, of the value the parameter holds; given to
    [set_param_values] at any later time, these copies make the call return
    True, and when it returns every parameter holds the value copied and
    nothing else has changed.  ([borrow] of [set_value] only decides
    whether the variable may keep the array it is given rather than a copy
    of it; the statement is about the state in which the call returns.)
    With [borrow=True], the default of [get_param_values], the list holds
    the variables' own buffers and nothing is said of a later use.  A model
    without [get_params] raises [NotImplementedError] from both. *)
Theorem get_then_set_param_values (B : backend) params values borrow
    (w0 w0' w1 : world B) :
  NoDup params ->
  (forall p, p ∈ params -> accepts B (store w1 p) (store w0 p) = true) ->
  get_param_values B (Some params) false w0 = Ok (values, w0') ->
  (w0' = w0 /\
   exists copies,
     values = Copy <$> copies /\ length copies = length params /\
     (forall i p, params !! i = Some p -> copies !! i = Some (store w0 p)) /\
     exists w2,
       set_param_values B (Some params) copies w1 = Ok (true, w2) /\
       (forall p, p ∈ params -> store w2 p = store w0 p) /\
       (forall q, q ∉ params -> store w2 q = store w1 q)) /\
  get_param_values B (Some params) true w0 = Ok (Buffer <$> params, w0) /\
  get_param_values B None borrow w0 = Raise NotImplementedError /\
  (forall param_values,
     set_param_values B None param_values w1 = Raise NotImplementedError).
Proof.
  intros Hnd Hacc Hget. split; [| split; [| split; [reflexivity | reflexivity]]].
  - unfold get_param_values in Hget. rewrite get_values_loop in Hget.
    injection Hget as <- <-. split; [reflexivity |].
    exists (store w0 <$> params). split; [| split; [| split]].
    + cbn [app]. rewrite <- list_fmap_compose. reflexivity.
    + apply length_fmap.
    + intros i p Hp. rewrite list_lookup_fmap, Hp. reflexivity.
    + destruct (restore_values B (store w0) params w1 Hnd Hacc)
        as (w2 & Hset & Hp & Hq & _).
      exists w2. split; [| split; assumption].
      unfold set_param_values.
      rewrite bool_decide_eq_false_2 by (rewrite length_fmap; auto).
      erewrite bind_Ok; [reflexivity |]. rewrite set_param_loop. exact Hset.
  - unfold get_param_values. rewrite get_values_loop. reflexivity.
Qed.

Lemma get_then_set_param_values_witness :
  get_param_values Z_backend (Some [W_ 0; b_ 0]) false Z_world =
    Ok ([@Copy Z_backend 2%Z; @Copy Z_backend 2%Z], Z_world) /\
  exists w2,
    set_param_values Z_backend (Some [W_ 0; b_ 0]) [2%Z; 2%Z]
      (@mkWorld Z_backend (fun _ => 9%Z) 5 1) = Ok (true, w2) /\
    store w2 (W_ 0) = 2%Z /\ store w2 momentum_ = 9%Z.
Proof.
  split; [reflexivity |].
  destruct (get_then_set_param_values Z_backend [W_ 0; b_ 0] [@Copy Z_backend 2%Z; @Copy Z_backend 2%Z] false
              Z_world Z_world (@mkWorld Z_backend (fun _ => 9%Z) 5 1))
    as [(_ & copies & Hc & _ & _ & w2 & Hset & Hp & Hq) _].
  - repeat constructor; cbn; intros H;
      repeat (apply elem_of_cons in H as [H | H]; [discriminate H |]); inversion H.
  - reflexivity.
  - reflexivity.
  - assert (copies = [2%Z; 2%Z]) as ->.
    { destruct copies as [|x [|y [|z copies]]]; try discriminate Hc.
      injection Hc as <- <-. reflexivity. }
    exists w2. split; [exact Hset |]. split.
    + apply (Hp (W_ 0)). left.
    + apply (Hq momentum_). intros H.
      repeat (apply elem_of_cons in H as [H | H]; [discriminate H |]); inversion H.
Defined.

(** ** The arguments of a model *)

Section ConfigFacts.
Context {V : Type}.
Variable read_file : string -> result (option (gmap.gmap string V)).

Lemma truthy_true (h : @heap V) r :
  objs h r <> ∅ -> truthy (Some r) h = Ok (true, h).
Proof.
  intros Hne. unfold truthy.
  rewrite bool_decide_eq_false_2; [reflexivity |].
  intros H. apply (fin_maps.map_size_empty_iff (M := gmap.gmap string)) in H.
  contradiction.
Qed.

Lemma truthy_false (h : @heap V) r :
  objs h r = ∅ -> truthy (Some r) h = Ok (false, h).
Proof.
  intros He. unfold truthy.
  rewrite bool_decide_eq_true_2; [reflexivity |].
  apply (fin_maps.map_size_empty_iff (M := gmap.gmap string)), He.
Qed.

Lemma lookup_update (m1 m2 : gmap.gmap string V) k :
  (m1 ∪ m2) !! k = match m1 !! k with Some v => Some v | None => m2 !! k end.
Proof.
  rewrite fin_maps.lookup_union.
  destruct (m1 !! k), (m2 !! k); reflexivity.
Qed.

Lemma Model_init_merge (h : @heap V) c d :
  objs h c <> ∅ -> objs h d <> ∅ ->
  Model_init read_file (PyMapping c) (PyMapping d) h = Ok (Some d, updated h d c).
Proof.
  intros Hc Hd. unfold Model_init, create_dictionary_like.
  rewrite !bind_ret.
  erewrite bind_Ok by (apply truthy_true, Hc).
  erewrite bind_Ok by (apply truthy_true, Hd).
  erewrite bind_Ok by reflexivity.
  erewrite bind_Ok; cycle 1.
  { apply truthy_true. cbn [objs updated]. rewrite decide_True by reflexivity.
    apply (fin_maps.map_positive_l_alt (M := gmap.gmap string)), Hc. }
  reflexivity.
Qed.

Lemma size_zero_empty (m : gmap.gmap string V) : base.size m = 0 <-> m = ∅.
Proof. apply (fin_maps.map_size_empty_iff (M := gmap.gmap string)). Qed.

(** X15: when both the configuration and the defaults are non-empty
    dictionaries, [self.args] of a model or an optimizer is the defaults
    object itself, changed in place: a key of the configuration has the
    configured value, any other key its default; no other dictionary is
    touched and none is created. *)
Theorem config_overrides_defaults (h : @heap V) c d :
  objs h c <> ∅ -> objs h d <> ∅ ->
  exists h',
    Model_init read_file (PyMapping c) (PyMapping d) h = Ok (Some d, h') /\
    Optimizer_init read_file (PyMapping c) (PyMapping d) h = Ok (Some d, h') /\
    (forall k, objs h' d !! k =
               match objs h c !! k with Some v => Some v | None => objs h d !! k end) /\
    (forall r, r <> d -> objs h' r = objs h r) /\
    next h' = next h.
Proof.
  intros Hc Hd. exists (updated h d c).
  split; [apply Model_init_merge; assumption |].
  split; [apply Model_init_merge; assumption |].
  cbn [objs next updated]. split; [| split; [| reflexivity]].
  - intros k. rewrite decide_True by reflexivity. apply lookup_update.
  - intros r Hr. rewrite decide_False by exact Hr. reflexivity.
Qed.

(** X16: the defaults of the module are shared by all networks.  Every
    GSN hands the same dictionary to [Model.__init__]; after one network
    was made with a non-empty configuration, a network made with no
    configuration at all reads the first one's configured values as its
    defaults. *)
Theorem defaults_are_shared (h : @heap V) gsn_defaults c1 :
  objs h c1 <> ∅ -> objs h gsn_defaults <> ∅ ->
  exists h1,
    GSN_args read_file gsn_defaults (PyMapping c1) h = Ok (Some gsn_defaults, h1) /\
    GSN_args read_file gsn_defaults PyNone h1 = Ok (Some gsn_defaults, h1) /\
    forall k v, objs h c1 !! k = Some v ->
                args_get (Some gsn_defaults) k h1 = Ok (Some v, h1).
Proof.
  intros Hc Hd. exists (updated h gsn_defaults c1). unfold GSN_args.
  split; [apply Model_init_merge; assumption |].
  assert (Hne : objs (updated h gsn_defaults c1) gsn_defaults <> ∅).
  { cbn [objs updated]. rewrite decide_True by reflexivity.
    apply (fin_maps.map_positive_l_alt (M := gmap.gmap string)), Hc. }
  split.
  - unfold Model_init, create_dictionary_like. rewrite !bind_ret.
    erewrite bind_Ok by reflexivity. cbv beta iota. rewrite bind_ret.
    erewrite bind_Ok by reflexivity.
    erewrite bind_Ok by (apply truthy_true, Hne). reflexivity.
  - intros k v Hk. unfold args_get. cbn [objs updated].
    rewrite decide_True by reflexivity. rewrite lookup_update, Hk. reflexivity.
Qed.

(** X17: for a configuration and defaults that are [None] or
    dictionaries, [Model.__init__] returns, and [self.args] is [None]
    exactly when the configuration is [None] and the defaults are [None]
    or an empty dictionary. *)
Theorem args_is_None (h : @heap V) config defaults :
  (forall p, config <> PyPath p) -> (forall p, defaults <> PyPath p) ->
  exists args h',
    Model_init read_file config defaults h = Ok (args, h') /\
    (args = None <->
     config = PyNone /\
     (defaults = PyNone \/ exists d, defaults = PyMapping d /\ objs h d = ∅)).
Proof.
  intros Hcp Hdp.
  destruct config as [|c|p]; [| | destruct (Hcp p eq_refl)];
    (destruct defaults as [|d|p]; [| | destruct (Hdp p eq_refl)]).
  - exists None, h. split; [reflexivity |]. split; auto.
  - destruct (decide (objs h d = ∅)) as [He | Hne].
    + exists None, h. split.
      * unfold Model_init, create_dictionary_like. rewrite !bind_ret.
        erewrite bind_Ok by reflexivity. cbv beta iota. rewrite bind_ret.
        erewrite bind_Ok by reflexivity.
        erewrite bind_Ok by (apply truthy_false, He). reflexivity.
      * split; [eauto 6 | reflexivity].
    + exists (Some d), h. split.
      * unfold Model_init, create_dictionary_like. rewrite !bind_ret.
        erewrite bind_Ok by reflexivity. cbv beta iota. rewrite bind_ret.
        erewrite bind_Ok by reflexivity.
        erewrite bind_Ok by (apply truthy_true, Hne). reflexivity.
      * split; [discriminate |].
        intros [_ [Hd | (d' & [= <-] & Hd)]]; [discriminate | contradiction].
  - exists (Some c), h. split.
    + unfold Model_init, create_dictionary_like. rewrite !bind_ret.
      unfold truthy at 1 3. unfold mbind, SE_bind.
      destruct (negb _); reflexivity.
    + split; [discriminate | intros [[=] _]].
  - destruct (decide (objs h c = ∅)) as [Hce | Hcne];
      destruct (decide (objs h d = ∅)) as [Hde | Hdne].
    + exists (Some c), h. split; [| split; [discriminate | intros [[=] _]]].
      unfold Model_init, create_dictionary_like. rewrite !bind_ret.
      erewrite bind_Ok by (apply truthy_false, Hce). cbv beta iota. rewrite bind_ret.
      erewrite bind_Ok by reflexivity.
      erewrite bind_Ok by (apply truthy_false, Hde). reflexivity.
    + exists (Some d), h. split; [| split; [discriminate | intros [[=] _]]].
      unfold Model_init, create_dictionary_like. rewrite !bind_ret.
      erewrite bind_Ok by (apply truthy_false, Hce). cbv beta iota. rewrite bind_ret.
      erewrite bind_Ok by reflexivity.
      erewrite bind_Ok by (apply truthy_true, Hdne). reflexivity.
    + exists (Some c), h. split; [| split; [discriminate | intros [[=] _]]].
      unfold Model_init, create_dictionary_like. rewrite !bind_ret.
      erewrite bind_Ok by (apply truthy_true, Hcne).
      erewrite bind_Ok by (apply truthy_false, Hde).
      erewrite bind_Ok by reflexivity.
      erewrite bind_Ok by (apply truthy_false, Hde). reflexivity.
    + exists (Some d), (updated h d c).
      split; [apply Model_init_merge; assumption |].
      split; [discriminate | intros [[=] _]].
Qed.

End ConfigFacts.

Lemma example_heap_non_empty :
  objs example_heap 1 <> ∅ /\ objs example_heap 0 <> ∅.
Proof.
  split; cbn; apply (fin_maps.insert_non_empty (M := gmap.gmap string)).
Qed.

Lemma config_overrides_defaults_witness :
  exists h',
    Model_init (fun _ => Ok None) (PyMapping 1) (PyMapping 0) example_heap =
      Ok (Some 0, h') /\
    objs h' 0 !! "layers" = Some 2 /\ objs h' 0 !! "walkbacks" = Some 5.
Proof.
  destruct (config_overrides_defaults (fun _ => Ok None) example_heap 1 0
              (proj1 example_heap_non_empty) (proj2 example_heap_non_empty))
    as (h' & HM & _ & Hk & _).
  exists h'. split; [exact HM |].
  rewrite !Hk. split; reflexivity.
Defined.

Lemma defaults_are_shared_witness :
  exists h1,
    GSN_args (fun _ => Ok None) 0 (PyMapping 1) example_heap = Ok (Some 0, h1) /\
    GSN_args (fun _ => Ok None) 0 PyNone h1 = Ok (Some 0, h1) /\
    args_get (Some 0) "layers" h1 = Ok (Some 2, h1).
Proof.
  destruct (defaults_are_shared (fun _ => Ok None) example_heap 0 1
              (proj1 example_heap_non_empty) (proj2 example_heap_non_empty))
    as (h1 & H1 & H2 & Hk).
  exists h1. split; [exact H1 |]. split; [exact H2 |].
  apply Hk. reflexivity.
Defined.

Lemma args_is_None_witness :
  exists h',
    Model_init (fun _ => Ok None) PyNone (PyMapping 5) example_heap = Ok (None, h').
Proof.
  destruct (args_is_None (fun _ => Ok None) example_heap PyNone (PyMapping 5))
    as (args & h' & HM & Hiff); [discriminate | discriminate |].
  exists h'. rewrite HM. f_equal. f_equal.
  apply Hiff. split; [reflexivity |]. right. exists 5. split; reflexivity.
Defined.

(** ** Sampling at the edges *)

Lemma GSN_init_built a s g s0 :
  arg_weights_list a = None -> arg_bias_list a = None ->
  GSN_init a s = Ok (g, s0) ->
  built a g /\ 1 <= arg_layers a /\ 1 <= arg_walkbacks a.
Proof.
  intros HW Hb Hinit.
  destruct (decide (arg_layers a = 0)) as [HL | HL].
  { rewrite GSN_init_no_layer in Hinit by assumption. discriminate. }
  destruct (decide (arg_walkbacks a = 0)) as [Hk | Hk].
  { rewrite GSN_init_zero in Hinit by assumption. discriminate. }
  destruct (GSN_init_Ok a s) as (g' & s' & Heq & Hg); [lia | lia | assumption | assumption |].
  rewrite Hinit in Heq. injection Heq as <- <-.
  split; [exact Hg | lia].
Qed.

Section SamplingEdges.
Variable B : backend.
Variables (a : gsn_args) (g : GSN).
Hypothesis Hg : built a g.
Hypothesis HL : arg_layers a <> 1.

Lemma f_noise_call x (w : world B) :
  exists y, call_one B (f_noise g) [x] w =
            Ok (y, mkWorld (store w) (S (theano_calls w)) (numpy_draws w)).
Proof.
  destruct (built_f_noise a g Hg) as [noisy Hnoise].
  unfold call_one, mbind, SE_bind, call. rewrite Hnoise.
  cbn [inputs outputs fn_updates length].
  rewrite decide_True by reflexivity. eexists. reflexivity.
Qed.

Lemma zeros_loop rows initial (l : list shared) zeros (w : world B) :
  shape B initial !! 0 = Some rows ->
  for_each l
    (fun _ zeros =>
       rows ← getitem (shape B initial) 0;
       mret (zeros ++ [np_zeros B rows (hidden_size g)]))
    zeros w =
  Ok (zeros ++ replicate (length l) (np_zeros B rows (hidden_size g)), w).
Proof.
  intros Hrows. revert zeros. induction l as [|v l IH]; intros zeros.
  - cbn. rewrite app_nil_r. reflexivity.
  - cbn [for_each]. erewrite bind_Ok;
      [| erewrite bind_Ok by (apply getitem_Some, Hrows); reflexivity].
    rewrite IH, <- app_assoc. reflexivity.
Qed.

Lemma tail_biases : length (tail (bias_list g)) = arg_layers a.
Proof.
  rewrite (built_biases a g Hg), length_tl, length_fmap, length_seq. lia.
Qed.

Lemma sampling_wrapper_Ok state (w : world B) :
  length state = S (arg_layers a) ->
  exists out w',
    length out = S (arg_layers a) + 1 /\
    sampling_wrapper B g state w =
      Ok ((take (S (arg_layers a)) out, drop (S (arg_layers a)) out), w').
Proof.
  intros Hstate.
  destruct (built_f_sample a g Hg) as (pX & _ & Hsample).
  rewrite bool_decide_eq_false_2 in Hsample by exact HL.
  destruct (built_state a g Hg) as [Hnsi Hnso].
  destruct (returns_call_many B (f_sample g) state (network_state_output g ++ [pX]) w
              (fun out _ => length out = S (arg_layers a) + 1))
    as (out & w' & Hcall & Hout).
  { rewrite Hsample. reflexivity. }
  { rewrite Hsample. cbn [inputs]. lia. }
  { intros out w' ->. rewrite length_app, Hnso. reflexivity. }
  exists out, w'. split; [exact Hout |].
  unfold sampling_wrapper. erewrite bind_Ok by exact Hcall. rewrite Hnso. reflexivity.
Qed.

Lemma multi_layer_prefix initial rows n k (w : world B) :
  shape B initial !! 0 = Some rows ->
  exists x zeros w1,
    length zeros = arg_layers a /\
    multi_layer_samples B g initial n k w =
    for_each (py_range 0 (n - 1) 1)
      (fun i st =>
         last_state ← getitem_last (network_state st);
         '(net_state_out, vis_pX_chain) ← sampling_wrapper B g last_state;
         let visible_chain := visible_chain st ++ vis_pX_chain in
         let network_state := network_state st ++ [net_state_out] in
         h0 ← getitem net_state_out 0;
         let noisy_h0_chain := noisy_h0_chain st ++ [h0] in
         sampled_h ←
           (if bool_decide (k = 0) then raise ZeroDivisionError
            else if bool_decide (i mod k = 0) then
              mret (sampled_h st ++ [T_stack B (tail net_state_out)])
            else mret (sampled_h st));
         mret (mkSampling network_state visible_chain noisy_h0_chain sampled_h))
      (mkSampling [x :: zeros] [initial] [x] []) w1.
Proof.
  intros Hrows. destruct (f_noise_call initial w) as [x Hx].
  exists x, (replicate (length (tail (bias_list g))) (np_zeros B rows (hidden_size g))).
  eexists. split; [rewrite length_replicate; apply tail_biases |].
  unfold multi_layer_samples.
  erewrite bind_Ok by exact Hx.
  erewrite bind_Ok by (apply (zeros_loop rows), Hrows).
  reflexivity.
Qed.

Lemma multi_layer_stride_zero initial rows n (w : world B) :
  shape B initial !! 0 = Some rows -> 2 <= n ->
  multi_layer_samples B g initial n 0 w = Raise ZeroDivisionError.
Proof.
  intros Hrows Hn.
  destruct (multi_layer_prefix initial rows n 0 w Hrows) as (x & zeros & w1 & Hz & ->).
  rewrite py_range_step1. destruct n as [|[|n]]; [lia | lia |].
  cbn [Nat.sub seq for_each]. apply bind_Raise. cbn [network_state].
  erewrite bind_Ok by reflexivity.
  destruct (sampling_wrapper_Ok (x :: zeros) w1) as (out & w' & Hout & Hwrap).
  { cbn [length]. rewrite Hz. reflexivity. }
  erewrite bind_Ok by exact Hwrap. cbv beta iota zeta.
  destruct (lookup_lt_ex (take (S (arg_layers a)) out) 0) as [h0 Hh0].
  { rewrite length_take. lia. }
  erewrite bind_Ok by (apply getitem_Some, Hh0).
  rewrite bool_decide_eq_true_2 by reflexivity. reflexivity.
Qed.

Lemma multi_layer_no_step initial rows n k (w : world B) :
  shape B initial !! 0 = Some rows -> n <= 1 ->
  exists st w',
    multi_layer_samples B g initial n k w = Ok (st, w') /\
    visible_chain st = [initial] /\ sampled_h st = [].
Proof.
  intros Hrows Hn.
  destruct (multi_layer_prefix initial rows n k w Hrows) as (x & zeros & w1 & Hz & ->).
  replace (n - 1) with 0 by lia. eexists _, _. split; [reflexivity |]. auto.
Qed.

Lemma multi_layer_no_rows initial n k (w : world B) :
  1 <= arg_layers a -> shape B initial !! 0 = None ->
  multi_layer_samples B g initial n k w = Raise IndexError.
Proof.
  intros HL1 Hrows. destruct (f_noise_call initial w) as [x Hx].
  unfold multi_layer_samples. erewrite bind_Ok by exact Hx.
  apply bind_Raise.
  pose proof tail_biases as Ht.
  destruct (tail (bias_list g)) as [|v l]; [cbn in Ht; lia |].
  cbn [for_each]. apply bind_Raise, bind_Raise.
  unfold getitem. rewrite Hrows. reflexivity.
Qed.

End SamplingEdges.

(** X18: the edges of multi-layer sampling.  On a network with more than
    one hidden layer, a stride [k = 0] never lets [sample] return once a
    step is taken ([n >= 2]): whatever the seed, the call raises, at the
    latest at [i % k] in the first step.  For [n <= 1] no step is taken:
    given a seed that is a matrix, as [f_noise] needs it, the result is the
    seed alone with an empty list of hidden samples, whatever [k] is. *)
Theorem multi_layer_sample_edges (B : backend) a s g s0 (initial : tensor B) n k
    rows cols (w : world B) :
  arg_weights_list a = None -> arg_bias_list a = None ->
  GSN_init a s = Ok (g, s0) -> layers g <> 1 ->
  (k = 0 -> 2 <= n -> is_Ok (sample B g initial n k w) = false) /\
  (shape B initial = [rows; cols] -> n <= 1 ->
   exists w', sample B g initial n k w = Ok ((np_vstack B [initial], Some []), w')).
Proof.
  intros HW Hb Hinit HL.
  destruct (GSN_init_built a s g s0 HW Hb Hinit) as (Hg & HL1 & _).
  assert (HLa : arg_layers a <> 1) by (rewrite <- (built_layers a g Hg); exact HL).
  unfold sample, sample_some_numbers. rewrite bool_decide_eq_false_2 by exact HL.
  split.
  - intros -> Hn. destruct (shape B initial !! 0) as [r|] eqn:Hrows.
    + rewrite bind_Raise with (e := ZeroDivisionError); [reflexivity |].
      eapply multi_layer_stride_zero; eauto.
    + rewrite bind_Raise with (e := IndexError); [reflexivity |].
      eapply multi_layer_no_rows; eauto.
  - intros Hshape Hn.
    edestruct (multi_layer_no_step B a g Hg HLa initial rows n k w)
      as (st & w' & Hrun & Hvis & Hsh); [rewrite Hshape; reflexivity | exact Hn |].
    exists w'. erewrite bind_Ok by exact Hrun. rewrite Hvis, Hsh. reflexivity.
Qed.

Lemma multi_layer_sample_edges_witness :
  exists g s0,
    GSN_init example_args builder0 = Ok (g, s0) /\
    is_Ok (sample Z_backend g 7%Z 3 0 Z_world) = false /\
    exists w', sample Z_backend g 7%Z 1 0 Z_world =
               Ok ((np_vstack Z_backend [7%Z], Some []), w').
Proof.
  destruct (GSN_init example_args builder0) as [[g s0]|e] eqn:E;
    [| vm_compute in E; discriminate E].
  exists g, s0. split; [reflexivity |].
  assert (Hl : layers g <> 1).
  { vm_compute in E. injection E as <- _. discriminate. }
  split.
  - apply (multi_layer_sample_edges Z_backend example_args builder0 g s0 7%Z 3 0 1 1
             Z_world eq_refl eq_refl E Hl); [reflexivity | lia].
  - apply (multi_layer_sample_edges Z_backend example_args builder0 g s0 7%Z 1 0 1 1
             Z_world eq_refl eq_refl E Hl); [reflexivity | lia].
Defined.

(** ** Noise switched off *)

Section NoiseOff.
Variables (W b : list expr) (c : config).
Hypothesis noise_off : add_noise c = false.
Hypothesis visible_rf : forall e, random_free (visible_activation c e) = random_free e.
Hypothesis hidden_rf : forall e, random_free (hidden_activation c e) = random_free e.
Hypothesis W_rf : Forall (fun e => random_free e = true) W.
Hypothesis b_rf : Forall (fun e => random_free e = true) b.

Lemma rule_random_free h j pre :
  topological_rule h W b j = Some pre ->
  (Forall (fun e => random_free e = true) h -> random_free pre = true) /\
  (forall x, j <> 0 -> h !! (j - 1) = Some x -> random_free x = false ->
             random_free pre = false) /\
  (forall x, j = 0 -> h !! 1 = Some x -> random_free pre = random_free x).
Proof.
  unfold topological_rule. repeat case_bool_decide; subst.
  - destruct (h !! 1) as [h1|] eqn:Hh; [| discriminate].
    destruct (W !! 0) as [w|] eqn:Hw; [| discriminate].
    destruct (b !! 0) as [b0|] eqn:Hb; [| discriminate]. intros [= <-].
    pose proof (Forall_lookup_1 _ _ _ _ W_rf Hw) as Hw'.
    pose proof (Forall_lookup_1 _ _ _ _ b_rf Hb) as Hb'.
    cbn [random_free mbind option_bind]. rewrite Hw', Hb', !Bool.andb_true_r.
    split; [| split].
    + intros Hh'. eapply (Forall_lookup_1 _ _ _ _ Hh'), Hh.
    + intros x Hx. contradiction.
    + intros x _ [= <-]. reflexivity.
  - destruct (h !! (length h - 1 - 1)) as [h1|] eqn:Hh; [| discriminate].
    destruct (W !! _) as [w|] eqn:Hw; [| discriminate].
    destruct (b !! _) as [b0|] eqn:Hb; [| discriminate]. intros [= <-].
    pose proof (Forall_lookup_1 _ _ _ _ W_rf Hw) as Hw'.
    pose proof (Forall_lookup_1 _ _ _ _ b_rf Hb) as Hb'.
    cbn [random_free]. rewrite Hw', Hb', !Bool.andb_true_r.
    split; [| split].
    + intros Hh'. eapply (Forall_lookup_1 _ _ _ _ Hh'), Hh.
    + intros x _ [= <-] Hx. exact Hx.
    + intros x Hx. contradiction.
  - destruct (h !! (j + 1)) as [h2|] eqn:Hh2; [| discriminate].
    destruct (h !! (j - 1)) as [h0|] eqn:Hh0; [| discriminate].
    destruct (W !! j) as [w|] eqn:Hw; [| discriminate].
    destruct (W !! (j - 1)) as [w0|] eqn:Hw0; [| discriminate].
    destruct (b !! j) as [b0|] eqn:Hb; [| discriminate]. intros [= <-].
    pose proof (Forall_lookup_1 _ _ _ _ W_rf Hw) as Hw'.
    pose proof (Forall_lookup_1 _ _ _ _ W_rf Hw0) as Hw0'.
    pose proof (Forall_lookup_1 _ _ _ _ b_rf Hb) as Hb'.
    cbn [random_free]. rewrite Hw', Hw0', Hb', !Bool.andb_true_r.
    split; [| split].
    + intros Hh'. rewrite (Forall_lookup_1 _ _ _ _ Hh' Hh2), (Forall_lookup_1 _ _ _ _ Hh' Hh0).
      reflexivity.
    + intros x _ [= <-] Hx. rewrite Hx. apply Bool.andb_false_r.
    + intros x Hx. contradiction.
Qed.

Lemma noiseless_sweep h ch s h' ch' s' :
  h <> [] -> update_layers h W b (Some ch) c s = Ok ((h', ch'), s') ->
  length h' = length h /\
  (exists x, h' !! 0 = Some x /\ random_free x = false) /\
  exists p, ch' = Some (ch ++ [p]) /\
    (Forall (fun e => random_free e = true) h -> random_free p = true) /\
    (forall x, h !! 0 = Some x -> random_free x = false -> random_free p = false).
Proof.
  intros Hne Hrun. unfold update_layers in Hrun.
  apply bind_Ok_inv in Hrun as ([] & s1 & _ & Hrun).
  apply bind_Ok_inv in Hrun as (h1 & s2 & Hodd & Hrun).
  apply bind_Ok_inv in Hrun as ([] & s3 & _ & Hrun).
  apply bind_Ok_inv in Hrun as ([h2 ch2] & s4 & Heven & Hrun).
  apply bind_Ok_inv in Hrun as ([] & s5 & _ & Hrun).
  injection Hrun as -> -> _.
  apply update_odd_layers_Ok_exact in Hodd as (Hl1 & Heven1 & Hodd1).
  apply update_even_layers_Ok_exact in Heven as (Hl2 & _ & Heven2 & _ & Hch).
  assert (Hne1 : h1 <> []) by (intros ->; destruct h; [done | discriminate Hl1]).
  destruct (Hch Hne1) as (pre0 & ch0 & Hpre0 & [= <-] & ->).
  split; [congruence |]. split.
  - destruct (Heven2 0) as (pre & n & _ & _ & Hv);
      [destruct h1; [done | cbn; lia] | reflexivity |].
    eexists. split; [exact Hv |].
    unfold layer_value, visible_value. rewrite bool_decide_eq_true_2 by reflexivity.
    destruct (input_sampling c); reflexivity.
  - exists (visible_activation c pre0). split; [reflexivity |].
    rewrite visible_rf.
    destruct (topological_rule_Some_items _ _ _ _ _ Hpre0) as (_ & H0 & _).
    destruct (H0 eq_refl) as [H2 _].
    destruct (lookup_lt_ex h1 1) as [y Hy]; [lia |].
    destruct (rule_random_free h1 0 pre0 Hpre0) as (_ & _ & Hrf0).
    rewrite (Hrf0 y eq_refl Hy).
    destruct (Hodd1 1) as (pre1 & n & _ & Hpre1 & Hv1); [lia | reflexivity |].
    rewrite Hv1 in Hy. injection Hy as <-.
    unfold hidden_value, noise_on. rewrite noise_off. cbn [andb]. rewrite hidden_rf.
    destruct (rule_random_free h 1 pre1 Hpre1) as (Hall & Hprev & _).
    split; [exact Hall |].
    intros x Hx Hrf. apply (Hprev x); [discriminate | exact Hx | exact Hrf].
Qed.

Lemma init_hiddens_random_free X_init s h s' :
  random_free X_init = true ->
  init_hiddens X_init W s = Ok (h, s') ->
  Forall (fun e => random_free e = true) h /\ length h = S (length W).
Proof.
  intros HX Hrun. split.
  - unfold init_hiddens in Hrun.
    apply (for_each_Ok_ind (fun (done : list expr) (h : list expr) (_ : builder) =>
             Forall (fun e => random_free e = true) h)) in Hrun; [exact Hrun | |].
    + intros done w rest h0 s0 h1 s1 Hl Hrf Hbody.
      apply bind_Ok_inv in Hbody as (x & s2 & [Hx _]%getitem_last_Ok_inv & Hret).
      injection Hret as <- _. apply Forall_app. split; [exact Hrf |].
      constructor; [| constructor]. cbn [random_free].
      assert (Hin : x ∈ h0).
      { destruct (last_Some h0 x) as [[l' ->] _]; [exact Hx |].
        apply elem_of_app. right. left. }
      rewrite (proj1 (Forall_forall _ _) Hrf x Hin). cbn [andb].
      apply (proj1 (Forall_forall _ _) W_rf). rewrite Hl. apply elem_of_app. right. left.
    + constructor; [exact HX | constructor].
  - destruct (init_hiddens_Ok X_init W s) as (h0 & s0 & Heq & _ & Hlen & _).
    rewrite Hrun in Heq. injection Heq as <- _. exact Hlen.
Qed.

End NoiseOff.

(** X19: noise switched off does not make the chain deterministic.  When
    [build_gsn] is run with [add_noise = False] on an input and parameters
    without random nodes (the activations neither adding nor hiding
    such nodes), the first entry of the chain it returns contains no random
    node, and every later entry does: the visible layer is sampled and
    corrupted at the end of each walkback whatever [add_noise] is, and the
    next walkback starts from that sample. *)
Theorem noiseless_chain X0 W b c walkbacks s chain hid s' :
  add_noise c = false ->
  (forall e, random_free (visible_activation c e) = random_free e) ->
  (forall e, random_free (hidden_activation c e) = random_free e) ->
  random_free X0 = true ->
  Forall (fun e => random_free e = true) W ->
  Forall (fun e => random_free e = true) b ->
  build_gsn X0 W b c walkbacks s = Ok ((Some chain, hid), s') ->
  length chain = walkbacks /\
  forall i e, chain !! i = Some e -> random_free e = bool_decide (i = 0).
Proof.
  intros Hoff Hvis Hhid HX HW Hb Hrun. unfold build_gsn in Hrun.
  apply bind_Ok_inv in Hrun as (X_init & s1 & Hcorrupt & Hrun).
  unfold corrupt_input in Hcorrupt. rewrite Hoff in Hcorrupt. injection Hcorrupt as <- <-.
  apply bind_Ok_inv in Hrun as (h0 & s2 & Hinit & Hrun).
  apply (init_hiddens_random_free W HW X0 s h0 s2 HX) in Hinit as [Hrf0 Hlen0].
  apply bind_Ok_inv in Hrun as ([] & s3 & _ & Hrun).
  apply bind_Ok_inv in Hrun as ([h' ch'] & s4 & Hloop & Hret).
  injection Hret as -> -> _.
  apply (for_each_Ok_ind
           (fun (done : list nat) (st : list expr * option (list expr)) (_ : builder) =>
              length st.1 = S (length W) /\
              (done = [] -> Forall (fun e => random_free e = true) st.1) /\
              (done <> [] -> exists x, st.1 !! 0 = Some x /\ random_free x = false) /\
              exists chain0, st.2 = Some chain0 /\ length chain0 = length done /\
                forall i e, chain0 !! i = Some e -> random_free e = bool_decide (i = 0)))
    in Hloop.
  - destruct Hloop as (_ & _ & _ & chain0 & [= <-] & Hlen & Hall).
    rewrite py_range_step1, length_seq in Hlen. split; [exact Hlen | exact Hall].
  - intros done x rest [st ch] s5 [st1 ch1] s6 _ (Hl & Hfirst & Hlater & chain0 & Hch & Hlen & Hall)
      Hbody. cbn [fst snd] in *. subst ch.
    apply bind_Ok_inv in Hbody as ([] & s7 & _ & Hbody).
    apply (noiseless_sweep W b c Hoff Hvis Hhid HW Hb) in Hbody
      as (Hl1 & Hx1 & p & -> & Hp1 & Hp2);
      [| intros ->; discriminate Hl].
    split; [congruence |]. split; [intros H; destruct done; discriminate H |].
    split; [intros _; exact Hx1 |].
    exists (chain0 ++ [p]). split; [reflexivity |].
    split; [rewrite !length_app; cbn; lia |].
    intros i e Hi. apply lookup_app_Some in Hi as [Hi | [Hge Hi]]; [apply Hall, Hi |].
    apply list_lookup_singleton_Some in Hi as [Hi <-].
    destruct done as [|d done].
    + cbn [length] in *. replace i with 0 by lia.
      rewrite bool_decide_eq_true_2 by reflexivity. apply Hp1, Hfirst. reflexivity.
    + rewrite bool_decide_eq_false_2 by (cbn [length] in *; lia).
      destruct Hlater as (x0 & Hx0 & Hrf); [discriminate |]. eapply Hp2; eauto.
  - cbn [fst snd]. split; [exact Hlen0 |]. split; [intros _; exact Hrf0 |].
    split; [intros H; contradiction |].
    exists []. split; [reflexivity |]. split; [reflexivity |].
    intros i e Hi. discriminate Hi.
Qed.

Lemma noiseless_chain_witness :
  exists chain hid s',
    build_gsn X example_weights example_biases (with_add_noise example_config false) 2
      builder0 = Ok ((Some chain, hid), s') /\
    length chain = 2 /\
    forall i e, chain !! i = Some e -> random_free e = bool_decide (i = 0).
Proof.
  destruct (build_gsn X example_weights example_biases
              (with_add_noise example_config false) 2 builder0)
    as [[[[chain|] hid] s']|e] eqn:E;
    [| vm_compute in E; discriminate E | vm_compute in E; discriminate E].
  exists chain, hid, s'. split; [reflexivity |].
  apply (noiseless_chain X example_weights example_biases
           (with_add_noise example_config false) 2 builder0 chain hid s');
    try reflexivity; try exact E.
  - repeat constructor.
  - repeat constructor.
Defined.

(** ** When the builders that read the last chain entry return *)

Lemma update_layers_reverse_Ok_inv hiddens W b chain c s r s' :
  update_layers_reverse hiddens W b (Some chain) c s = Ok (r, s') ->
  length r.1 = length hiddens /\ (hiddens <> [] -> well_formed hiddens W b) /\
  is_Some r.2.
Proof.
  unfold update_layers_reverse. intros Hrun.
  apply bind_Ok_inv in Hrun as ([] & s1 & _ & Hrun).
  apply bind_Ok_inv in Hrun as ([h1 ch1] & s2 & Heven & Hrun).
  apply bind_Ok_inv in Hrun as ([] & s3 & _ & Hrun).
  apply bind_Ok_inv in Hrun as (h2 & s4 & Hodd & Hrun).
  apply bind_Ok_inv in Hrun as ([] & s5 & _ & Hrun).
  injection Hrun as <- <-. cbn [fst snd].
  pose proof (update_even_layers_Ok_chain _ _ _ _ _ _ _ _ Heven) as Hch.
  apply update_even_layers_Ok_inv in Heven as [Hl1 Heven].
  apply update_odd_layers_Ok_inv in Hodd as [Hl2 Hodd].
  cbn [fst snd] in *. rewrite Hl1 in Hl2, Hodd.
  split; [exact Hl2 |]. split; [| exact Hch].
  intros Hne. assert (Hn : 1 <= length hiddens) by (destruct hiddens; [done | cbn; lia]).
  destruct (Heven 0) as (st & Hst & [pre Hpre]).
  { apply elem_of_py_range_even. split; [lia | reflexivity]. }
  apply topological_rule_Some_items in Hpre as (_ & H0 & _).
  destruct (H0 eq_refl) as [H2 _]. rewrite Hst in H2.
  assert (Htop : exists st, length st = length hiddens /\
                   is_Some (topological_rule st W b (length hiddens - 1))).
  { destruct (Nat.even (length hiddens - 1)) eqn:E.
    - apply Heven, elem_of_py_range_even. split; [lia | exact E].
    - apply Hodd, elem_of_py_range_odd. split; [lia |].
      unfold Nat.odd. rewrite E. reflexivity. }
  destruct Htop as (st' & Hst' & [pre' Hpre']).
  apply topological_rule_Some_items in Hpre' as (Hb & _ & HW).
  apply lookup_lt_is_Some in Hb.
  specialize (HW ltac:(lia)). apply lookup_lt_is_Some in HW.
  unfold well_formed. lia.
Qed.

Lemma update_layers_reverse_index_error_only hiddens W b chain c s :
  index_error_only (update_layers_reverse hiddens W b (Some chain) c s).
Proof.
  unfold update_layers_reverse.
  apply index_error_only_bind; [apply index_error_only_Ok |].
  intros [] s1 _. apply index_error_only_bind;
    [apply update_even_layers_index_error_only |].
  intros [h1 ch1] s2 _. apply index_error_only_bind; [apply index_error_only_Ok |].
  intros [] s3 _. apply index_error_only_bind;
    [apply update_odd_layers_index_error_only |].
  intros h2 s4 _. apply index_error_only_bind; apply index_error_only_Ok ||
    (intros; apply index_error_only_Ok).
Qed.

Section ChainReaders.
Variables (W b : list expr) (c : config).
Variable sweep : list expr -> list expr -> list expr -> option (list expr) ->
                 config -> M (list expr * option (list expr)).
Variable record : nat -> msg.
Hypothesis sweep_Ok_inv : forall h ch s r s',
  sweep h W b (Some ch) c s = Ok (r, s') ->
  length r.1 = length h /\ (h <> [] -> well_formed h W b) /\ is_Some r.2.
Hypothesis sweep_empty : forall ch s r s',
  sweep [] W b (Some ch) c s = Ok (r, s') -> r = ([], Some ch).
Hypothesis sweep_errors : forall h ch s, index_error_only (sweep h W b (Some ch) c s).
Hypothesis sweep_Ok : forall h ch s, well_formed h W b ->
  returns (sweep h W b (Some ch) c) s (fun r _ =>
    length r.1 = length h /\ exists e, r.2 = Some (ch ++ [e])).

Local Abbreviation walk := (walkback_loop sweep record W b c).

Lemma walk_Ok_inv hiddens walkbacks s r s' :
  walk hiddens walkbacks s = Ok (r, s') ->
  exists chain, r.2 = Some chain /\
    (chain <> [] -> 1 <= walkbacks /\ well_formed hiddens W b).
Proof.
  unfold walkback_loop. intros Hrun.
  apply (for_each_Ok_ind
           (fun (done : list nat) (st : list expr * option (list expr)) (_ : builder) =>
              length st.1 = length hiddens /\
              exists chain, st.2 = Some chain /\
                (chain <> [] -> done <> [] /\ well_formed hiddens W b))) in Hrun.
  - destruct Hrun as (_ & chain & Hch & Hne). exists chain. split; [exact Hch |].
    intros H. destruct (Hne H) as [Hdone Hwf]. split; [| exact Hwf].
    rewrite py_range_step1 in Hdone. destruct walkbacks; [done | lia].
  - intros done x rest [st ch] s0 [st1 ch1] s1 _ (Hl & chain & Hch & Hne) Hbody.
    cbn [fst snd] in *. subst ch.
    apply bind_Ok_inv in Hbody as ([] & s2 & _ & Hbody).
    pose proof (sweep_Ok_inv _ _ _ _ _ Hbody) as (Hl1 & Hwf & [chain1 Hch1]).
    cbn [fst snd] in *. split; [congruence |].
    exists chain1. split; [exact Hch1 |]. intros Hne1.
    split; [destruct done; discriminate |].
    destruct st as [|x0 st].
    + apply sweep_empty in Hbody. injection Hbody as _ ->. injection Hch1 as <-.
      apply Hne, Hne1.
    + eapply well_formed_length; [| apply Hwf; discriminate]. congruence.
  - cbn [fst snd]. split; [reflexivity |]. exists []. split; [reflexivity |]. done.
Qed.

Lemma walk_index_error_only hiddens walkbacks s :
  index_error_only (walk hiddens walkbacks s).
Proof.
  unfold walkback_loop.
  apply (index_error_only_for_each
           (fun st : list expr * option (list expr) => is_Some st.2));
    [| | cbn; eauto].
  - intros x [st ch] s4 _ [ch0 Hch]. cbn [snd] in Hch. subst ch.
    apply index_error_only_bind; [apply index_error_only_Ok |].
    intros [] s5 _. apply sweep_errors.
  - intros x [st ch] s4 [st' ch'] s5 _ [ch0 Hch] Hbody. cbn [snd] in Hch. subst ch.
    apply bind_Ok_inv in Hbody as ([] & s6 & _ & Hbody).
    apply sweep_Ok_inv in Hbody as (_ & _ & H). exact H.
Qed.

Lemma walk_Ok hiddens walkbacks s :
  well_formed hiddens W b -> 1 <= walkbacks ->
  exists h chain x s',
    walk hiddens walkbacks s = Ok ((h, Some chain), s') /\ last chain = Some x.
Proof.
  intros Hwf Hk.
  destruct (walkbacks_Ok W b c sweep record hiddens walkbacks s sweep_Ok Hwf)
    as ([h ch] & s' & Heq & _ & chain & Hch & Hlen).
  cbn [snd] in Hch. subst ch.
  destruct (last_nonempty chain) as [x Hx]; [lia |].
  exists h, chain, x, s'. split; [exact Heq | exact Hx].
Qed.

(** What follows the loop in the three builders: the last chain entry is
    read, alone or with the costs. *)
Lemma read_last_iff {A} (k : option (list expr) -> M A) hiddens walkbacks s :
  (forall chain s, is_Ok (k (Some chain) s) = true <-> chain <> []) ->
  (forall chain s, index_error_only (k (Some chain) s)) ->
  let m := '(_, p_X_chain) ← walk hiddens walkbacks; k p_X_chain in
  (is_Ok (m s) = true <-> 1 <= walkbacks /\ well_formed hiddens W b) /\
  index_error_only (m s).
Proof.
  intros Hk Hkerr m. subst m. split; [split |].
  - intros ([r s'] & Hrun)%is_Ok_inv.
    apply bind_Ok_inv in Hrun as ([h ch] & s1 & Hwalk & Hrun).
    apply walk_Ok_inv in Hwalk as (chain & Hch & Hne). cbn [snd] in Hch. subst ch.
    apply Hne, (Hk chain s1). rewrite Hrun. reflexivity.
  - intros [Hk1 Hwf].
    destruct (walk_Ok hiddens walkbacks s Hwf Hk1) as (h & chain & x & s' & Hwalk & Hx).
    erewrite bind_Ok by exact Hwalk.
    apply Hk. intros ->. discriminate Hx.
  - apply index_error_only_bind; [apply walk_index_error_only |].
    intros [h ch] s1 Hwalk.
    apply walk_Ok_inv in Hwalk as (chain & Hch & _). cbn [snd] in Hch. subst ch.
    apply Hkerr.
Qed.

End ChainReaders.

Lemma update_layers_empty W b ch c s r s' :
  update_layers [] W b (Some ch) c s = Ok (r, s') -> r = ([], Some ch).
Proof. intros [= <- _]. reflexivity. Qed.

Lemma update_layers_reverse_empty W b ch c s r s' :
  update_layers_reverse [] W b (Some ch) c s = Ok (r, s') -> r = ([], Some ch).
Proof. intros [= <- _]. reflexivity. Qed.

Lemma update_layers_Ok_facts W b c h ch s r s' :
  update_layers h W b (Some ch) c s = Ok (r, s') ->
  length r.1 = length h /\ (h <> [] -> well_formed h W b) /\ is_Some r.2.
Proof.
  intros Hrun. pose proof (update_layers_Ok_chain _ _ _ _ _ _ _ _ Hrun) as Hch.
  apply update_layers_Ok_inv in Hrun as [Hl Hwf]. auto.
Qed.

Lemma update_layers_returns W b c h ch s :
  well_formed h W b ->
  returns (update_layers h W b (Some ch) c) s (fun r _ =>
    length r.1 = length h /\ exists e, r.2 = Some (ch ++ [e])).
Proof.
  intros Hwf. eapply returns_mono; [apply update_layers_Ok, Hwf |].
  intros r s' (H1 & H2 & _). auto.
Qed.

Lemma update_layers_reverse_returns W b c h ch s :
  well_formed h W b ->
  returns (update_layers_reverse h W b (Some ch) c) s (fun r _ =>
    length r.1 = length h /\ exists e, r.2 = Some (ch ++ [e])).
Proof.
  intros Hwf. eapply returns_mono; [apply update_layers_reverse_Ok, Hwf |].
  intros r s' (H1 & H2 & _). auto.
Qed.

Lemma getitem_last_Ok_iff (chain : list expr) (s : builder) :
  is_Ok (getitem_last chain s) = true <-> chain <> [].
Proof.
  unfold getitem_last. destruct (last chain) eqn:E.
  - split; [intros _ -> | reflexivity]. discriminate E.
  - apply last_None in E. subst. split; [discriminate | done].
Qed.

Lemma getitem_last_errors {A} (l : list A) (s : builder) :
  index_error_only (getitem_last l s).
Proof.
  unfold getitem_last. destruct (last l); [apply index_error_only_Ok |].
  intros e [= <-]. reflexivity.
Qed.

Lemma costs_then_last_Ok cost_function X0 chain (s : builder) :
  is_Ok ((x_sample ← getitem_last chain;
          costs ← costs_of cost_function X0 (Some chain);
          show_cost ← getitem_last costs;
          mret (x_sample, numpy_sum costs, show_cost)) s) = true <-> chain <> [].
Proof.
  split.
  - intros (r & Hrun)%is_Ok_inv. destruct r as [r s'].
    apply bind_Ok_inv in Hrun as (x & s1 & [Hx _]%getitem_last_Ok_inv & _).
    intros ->. discriminate Hx.
  - intros Hne. destruct (last chain) as [x|] eqn:Hx;
      [| apply last_None in Hx; contradiction].
    erewrite bind_Ok by (apply getitem_last_Some, Hx).
    erewrite bind_Ok by apply costs_of_Ok.
    erewrite bind_Ok by (apply getitem_last_Some, last_costs, Hx). reflexivity.
Qed.

Lemma costs_then_last_errors cost_function X0 chain (s : builder) :
  index_error_only ((x_sample ← getitem_last chain;
                     costs ← costs_of cost_function X0 (Some chain);
                     show_cost ← getitem_last costs;
                     mret (x_sample, numpy_sum costs, show_cost)) s).
Proof.
  apply index_error_only_bind; [apply getitem_last_errors |].
  intros x s1 _. erewrite bind_Ok by apply costs_of_Ok.
  apply index_error_only_bind; [apply getitem_last_errors |].
  intros y s2 _. apply index_error_only_Ok.
Qed.

(** X20: the three builders that read the last entry of the chain they
    build.  [build_gsn_pxh] and [build_gsn_given_hiddens] return exactly
    when at least one walkback is asked for and the given hiddens fit the
    parameter lists; [build_gsn_scan], which makes its own hiddens,
    exactly when at least one walkback is asked for, there is a weight and
    there are more biases than weights.  In every other case the exception
    is [IndexError]. *)
Theorem chain_readers_return_iff X0 hiddens W b c walkbacks cost_function s :
  ((is_Ok (build_gsn_pxh hiddens W b c walkbacks s) = true <->
    1 <= walkbacks /\ well_formed hiddens W b) /\
   index_error_only (build_gsn_pxh hiddens W b c walkbacks s)) /\
  ((is_Ok (build_gsn_given_hiddens X0 hiddens W b c walkbacks cost_function s) = true <->
    1 <= walkbacks /\ well_formed hiddens W b) /\
   index_error_only (build_gsn_given_hiddens X0 hiddens W b c walkbacks cost_function s)) /\
  ((is_Ok (build_gsn_scan X0 W b c walkbacks cost_function s) = true <->
    1 <= walkbacks /\ 1 <= length W /\ length W < length b) /\
   index_error_only (build_gsn_scan X0 W b c walkbacks cost_function s)).
Proof.
  split; [| split].
  - unfold build_gsn_pxh. erewrite bind_Ok by reflexivity.
    apply (read_last_iff W b c update_layers (fun i => GSN_Walkback (i + 1) walkbacks)
             (update_layers_Ok_facts W b c)
             (fun ch s r s' => update_layers_empty W b ch c s r s')
             (fun h ch s => update_layers_index_error_only h W b ch c s)
             (update_layers_returns W b c)
             (fun p_X_chain => chain ← iter p_X_chain; getitem_last chain)).
    + intros chain s1. cbn [iter]. rewrite bind_ret. apply getitem_last_Ok_iff.
    + intros chain s1. cbn [iter]. rewrite bind_ret. apply getitem_last_errors.
  - unfold build_gsn_given_hiddens. erewrite bind_Ok by reflexivity.
    apply (read_last_iff W b c update_layers_reverse
             (fun i => GSN_prediction_Walkback (i + 1) walkbacks)
             (fun h ch s r s' => update_layers_reverse_Ok_inv h W b ch c s r s')
             (fun ch s r s' => update_layers_reverse_empty W b ch c s r s')
             (fun h ch s => update_layers_reverse_index_error_only h W b ch c s)
             (update_layers_reverse_returns W b c)
             (fun p_X_chain =>
                chain ← iter p_X_chain;
                x_sample ← getitem_last chain;
                costs ← costs_of cost_function X0 p_X_chain;
                show_cost ← getitem_last costs;
                mret (x_sample, numpy_sum costs, show_cost))).
    + intros chain s1. cbn [iter]. rewrite bind_ret. apply costs_then_last_Ok.
    + intros chain s1. cbn [iter]. rewrite bind_ret. apply costs_then_last_errors.
  - unfold build_gsn_scan.
    destruct (corrupt_input_returns X0 c s) as (X_init & s1 & HX & _).
    erewrite bind_Ok by exact HX.
    destruct (init_hiddens_Ok X_init W s1) as (h0 & s0 & Heq & _ & Hlen & _).
    erewrite bind_Ok by exact Heq. erewrite bind_Ok by reflexivity.
    assert (Hwf : well_formed h0 W b <-> 1 <= length W /\ length W < length b)
      by (unfold well_formed; lia).
    rewrite <- Hwf.
    apply (read_last_iff W b c update_layers
             (fun i => GSN_after_scan_Walkback (i + 1) walkbacks)
             (update_layers_Ok_facts W b c)
             (fun ch s r s' => update_layers_empty W b ch c s r s')
             (fun h ch s => update_layers_index_error_only h W b ch c s)
             (update_layers_returns W b c)
             (fun p_X_chain =>
                chain ← iter p_X_chain;
                x_sample ← getitem_last chain;
                costs ← costs_of cost_function X0 p_X_chain;
                show_cost ← getitem_last costs;
                mret (x_sample, numpy_sum costs, show_cost))).
    + intros chain s2. cbn [iter]. rewrite bind_ret. apply costs_then_last_Ok.
    + intros chain s2. cbn [iter]. rewrite bind_ret. apply costs_then_last_errors.
Qed.

(** ** Lists of inputs *)

(** X21: [raise_to_list] normalises its argument.  Its result is never a
    bare object and is [None] only for [None]; applying it twice is
    applying it once; and [stack_and_shared] gives the same result, value
    or exception, on an argument and on its normal form, so that a single
    object is stacked exactly as the one-element list of it. *)
Theorem raise_to_list_normalises {A : Type} (theano_shared : A -> result A)
    (stack : list A -> result A) (_input : @pyinput A) :
  raise_to_list (raise_to_list _input) = raise_to_list _input /\
  (forall x, raise_to_list _input <> ObjectInput x) /\
  (raise_to_list _input = NoInput <-> _input = NoInput) /\
  stack_and_shared theano_shared stack (raise_to_list _input) =
    stack_and_shared theano_shared stack _input.
Proof.
  destruct _input as [|l|x]; cbn [raise_to_list].
  - repeat split; discriminate.
  - repeat split; discriminate.
  - split; [reflexivity |]. split; [discriminate |]. split; [split; discriminate |].
    cbn [stack_and_shared shared_ins].
    destruct (shared_or_self theano_shared x); reflexivity.
Qed.

(** ** A parameter listed more than once *)

Lemma dict_get_zip_with_last {V V'} (h : shared -> V -> V') keys vals i k v :
  keys !! i = Some k -> vals !! i = Some v ->
  (forall j, i < j -> keys !! j <> Some k) ->
  dict_get k (zip_with (fun k0 v0 => (k0, h k0 v0)) keys vals) = Some (h k v).
Proof.
  revert vals i. induction keys as [|k' keys IH]; intros [|v' vals] i Hk Hv Hlast;
    try discriminate.
  cbn [zip_with dict_get]. destruct i as [|i].
  - injection Hk as ->. injection Hv as ->.
    rewrite dict_get_zip_with_None; [rewrite decide_True by reflexivity; reflexivity |].
    intros (j & Hj)%list_elem_of_lookup_1. apply (Hlast (S j)); [lia | exact Hj].
  - rewrite (IH vals i Hk Hv); [reflexivity |].
    intros j Hij. apply (Hlast (S j)). lia.
Qed.

(** X22: a parameter that occurs several times in [params] (tied
    weights) is stepped once by [f_learn], not once per occurrence: the
    dictionary of updates keeps the last pair of a key, so the parameter
    moves by the momentum gradient held in the buffer of its last
    occurrence. *)
Theorem tied_parameter_update (B : backend) cost params k p show (x : tensor B)
    (w : world B) :
  params !! k = Some p ->
  (forall j, k < j -> params !! j <> Some p) ->
  (forall j, p <> gradient_buffer_ j) ->
  let step :=
    Mul learning_rate
      (Add (Mul momentum (Shared (gradient_buffer_ k)))
           (Mul (Sub (Const 1) momentum) (Grad cost (Shared p)))) in
  dict_get p (init_updates cost params) = Some (Sub (Shared p) step) /\
  exists out w',
    call B (mkFunction [X] (One show) (init_updates cost params)) [x] w = Ok (out, w') /\
    store w' p =
      t_sub B (store w p)
        (eval B (bind_inputs B [X] [x]) (store w) (theano_calls w) step).
Proof.
  intros Hp Hlast Hbuf step.
  assert (Hget : dict_get p (init_updates cost params) = Some (Sub (Shared p) step)).
  { unfold init_updates.
    rewrite dict_get_app, zip_zip_with_pair, (dict_get_zip_with_None (fun _ v => v)).
    - rewrite fmap_zip_zip_with.
      apply (dict_get_zip_with_last (fun p mg => Sub (Shared p) (Mul learning_rate mg))
               _ _ k _ _ Hp (m_gradient_lookup cost params k p Hp) Hlast).
    - unfold init_gradient_buffer. intros (j & -> & _)%list_elem_of_fmap.
      apply (Hbuf j). reflexivity. }
  split; [exact Hget |].
  unfold call. cbn [inputs outputs fn_updates length store].
  rewrite decide_True by reflexivity. eexists _, _. split; [reflexivity |].
  cbn [store]. rewrite Hget. reflexivity.
Qed.

Lemma tied_parameter_update_witness :
  dict_get (W_ 0) (init_updates (Input "cost") [W_ 0; b_ 0; W_ 0]) =
    Some (Sub (Shared (W_ 0))
            (Mul learning_rate
               (Add (Mul momentum (Shared (gradient_buffer_ 2)))
                    (Mul (Sub (Const 1) momentum)
                         (Grad (Input "cost") (Shared (W_ 0))))))).
Proof.
  apply (tied_parameter_update Z_backend (Input "cost") [W_ 0; b_ 0; W_ 0] 2 (W_ 0)
           (Input "cost") 7%Z Z_world).
  - reflexivity.
  - intros [|[|[|j]]] Hj; try lia; discriminate.
  - discriminate.
Defined.

(** ** Which hidden states multi-layer sampling keeps *)

Lemma ceil_div_succ k d :
  1 <= k ->
  (S d + (k - 1)) / k =
  (d + (k - 1)) / k + (if bool_decide (d mod k = 0) then 1 else 0).
Proof.
  intros Hk. pose proof (Nat.div_mod_eq d k) as Hd.
  pose proof (Nat.mod_upper_bound d k ltac:(lia)) as Hr.
  assert (H1 : (S d + (k - 1)) / k = d / k + 1).
  { symmetry. apply (Nat.div_unique _ _ _ (d mod k)); [exact Hr | lia]. }
  rewrite H1. case_bool_decide as H0.
  - assert (H2 : (d + (k - 1)) / k = d / k).
    { symmetry. apply (Nat.div_unique _ _ _ (k - 1)); lia. }
    lia.
  - assert (H2 : (d + (k - 1)) / k = d / k + 1).
    { symmetry. apply (Nat.div_unique _ _ _ (d mod k - 1)); [lia | nia]. }
    lia.
Qed.

Lemma ceil_div_multiple k d :
  1 <= k -> d mod k = 0 -> (d + (k - 1)) / k * k = d.
Proof.
  intros Hk H0. pose proof (Nat.div_mod_eq d k) as Hd.
  assert (H2 : (d + (k - 1)) / k = d / k).
  { symmetry. apply (Nat.div_unique _ _ _ (k - 1)); lia. }
  rewrite H2. lia.
Qed.

Lemma seq_middle m done (x : nat) rest : seq 0 m = done ++ x :: rest -> x = length done.
Proof.
  intros H. assert (Hx : seq 0 m !! length done = Some x).
  { rewrite H, lookup_app_r, Nat.sub_diag by lia. reflexivity. }
  apply lookup_seq in Hx as [-> _]. reflexivity.
Qed.

Section Stride.
Variable B : backend.
Variables (a : gsn_args) (g : GSN).
Hypothesis Hg : built a g.
Hypothesis HL : arg_layers a <> 1.

Lemma multi_layer_stride initial rows n k (w : world B) :
  1 <= k -> shape B initial !! 0 = Some rows ->
  exists st w',
    multi_layer_samples B g initial n k w = Ok (st, w') /\
    length (network_state st) = S (n - 1) /\
    length (noisy_h0_chain st) = S (n - 1) /\
    length (sampled_h st) = (n - 1 + (k - 1)) / k /\
    forall j, j < length (sampled_h st) ->
      exists state, network_state st !! S (j * k) = Some state /\
                    sampled_h st !! j = Some (T_stack B (tail state)).
Proof.
  intros Hk Hrows.
  destruct (multi_layer_samples_Ok B a g Hg initial n k rows w HL Hk Hrows)
    as (st & w' & Hrun & _).
  exists st, w'. split; [exact Hrun |].
  edestruct (multi_layer_prefix B a g) as (x & zeros & w1 & _ & Heq); eauto.
  rewrite Heq in Hrun. clear Heq.
  apply (for_each_Ok_ind (fun (done : list nat) (st : sampling_state B) (_ : world B) =>
           length (network_state st) = S (length done) /\
           length (noisy_h0_chain st) = S (length done) /\
           length (sampled_h st) = (length done + (k - 1)) / k /\
           forall j, j < length (sampled_h st) ->
             exists state, network_state st !! S (j * k) = Some state /\
                           sampled_h st !! j = Some (T_stack B (tail state)))) in Hrun.
  - rewrite py_range_step1, length_seq in Hrun. exact Hrun.
  - intros done i rest st0 w0 st1 w2 Hl (Hns & Hh0 & Hsh & Hall) Hbody.
    rewrite py_range_step1 in Hl. apply seq_middle in Hl. subst i.
    apply bind_Ok_inv in Hbody as (ls & w3 & _ & Hbody).
    apply bind_Ok_inv in Hbody as ([nso vis] & w4 & _ & Hbody).
    apply bind_Ok_inv in Hbody as (h0 & w5 & _ & Hbody).
    apply bind_Ok_inv in Hbody as (sh & w6 & Hsh' & Hbody).
    injection Hbody as <- _. cbn [network_state noisy_h0_chain sampled_h].
    rewrite !length_app, Hns, Hh0. cbn [length].
    split; [lia |]. split; [lia |].
    rewrite bool_decide_eq_false_2 in Hsh' by lia.
    replace (length done + 1) with (S (length done)) by lia.
    rewrite ceil_div_succ by exact Hk.
    case_bool_decide as Hmod; injection Hsh' as <- _.
    + rewrite length_app, Hsh. cbn [length]. split; [lia |].
      intros j Hj. destruct (decide (j < length (sampled_h st0))) as [Hlt | Hge].
      * destruct (Hall j Hlt) as (state & Hst & Hs). exists state.
        rewrite !lookup_app_l; [auto | exact Hlt |].
        eapply lookup_lt_Some, Hst.
      * assert (j = (length done + (k - 1)) / k) as -> by lia.
        exists nso. rewrite ceil_div_multiple by assumption. split.
        -- rewrite lookup_app_r by lia. rewrite Hns, Nat.sub_diag. reflexivity.
        -- rewrite lookup_app_r by lia. rewrite Hsh, Nat.sub_diag. reflexivity.
    + rewrite Nat.add_0_r. split; [exact Hsh |].
      intros j Hj. destruct (Hall j Hj) as (state & Hst & Hs). exists state.
      split; [| exact Hs]. rewrite lookup_app_l; [exact Hst |].
      eapply lookup_lt_Some, Hst.
  - cbn [network_state noisy_h0_chain sampled_h length].
    split; [reflexivity |]. split; [reflexivity |].
    split; [symmetry; apply Nat.div_small; lia |].
    intros j Hj. lia.
Qed.

End Stride.

(** X23: what multi-layer sampling keeps of the hidden layers.  With a
    stride [k >= 1], a network with more than one hidden layer keeps the
    hidden state of one step in every [k], starting with the first: the
    list of hidden samples has [ceil((n - 1) / k)] entries, and its [j]-th
    entry is the stack of the hidden part of the network state reached by
    step [j * k]. *)
Theorem sample_stride (B : backend) a s g s0 (initial : tensor B) n k rows
    (w : world B) :
  arg_weights_list a = None -> arg_bias_list a = None ->
  GSN_init a s = Ok (g, s0) -> layers g <> 1 ->
  1 <= k -> shape B initial !! 0 = Some rows ->
  exists st w',
    multi_layer_samples B g initial n k w = Ok (st, w') /\
    sample B g initial n k w =
      Ok ((np_vstack B (visible_chain st), Some (sampled_h st)), w') /\
    length (network_state st) = S (n - 1) /\
    length (sampled_h st) = (n - 1 + (k - 1)) / k /\
    forall j, j < length (sampled_h st) ->
      exists state, network_state st !! S (j * k) = Some state /\
                    sampled_h st !! j = Some (T_stack B (tail state)).
Proof.
  intros HW Hb Hinit HL Hk Hrows.
  destruct (GSN_init_built a s g s0 HW Hb Hinit) as (Hg & _ & _).
  assert (HLa : arg_layers a <> 1) by (rewrite <- (built_layers a g Hg); exact HL).
  destruct (multi_layer_stride B a g Hg HLa initial rows n k w Hk Hrows)
    as (st & w' & Hrun & Hns & _ & Hsh & Hall).
  exists st, w'. split; [exact Hrun |]. split; [| auto].
  unfold sample, sample_some_numbers. rewrite bool_decide_eq_false_2 by exact HL.
  erewrite bind_Ok by exact Hrun. reflexivity.
Qed.

Lemma sample_stride_witness :
  exists g s0 st w',
    GSN_init example_args builder0 = Ok (g, s0) /\
    multi_layer_samples Z_backend g 7%Z 6 2 Z_world = Ok (st, w') /\
    length (sampled_h st) = 3.
Proof.
  destruct (GSN_init example_args builder0) as [[g s0]|e] eqn:E;
    [| vm_compute in E; discriminate E].
  assert (Hl : layers g <> 1).
  { vm_compute in E. injection E as <- _. discriminate. }
  destruct (sample_stride Z_backend example_args builder0 g s0 7%Z 6 2 1 Z_world
              eq_refl eq_refl E Hl ltac:(lia) eq_refl)
    as (st & w' & Hrun & _ & _ & Hsh & _).
  exists g, s0, st, w'. split; [reflexivity |]. split; [exact Hrun | exact Hsh].
Defined.

(** * The order of the layer updates in a sweep *)

Lemma snoc_split {A} (done d1 d2 : list A) x y :
  done ++ [x] = d1 ++ y :: d2 ->
  (d2 = [] /\ d1 = done /\ y = x) \/
  (exists d2', d2 = d2' ++ [x] /\ done = d1 ++ y :: d2').
Proof.
  induction d2 as [|z d2 _] using rev_ind; intros Heq.
  - apply app_inj_tail in Heq as [-> ->]. left. auto.
  - change (d1 ++ y :: d2 ++ [z]) with (d1 ++ (y :: d2) ++ [z]) in Heq.
    rewrite app_assoc in Heq. apply app_inj_tail in Heq as [-> ->].
    right. exists d2. auto.
Qed.

Lemma streams_of_snoc c done x :
  streams_of c (done ++ [x]) = streams_of c done + layer_streams c x.
Proof. unfold streams_of. rewrite sum_list_with_app. cbn. lia. Qed.

(** One step of a pass over the layers of one parity: the layers visited
    so far hold their new values, each built with the streams that follow
    those of the layers visited before it; the others are as at the
    start. *)
Lemma pass_step (par : bool) hiddens W b c (l done rest : list nat) x
    st chain s0 r s1 (n0 : nat) :
  l = done ++ x :: rest -> NoDup l ->
  (forall j, j ∈ l -> Nat.even j = par) ->
  length st = length hiddens ->
  (forall j, j ∉ done -> st !! j = hiddens !! j) ->
  (forall d1 y d2, done = d1 ++ y :: d2 ->
     exists pre, topological_rule hiddens W b y = Some pre /\
       st !! y = Some (layer_value c y (n0 + streams_of c d1) pre)) ->
  MRG s0 = n0 + streams_of c done ->
  simple_update_layer st W b chain x c s0 = Ok (r, s1) ->
  length r.1 = length hiddens /\
  (forall j, j ∉ done ++ [x] -> r.1 !! j = hiddens !! j) /\
  (forall d1 y d2, done ++ [x] = d1 ++ y :: d2 ->
     exists pre, topological_rule hiddens W b y = Some pre /\
       r.1 !! y = Some (layer_value c y (n0 + streams_of c d1) pre)) /\
  MRG s1 = n0 + streams_of c (done ++ [x]).
Proof.
  intros Hl Hnd Hpar Hlen Hrest Hdone Hn Hrun.
  apply simple_update_layer_Ok_exact in Hrun as (pre & Hrule & -> & Hch & HM).
  assert (Hx : Nat.even x = par).
  { apply Hpar. rewrite Hl. apply elem_of_app. right. left. }
  assert (Hother : forall j, Nat.even j = negb par -> st !! j = hiddens !! j).
  { intros j Hj. apply Hrest. intros Hin.
    assert (Nat.even j = par) by (apply Hpar; rewrite Hl; apply elem_of_app; auto).
    destruct par; cbn in *; congruence. }
  assert (Hxd : x ∉ done).
  { rewrite Hl in Hnd. apply NoDup_app in Hnd as (_ & Hnd & _).
    intros Hin. apply (Hnd x Hin). left. }
  rewrite topological_rule_ext with (hiddens := hiddens) in Hrule; first last.
  { apply Hother. rewrite even_neighbours, Hx. reflexivity. }
  { intros H0. apply Hother. rewrite even_pred, Hx by exact H0. reflexivity. }
  { exact Hlen. }
  assert (Hlt : x < length st).
  { rewrite Hlen. eapply topological_rule_Some_lt, Hrule. }
  cbn [fst snd].
  split; [rewrite length_insert; exact Hlen |]. split; [| split].
  - intros j Hj. rewrite list_lookup_insert_ne.
    + apply Hrest. intros Hin. apply Hj, elem_of_app. auto.
    + intros ->. apply Hj, elem_of_app. right. left.
  - intros d1 y d2 [(-> & -> & ->) | (d2' & -> & Hd)]%snoc_split.
    + exists pre. split; [exact Hrule |].
      rewrite <- Hn. apply list_lookup_insert_eq. exact Hlt.
    + destruct (Hdone d1 y d2' Hd) as (pre' & Hr & Hv).
      exists pre'. split; [exact Hr |].
      rewrite list_lookup_insert_ne; [exact Hv |].
      intros <-. apply Hxd. rewrite Hd. apply elem_of_app. right. left.
  - rewrite streams_of_snoc. lia.
Qed.

Lemma update_odd_layers_pass hiddens W b c s h' s' :
  update_odd_layers hiddens W b c s = Ok (h', s') ->
  pass_of c W b (odd_indices (length hiddens)) (MRG s) hiddens h' /\
  MRG s' = MRG s + streams_of c (odd_indices (length hiddens)).
Proof.
  unfold update_odd_layers. rewrite <- py_range_odd. intros Hrun.
  apply (for_each_Ok_ind (fun done st s0 =>
           length st = length hiddens /\
           (forall j, j ∉ done -> st !! j = hiddens !! j) /\
           (forall d1 y d2, done = d1 ++ y :: d2 ->
              exists pre, topological_rule hiddens W b y = Some pre /\
                st !! y = Some (layer_value c y (MRG s + streams_of c d1) pre)) /\
           MRG s0 = MRG s + streams_of c done)) in Hrun.
  - destruct Hrun as (Hlen & Hrest & Hdone & HM).
    split; [| exact HM]. split; [exact Hlen |]. split; [exact Hrest | exact Hdone].
  - intros done x rest st s0 st1 s1 Hl (Hlen & Hrest & Hdone & Hn) Hbody.
    apply bind_Ok_inv in Hbody as ([] & s2 & Hlog & Hbody).
    injection Hlog as <-.
    apply bind_Ok_inv in Hbody as ([h ch] & s3 & Hbody & Hret).
    injection Hret as <- <-.
    apply (pass_step false hiddens W b c _ done rest x st None _ _ _ (MRG s) Hl)
      in Hbody; [exact Hbody | apply py_range_NoDup | | exact Hlen | exact Hrest
                 | exact Hdone | exact Hn].
    intros j [_ Ho]%elem_of_py_range_odd. rewrite <- Nat.negb_even in Ho.
    destruct (Nat.even j); [discriminate | reflexivity].
  - split; [reflexivity |]. split; [reflexivity |]. split; [| cbn; lia].
    intros [|] y d2 Hd; discriminate Hd.
Qed.

Lemma update_even_layers_pass hiddens W b chain c s h' chain' s' :
  update_even_layers hiddens W b chain c s = Ok ((h', chain'), s') ->
  pass_of c W b (even_indices (length hiddens)) (MRG s) hiddens h' /\
  MRG s' = MRG s + streams_of c (even_indices (length hiddens)).
Proof.
  unfold update_even_layers. rewrite <- py_range_even. intros Hrun.
  apply (for_each_Ok_ind (fun done (st : list expr * option (list expr)) s0 =>
           length st.1 = length hiddens /\
           (forall j, j ∉ done -> st.1 !! j = hiddens !! j) /\
           (forall d1 y d2, done = d1 ++ y :: d2 ->
              exists pre, topological_rule hiddens W b y = Some pre /\
                st.1 !! y = Some (layer_value c y (MRG s + streams_of c d1) pre)) /\
           MRG s0 = MRG s + streams_of c done)) in Hrun.
  - destruct Hrun as (Hlen & Hrest & Hdone & HM). cbn [fst] in *.
    split; [| exact HM]. split; [exact Hlen |]. split; [exact Hrest | exact Hdone].
  - intros done x rest [st ch] s0 [st1 ch1] s1 Hl (Hlen & Hrest & Hdone & Hn) Hbody.
    cbn [fst snd] in *.
    apply bind_Ok_inv in Hbody as ([] & s2 & Hlog & Hbody).
    injection Hlog as <-.
    apply (pass_step true hiddens W b c _ done rest x st ch _ _ _ (MRG s) Hl)
      in Hbody; [exact Hbody | apply py_range_NoDup | | exact Hlen | exact Hrest
                 | exact Hdone | exact Hn].
    intros j [_ He]%elem_of_py_range_even. exact He.
  - cbn [fst]. split; [reflexivity |]. split; [reflexivity |]. split; [| cbn; lia].
    intros [|] y d2 Hd; discriminate Hd.
Qed.

(** A forward sweep that returns has run the odd pass and then the even
    pass, and has appended the visible prediction of the even pass. *)
Lemma update_layers_sweep h W b ch c s h' ch' s' :
  h <> [] -> update_layers h W b (Some ch) c s = Ok ((h', ch'), s') ->
  exists e, ch' = Some (ch ++ [e]) /\ forward_sweep_of c W b (MRG s) h h' e /\
    length h' = length h /\ MRG s' = MRG s + sweep_streams c (length h).
Proof.
  intros Hne Hrun. unfold update_layers in Hrun.
  apply bind_Ok_inv in Hrun as ([] & s1 & Hlog1 & Hrun). injection Hlog1 as <-.
  apply bind_Ok_inv in Hrun as (h1 & s2 & Hodd & Hrun).
  apply bind_Ok_inv in Hrun as ([] & s3 & Hlog3 & Hrun). injection Hlog3 as <-.
  apply bind_Ok_inv in Hrun as ([h2 ch2] & s4 & Heven & Hrun).
  apply bind_Ok_inv in Hrun as ([] & s5 & Hlog5 & Hrun). injection Hlog5 as <-.
  injection Hrun as -> -> <-.
  pose proof (update_odd_layers_pass _ _ _ _ _ _ _ Hodd) as [Hp1 HM1].
  pose proof (update_even_layers_pass _ _ _ _ _ _ _ _ _ Heven) as [Hp2 HM2].
  apply update_odd_layers_Ok_exact in Hodd as (Hl1 & _).
  apply update_even_layers_Ok_exact in Heven as (Hl2 & _ & _ & _ & Hch).
  assert (Hne1 : h1 <> []) by (intros ->; destruct h; [done | discriminate Hl1]).
  destruct (Hch Hne1) as (pre0 & ch0 & Hpre0 & [= <-] & ->).
  cbn [MRG] in *. rewrite Hl1, HM1 in Hp2.
  exists (visible_activation c pre0). split; [reflexivity |].
  split; [exists h1, pre0; auto |]. split; [congruence |].
  unfold sweep_streams. rewrite HM2, HM1, Hl1. lia.
Qed.

(** A reversed sweep that returns has run the even pass and then the odd
    pass, and has appended the visible prediction of the even pass. *)
Lemma update_layers_reverse_sweep h W b ch c s h' ch' s' :
  h <> [] -> update_layers_reverse h W b (Some ch) c s = Ok ((h', ch'), s') ->
  exists e, ch' = Some (ch ++ [e]) /\ reverse_sweep_of c W b (MRG s) h h' e /\
    length h' = length h /\ MRG s' = MRG s + sweep_streams c (length h).
Proof.
  intros Hne Hrun. unfold update_layers_reverse in Hrun.
  apply bind_Ok_inv in Hrun as ([] & s1 & Hlog1 & Hrun). injection Hlog1 as <-.
  apply bind_Ok_inv in Hrun as ([h1 ch1] & s2 & Heven & Hrun).
  apply bind_Ok_inv in Hrun as ([] & s3 & Hlog3 & Hrun). injection Hlog3 as <-.
  apply bind_Ok_inv in Hrun as (h2 & s4 & Hodd & Hrun).
  apply bind_Ok_inv in Hrun as ([] & s5 & Hlog5 & Hrun). injection Hlog5 as <-.
  injection Hrun as -> -> <-.
  pose proof (update_even_layers_pass _ _ _ _ _ _ _ _ _ Heven) as [Hp1 HM1].
  pose proof (update_odd_layers_pass _ _ _ _ _ _ _ Hodd) as [Hp2 HM2].
  apply update_even_layers_Ok_exact in Heven as (Hl1 & _ & _ & _ & Hch).
  apply update_odd_layers_Ok_exact in Hodd as (Hl2 & _).
  destruct (Hch Hne) as (pre0 & ch0 & Hpre0 & [= <-] & ->).
  cbn [MRG] in *. rewrite Hl1, HM1 in Hp2.
  exists (visible_activation c pre0). split; [reflexivity |].
  split; [exists h1, pre0; auto |]. split; [congruence |].
  unfold sweep_streams. rewrite HM2, HM1, Hl1. lia.
Qed.

(** The loop of [build_gsn_given_hiddens], followed sweep by sweep:
    [states] lists the stack before the first sweep and after each one. *)
Lemma reverse_walkbacks_trace W b c record hiddens walkbacks s r s' :
  hiddens <> [] ->
  walkback_loop update_layers_reverse record W b c hiddens walkbacks s = Ok (r, s') ->
  exists states chain,
    r.2 = Some chain /\ length chain = walkbacks /\
    length states = S walkbacks /\ states !! 0 = Some hiddens /\
    forall i, i < walkbacks -> exists before after e,
      states !! i = Some before /\ states !! S i = Some after /\
      chain !! i = Some e /\
      reverse_sweep_of c W b (MRG s + i * sweep_streams c (length hiddens))
        before after e.
Proof.
  intros Hne Hrun. unfold walkback_loop in Hrun.
  apply (for_each_Ok_ind
           (fun (done : list nat) (st : list expr * option (list expr)) s0 =>
              length st.1 = length hiddens /\
              MRG s0 = MRG s + length done * sweep_streams c (length hiddens) /\
              exists states chain,
                st.2 = Some chain /\ length chain = length done /\
                length states = S (length done) /\ states !! 0 = Some hiddens /\
                states !! length done = Some st.1 /\
                forall i, i < length done -> exists before after e,
                  states !! i = Some before /\ states !! S i = Some after /\
                  chain !! i = Some e /\
                  reverse_sweep_of c W b
                    (MRG s + i * sweep_streams c (length hiddens)) before after e))
    in Hrun.
  - destruct Hrun as (_ & _ & states & chain & Hch & Hlc & Hls & H0 & _ & Hall).
    rewrite py_range_step1, length_seq in *.
    exists states, chain. auto.
  - intros done x rest [st ch] s0 [st1 ch1] s1 Hl
      (Hlen & HM & states & chain & Hch & Hlc & Hls & H0 & Hlast & Hall) Hbody.
    cbn [fst snd] in *. subst ch.
    apply bind_Ok_inv in Hbody as ([] & s2 & Hlog & Hbody). injection Hlog as <-.
    apply update_layers_reverse_sweep in Hbody as (e & -> & Hsweep & Hl1 & HM1);
      [| intros ->; destruct hiddens; [done | discriminate Hlen]].
    cbn [MRG] in *. rewrite length_app. cbn [length].
    split; [congruence |]. split; [rewrite HM1, HM, Hlen; lia |].
    exists (states ++ [st1]), (chain ++ [e]).
    split; [reflexivity |]. split; [rewrite length_app; cbn; lia |].
    split; [rewrite length_app; cbn; lia |].
    split; [rewrite lookup_app_l by lia; exact H0 |].
    assert (Hnew : (states ++ [st1]) !! S (length done) = Some st1).
    { rewrite <- Hls. apply list_lookup_middle. reflexivity. }
    split; [replace (length done + 1) with (S (length done)) by lia; exact Hnew |].
    intros i Hi. destruct (decide (i = length done)) as [-> | Hi'].
    + exists st, st1, e. split; [rewrite lookup_app_l by lia; exact Hlast |].
      split; [exact Hnew |].
      split; [rewrite <- Hlc; apply list_lookup_middle; reflexivity |].
      rewrite <- HM. exact Hsweep.
    + destruct (Hall i) as (before & after & e' & Hb & Ha & He & Hs); [lia |].
      exists before, after, e'.
      rewrite !lookup_app_l by lia. auto.
  - cbn [fst snd length]. split; [reflexivity |]. split; [lia |].
    exists [hiddens], []. repeat split; try reflexivity. intros i Hi. lia.
Qed.

(** C6: a full forward sweep ([update_layers]) updates the odd-indexed
    layers, one after the other in increasing order, and then the
    even-indexed layers in increasing order; the reversed sweep
    ([update_layers_reverse]) does the even pass first and the odd pass
    second, and it is the sweep that [build_gsn_given_hiddens] repeats.
    The order shows in the stack that a sweep returns: the second pass
    reads the layers that the first has written, the visible prediction
    added to the chain is computed where the even pass stands, and every
    layer draws from the random streams that follow those of the layers
    updated before it.  The log of the layer updates has the same order. *)
Theorem sweep_order hiddens W b chain c s :
  well_formed hiddens W b ->
  let n := length hiddens in
  (exists h' e s',
     update_layers hiddens W b (Some chain) c s = Ok ((h', Some (chain ++ [e])), s') /\
     forward_sweep_of c W b (MRG s) hiddens h' e /\
     updated_layers (logger s') =
       updated_layers (logger s) ++ odd_indices n ++ even_indices n) /\
  (exists h' e s',
     update_layers_reverse hiddens W b (Some chain) c s =
       Ok ((h', Some (chain ++ [e])), s') /\
     reverse_sweep_of c W b (MRG s) hiddens h' e /\
     updated_layers (logger s') =
       updated_layers (logger s) ++ even_indices n ++ odd_indices n) /\
  (forall X cost_function walkbacks, 1 <= walkbacks ->
     exists states p_X_chain x_sample s',
       build_gsn_given_hiddens X hiddens W b c walkbacks cost_function s =
         Ok ((x_sample,
              numpy_sum ((fun rX => cost_function rX X) <$> p_X_chain),
              cost_function x_sample X), s') /\
       last p_X_chain = Some x_sample /\ length p_X_chain = walkbacks /\
       length states = S walkbacks /\ states !! 0 = Some hiddens /\
       (forall i, i < walkbacks -> exists before after e,
          states !! i = Some before /\ states !! S i = Some after /\
          p_X_chain !! i = Some e /\
          reverse_sweep_of c W b (MRG s + i * sweep_streams c n) before after e) /\
       updated_layers (logger s') =
         updated_layers (logger s) ++
         concat (replicate walkbacks (even_indices n ++ odd_indices n))).
Proof.
  intros Hwf n.
  assert (Hne : hiddens <> []).
  { intros ->. destruct Hwf as [Hwf _]. cbn in Hwf. lia. }
  repeat split.
  - destruct (update_layers_Ok W b c hiddens chain s Hwf)
      as ([h' ch'] & s' & Heq & _ & _ & Hlog).
    destruct (update_layers_sweep _ _ _ _ _ _ _ _ _ Hne Heq) as (e & -> & Hsweep & _).
    exists h', e, s'. auto.
  - destruct (update_layers_reverse_Ok W b c hiddens chain s Hwf)
      as ([h' ch'] & s' & Heq & _ & _ & Hlog).
    destruct (update_layers_reverse_sweep _ _ _ _ _ _ _ _ _ Hne Heq)
      as (e & -> & Hsweep & _).
    exists h', e, s'. auto.
  - intros X cost_function walkbacks Hk.
    unfold build_gsn_given_hiddens.
    set (s0 := mkBuilder (MRG s)
                 (logger s ++ [Building_the_GSN_graph_given_hiddens walkbacks])).
    destruct (walkbacks_log W b c update_layers_reverse
                (fun i => GSN_prediction_Walkback (i + 1) walkbacks)
                (fun n => even_indices n ++ odd_indices n) hiddens walkbacks s0)
      as ([h ch] & s1 & Heq & _ & (ch1 & Hch & Hlen) & Hlog).
    { intros h ch s1 Hwf'. apply update_layers_reverse_Ok, Hwf'. }
    { reflexivity. }
    { exact Hwf. }
    cbn [fst snd] in *. subst ch.
    destruct (last_nonempty ch1) as [x Hx]; [lia |].
    destruct (reverse_walkbacks_trace W b c
                (fun i => GSN_prediction_Walkback (i + 1) walkbacks)
                hiddens walkbacks s0 (h, Some ch1) s1 Hne Heq)
      as (states & chain' & [= <-] & _ & Hls & H0 & Hall).
    exists states, ch1, x, s1. split; [| repeat split; auto].
    + erewrite bind_Ok by reflexivity. fold s0.
      erewrite bind_Ok by exact Heq.
      cbn [iter]. rewrite bind_ret.
      erewrite bind_Ok by (apply getitem_last_Some, Hx).
      erewrite bind_Ok by apply costs_of_Ok.
      erewrite bind_Ok by (apply getitem_last_Some, last_costs, Hx).
      reflexivity.
    + rewrite Hlog. subst s0. cbn [logger].
      rewrite updated_layers_app, app_nil_r. reflexivity.
Qed.

Lemma sweep_order_witness :
  (exists h' e s',
     update_layers example_hiddens example_weights example_biases (Some [])
       example_config builder0 = Ok ((h', Some ([] ++ [e])), s') /\
     forward_sweep_of example_config example_weights example_biases 0
       example_hiddens h' e /\
     updated_layers (logger s') = [] ++ [1] ++ [0; 2]) /\
  (exists h' e s',
     update_layers_reverse example_hiddens example_weights example_biases (Some [])
       example_config builder0 = Ok ((h', Some ([] ++ [e])), s') /\
     reverse_sweep_of example_config example_weights example_biases 0
       example_hiddens h' e /\
     updated_layers (logger s') = [] ++ [0; 2] ++ [1]) /\
  (forall X cost_function walkbacks, 1 <= walkbacks ->
     exists states p_X_chain x_sample s',
       build_gsn_given_hiddens X example_hiddens example_weights example_biases
         example_config walkbacks cost_function builder0 =
         Ok ((x_sample,
              numpy_sum ((fun rX => cost_function rX X) <$> p_X_chain),
              cost_function x_sample X), s') /\
       last p_X_chain = Some x_sample /\ length p_X_chain = walkbacks /\
       length states = S walkbacks /\ states !! 0 = Some example_hiddens /\
       (forall i, i < walkbacks -> exists before after e,
          states !! i = Some before /\ states !! S i = Some after /\
          p_X_chain !! i = Some e /\
          reverse_sweep_of example_config example_weights example_biases
            (0 + i * sweep_streams example_config 3) before after e) /\
       updated_layers (logger s') =
         [] ++ concat (replicate walkbacks ([0; 2] ++ [1]))).
Proof.
  refine (sweep_order example_hiddens example_weights example_biases []
            example_config builder0 _).
  unfold well_formed. cbn. lia.
Defined.

(** * Loading a checkpoint *)

Lemma zip_take_drop {A C} (l : list A) (W b : list C) :
  length W <= length l ->
  zip (take (length W) l) W ++ zip (drop (length W) l) b = zip l (W ++ b).
Proof.
  intros Hlen. rewrite <- (take_drop (length W) l) at 3.
  rewrite zip_with_app by (rewrite length_take; lia). reflexivity.
Qed.

Lemma set_values_outcome (B : backend) pairs (w : world B) :
  assignment_outcome B pairs w tt (set_values B pairs w).
Proof.
  unfold assignment_outcome.
  revert w. induction pairs as [|[v p] pairs IH]; intros w.
  - left. split; [destruct w; reflexivity |]. intros i v p Hi. discriminate Hi.
  - unfold set_values. cbn [for_each]. fold (set_values B pairs).
    destruct (accepts B (store w p) v) eqn:Hacc.
    + erewrite bind_Ok by (unfold set_value; rewrite Hacc; reflexivity).
      destruct (IH (mkWorld (store_set (store w) p v) (theano_calls w) (numpy_draws w)))
        as [[Heq Hall] | (Heq & i & v' & p' & Hi & Hno & Hmin)]; cbn [store] in *.
      * left. split; [exact Heq |].
        intros [|i] v' p' Hi; [injection Hi as <- <-; exact Hacc |].
        apply (Hall i v' p' Hi).
      * right. split; [exact Heq |].
        exists (S i), v', p'. split; [exact Hi |]. split; [exact Hno |].
        intros [|j] v2 p2 Hj Hj2; [injection Hj2 as <- <-; exact Hacc |].
        apply (Hmin j v2 p2); [lia | exact Hj2].
    + right. split.
      * apply bind_Raise. unfold set_value. rewrite Hacc. reflexivity.
      * exists 0, v, p. split; [reflexivity |]. split; [exact Hacc |].
        intros j v' p' Hj. lia.
Qed.

Lemma assignment_outcome_then {A} (B : backend) pairs (w : world B) (ret : A)
    (m : SE (world B) unit) :
  assignment_outcome B pairs w tt (m w) ->
  assignment_outcome B pairs w ret ((m;; mret ret) w).
Proof.
  unfold assignment_outcome, mbind, SE_bind.
  intros [[-> Hall] | [-> Hex]]; [left | right]; auto.
Qed.

(** C8, as stated, fails: neither [GSN.load_params] nor
    [Model.set_param_values] looks at a shape.  A checkpoint with the right
    number of entries whose first entry is a 5 x 7 matrix is loaded into a
    network with a 2 x 3 weight matrix and two bias vectors, and the call
    returns normally: a shared variable takes any array with its number of
    dimensions. *)
Lemma load_params_swallows_mismatch :
  ~ (forall (B : backend) weights_list bias_list loaded_params (w : world B),
       checkpoint_mismatch B (store w) weights_list bias_list loaded_params ->
       is_Ok (load_params B weights_list bias_list (Some loaded_params) w) = false).
Proof.
  intros H.
  specialize (H shape_backend [W_ 0] [b_ 0; b_ 1] [[5; 7]; [2]; [3]] shape_world).
  assert (Hm : checkpoint_mismatch shape_backend (store shape_world)
                 [W_ 0] [b_ 0; b_ 1] [[5; 7]; [2]; [3]]).
  { right. exists 0, (W_ 0), [5; 7]. repeat split. discriminate. }
  apply H in Hm. vm_compute in Hm. discriminate Hm.
Qed.

(** What that load leaves behind: the weight matrix replaced by an array
    of another shape, the biases with the values loaded for them. *)
Example load_params_wrong_shape :
  exists w',
    load_params shape_backend [W_ 0] [b_ 0; b_ 1] (Some [[5; 7]; [2]; [3]]) shape_world
      = Ok (tt, w') /\
    store w' (W_ 0) = [5; 7] /\ store shape_world (W_ 0) = [2; 3] /\
    store w' (b_ 0) = [2] /\ store w' (b_ 1) = [3].
Proof. eexists. split; [reflexivity |]. repeat split. Qed.

(** C8, amended: loading checks no shape.  [Model.set_param_values]
    checks the length: given a list of another length than the parameter
    list, it returns False and assigns nothing.  [GSN.load_params] does
    nothing for a missing file.  Given a list with one entry per parameter,
    both assign the entries in order ([load_params] to the weights and then
    to the biases), whatever their shapes: the call returns, with every
    parameter holding its entry, when each variable's type filter takes
    the entry offered to it, and raises [TypeError] at the first entry that
    a filter refuses. *)
Theorem checkpoint_loading_checks (B : backend) :
  (forall params param_values (w : world B),
     length param_values <> length params ->
     set_param_values B (Some params) param_values w = Ok (false, w)) /\
  (forall params param_values (w : world B),
     length param_values = length params ->
     assignment_outcome B (zip param_values params) w true
       (set_param_values B (Some params) param_values w)) /\
  (forall weights_list bias_list (w : world B),
     load_params B weights_list bias_list None w = Ok (tt, w)) /\
  (forall weights_list bias_list loaded_params (w : world B),
     length loaded_params = length weights_list + length bias_list ->
     assignment_outcome B (zip loaded_params (weights_list ++ bias_list)) w tt
       (load_params B weights_list bias_list (Some loaded_params) w)).
Proof.
  split; [| split; [| split]].
  - intros params param_values w Hlen. unfold set_param_values.
    rewrite bool_decide_eq_true_2 by exact Hlen. reflexivity.
  - intros params param_values w Hlen. unfold set_param_values.
    rewrite bool_decide_eq_false_2 by (intros H; apply H, Hlen).
    apply assignment_outcome_then. rewrite set_param_loop.
    apply set_values_outcome.
  - reflexivity.
  - intros weights_list bias_list loaded_params w Hlen.
    unfold load_params.
    rewrite <- set_values_app, zip_take_drop by lia.
    apply set_values_outcome.
Qed.

Lemma checkpoint_loading_checks_witness :
  set_param_values shape_backend (Some [W_ 0; b_ 0; b_ 1]) [[5; 7]] shape_world =
    Ok (false, shape_world) /\
  assignment_outcome shape_backend
    (zip [[5; 7]; [2]; [3]] [W_ 0; b_ 0; b_ 1]) shape_world true
    (set_param_values shape_backend (Some [W_ 0; b_ 0; b_ 1]) [[5; 7]; [2]; [3]]
       shape_world) /\
  assignment_outcome shape_backend
    (zip [[5; 7]; [2]; [3]] ([W_ 0] ++ [b_ 0; b_ 1])) shape_world tt
    (load_params shape_backend [W_ 0] [b_ 0; b_ 1] (Some [[5; 7]; [2]; [3]])
       shape_world).
Proof.
  split; [| split].
  - apply (proj1 (checkpoint_loading_checks shape_backend)). cbn. lia.
  - apply (proj1 (proj2 (checkpoint_loading_checks shape_backend))). reflexivity.
  - apply (proj2 (proj2 (proj2 (checkpoint_loading_checks shape_backend)))). reflexivity.
Defined.
